(** * MNQ momentum bot: a shallow embedding of the decision pipeline

    The development follows the Python sources module by module:

    - [strategies/momentum_30pt.py]  -> [Module Momentum30pt]
    - [core/risk_manager.py]         -> [Module RiskManager]
    - [core/order_manager.py]        -> [Module OrderManager]
    - [core/market_data.py]          -> [Module MarketData]
    - [utils/auth_manager.py]        -> [Module TradovateAuth]
    - [main.py]                      -> [Module MNQTradingBot]

    Modelling conventions.

    - A Python [float] is carried by the rational it denotes: every finite
      binary64 number is a rational, and comparisons, [abs], negation and
      copies are exact on it.  The arithmetic operations round: [a + b],
      [a - b], [a * b] and [a / b] are the binary64 number nearest to the
      exact result ([Py.fadd], [Py.fsub], [Py.fmul], [Py.fdiv], through
      [Py.round64]: round to nearest, ties to even, gradual underflow).
      Infinities and NaN are outside the model, and so are results of
      magnitude [2 ^ 1024] or more, where Python overflows.  Numeric results
      are compared with [==] ([Qeq]); values that the code merely copies are
      compared with [=].
    - Python [int] is [Z]; [str] is [string]; [Optional[T]] is [option T];
      a [dict] keyed by strings is a [gmap string _].
    - [datetime.now()] is an input of the function that reads it; a method
      that reads the clock twice takes two readings.
    - The network is an oracle: every request takes the broker's outcome as
      an argument, and the requests a method issues are returned as a list.
    - Methods that mutate [self] return the new object next to the Python
      return value. *)

From Stdlib Require Import ZArith QArith Qabs Qround Qreduction String DecimalString.
From Stdlib Require Import List Lia Lqa Bool Floats.
From stdpp Require Import base option list gmap strings.
Import ListNotations.

(** ** Python helpers *)

Module Py.

(** Strict comparison on rationals, next to Stdlib's [Qle_bool]. *)
Definition Qlt_bool (x y : Q) : bool :=
  (Qnum x * QDen y <? Qnum y * QDen x)%Z.

(** *** binary64 arithmetic *)

Section Binary64.
Local Open Scope Q_scope.

(** [pow2 k] is [2 ^ k] for every integer [k]. *)
Definition pow2 (k : Z) : Q :=
  if (0 <=? k)%Z then inject_Z (2 ^ k) else / inject_Z (2 ^ (- k)).

(** The binary exponent of a positive rational: the [e] with
    [2 ^ e <= q < 2 ^ (e + 1)]. *)
Definition ilog2 (q : Q) : Z :=
  let e0 := (Z.log2 (Qnum q) - Z.log2 (Zpos (Qden q)))%Z in
  if Qle_bool (pow2 e0) q then e0 else (e0 - 1)%Z.

(** The integer nearest to a non-negative rational, ties to the even one. *)
Definition round_half_even (x : Q) : Z :=
  let fl := Qfloor x in
  match Qcompare (2 * (x - inject_Z fl)) 1 with
  | Lt => fl
  | Gt => (fl + 1)%Z
  | Eq => if Z.even fl then fl else (fl + 1)%Z
  end.

(** The binary64 number nearest to a positive rational: 53 significant
    bits, and a unit in the last place of at least [2 ^ -1074]. *)
Definition round64_pos (q : Q) : Q :=
  let ulp := Z.max (ilog2 q - 52) (-1074) in
  inject_Z (round_half_even (q * pow2 (- ulp))) * pow2 ulp.

(** The binary64 number nearest to a rational, in lowest terms. *)
Definition round64 (q : Q) : Q :=
  Qred match Qnum q with
       | Z0 => 0
       | Zpos _ => round64_pos q
       | Zneg _ => - round64_pos (- q)
       end.

(** The four arithmetic operations of [float]. *)
Definition fadd (a b : Q) : Q := round64 (a + b).
Definition fsub (a b : Q) : Q := round64 (a - b).
Definition fmul (a b : Q) : Q := round64 (a * b).
Definition fdiv (a b : Q) : Q := round64 (a / b).

(** A [float] literal [n / d] written in decimal denotes the nearest
    binary64 number. *)
Definition literal (n : Z) (d : positive) : Q := round64 (n # d).

(** The rationals that are finite binary64 numbers: rounding leaves them
    alone, and they are below [2 ^ 1024] in magnitude. *)
Definition binary64 (q : Q) : Prop := round64 q == q /\ Qabs q < pow2 1024.

(** The rational a finite kernel float denotes, used to compare [round64]
    with the hardware operations. *)
Definition Q_of_float (x : float) : option Q :=
  match Prim2SF x with
  | S754_zero _ => Some 0
  | S754_finite s m e =>
      Some (Qred ((if s then -1 else 1) * inject_Z (Zpos m) * pow2 e))
  | _ => None
  end.

(** [agrees op qop x y]: the hardware result of [op x y] is the rounded
    exact result of [qop]. *)
Definition agrees (op : float -> float -> float) (qop : Q -> Q -> Q)
    (x y : float) : bool :=
  match Q_of_float x, Q_of_float y, Q_of_float (op x y) with
  | Some a, Some b, Some c => Qeq_bool (round64 (qop a b)) c
  | _, _, _ => false
  end.

(** The kernel float nearest to the decimal [n / d], for [|n|] and
    [d > 0] of at most 53 bits: both convert exactly and the division
    rounds once. *)
Definition float_literal (n d : Z) : float :=
  let magnitude := PrimFloat.div (PrimFloat.of_uint63 (Uint63.of_Z (Z.abs n)))
                                 (PrimFloat.of_uint63 (Uint63.of_Z d)) in
  if (n <? 0)%Z then PrimFloat.opp magnitude else magnitude.

(** Pseudo-random operand pairs for that comparison: decimals of up to
    ten digits with up to nine of them after the point, of either sign,
    drawn from a linear congruential sequence. *)
Fixpoint sample_operands (count : nat) (seed : Z) : list (float * float) :=
  match count with
  | O => []
  | S count' =>
      let s1 := ((seed * 6364136223846793005 + 1442695040888963407) mod 2 ^ 63)%Z in
      let s2 := ((s1 * 6364136223846793005 + 1442695040888963407) mod 2 ^ 63)%Z in
      let draw s :=
        let digits := ((s / 2 ^ 20) mod 10 ^ 10 + 1)%Z in
        let places := ((s / 2 ^ 56) mod 10)%Z in
        let sign := if Z.even (s / 2 ^ 60) then 1%Z else (-1)%Z in
        float_literal (sign * digits) (10 ^ places) in
      (draw s1, draw s2) :: sample_operands count' s2
  end.

(** The four operations agree on a pair of operands. *)
Definition agrees_on (xy : float * float) : bool :=
  agrees PrimFloat.add Qplus (fst xy) (snd xy)
  && agrees PrimFloat.sub Qminus (fst xy) (snd xy)
  && agrees PrimFloat.mul Qmult (fst xy) (snd xy)
  && agrees PrimFloat.div Qdiv (fst xy) (snd xy).

End Binary64.

#[global] Arguments round64 : simpl never.
#[global] Arguments fadd : simpl never.
#[global] Arguments fsub : simpl never.
#[global] Arguments fmul : simpl never.
#[global] Arguments fdiv : simpl never.

(** Truthiness of a number: zero is false. *)
Definition truthy_Q (x : Q) : bool := negb (Qeq_bool x 0).
Definition truthy_Z (x : Z) : bool := negb (x =? 0)%Z.

(** Truthiness of an optional number: [None] and zero are false. *)
Definition truthy_opt_Q (x : option Q) : bool :=
  match x with Some q => truthy_Q q | None => false end.
Definition truthy_opt_Z (x : option Z) : bool :=
  match x with Some z => truthy_Z z | None => false end.

(** Truthiness of an optional string: [None] and the empty string are
    false. *)
Definition truthy_opt_str (x : option string) : bool :=
  match x with
  | Some EmptyString => false
  | Some _ => true
  | None => false
  end.

(** [datetime]: the proleptic ordinal of the calendar day and the
    microseconds elapsed since midnight. *)
Record datetime := mk_datetime { dt_date : Z; dt_micro : Z }.

(** [a - b] as a number of microseconds. *)
Definition micros_per_day : Z := 86400 * 1000000.
Definition dt_sub (a b : datetime) : Z :=
  ((dt_date a - dt_date b) * micros_per_day + (dt_micro a - dt_micro b))%Z.

(** [timedelta(minutes=m)] in microseconds. *)
Definition timedelta_minutes (m : Z) : Z := (m * 60 * 1000000)%Z.

(** [str(n)] for an [int]. *)
Definition str_Z (n : Z) : string :=
  NilZero.string_of_int (Z.to_int n).

End Py.

(** ** strategies/momentum_30pt.py *)

Module Momentum30pt.
Import Py.
Local Open Scope Q_scope.

Record Candle := mk_candle {
  c_open : Q;
  c_high : Q;
  c_low : Q;
  c_close : Q;
  c_volume : Z;
  c_timestamp : datetime
}.

(** The signal dictionary built by [on_candle_close]. *)
Record Signal := mk_signal {
  direction : string;
  entry_price : Q;
  stop_price : Q;
  breakout_candle : Candle;
  prior_candle : Candle;
  move_points : Q;
  risk_points : Q;
  timestamp : datetime
}.

Record t := mk {
  candles : list Candle;
  trigger_threshold : Q;
  current_signal : option Signal
}.

(** [__init__] *)
Definition init : t :=
  {| candles := []; trigger_threshold := 30; current_signal := None |}.

(** [on_candle_close]: the candle is appended first; [self.candles[-2]]
    is the element at index [len - 2], which exists once the length test
    has passed (the [None] branch of the lookup is the [IndexError] that
    cannot occur there). *)
Definition on_candle_close (self : t) (candle : Candle) : t * option Signal :=
  let cs := candles self ++ [candle] in
  let self1 := {| candles := cs;
                  trigger_threshold := trigger_threshold self;
                  current_signal := current_signal self |} in
  if (length cs <? 2)%nat then (self1, None)
  else
    match cs !! (length cs - 2)%nat with
    | None => (self1, None)
    | Some prior =>
        let breakout := candle in
        let move := fsub (c_close breakout) (c_close prior) in
        if Qle_bool (trigger_threshold self) (Qabs move) then
          let dir := if Qlt_bool 0 move then "Buy"%string else "Sell"%string in
          let stop := if String.eqb dir "Buy" then c_low breakout
                      else c_high breakout in
          let signal := {| direction := dir;
                           entry_price := c_close breakout;
                           stop_price := stop;
                           breakout_candle := breakout;
                           prior_candle := prior;
                           move_points := Qabs move;
                           risk_points := Qabs (fsub (c_close breakout) stop);
                           timestamp := c_timestamp breakout |} in
          ({| candles := cs;
              trigger_threshold := trigger_threshold self;
              current_signal := Some signal |}, Some signal)
        else (self1, None)
    end.

(** [calculate_target]: the 1R target. *)
Definition calculate_target (entry stop : Q) (direction : string) : Q :=
  let risk := Qabs (fsub entry stop) in
  if String.eqb direction "Buy" then fadd entry risk else fsub entry risk.

(** Feeding a sequence of completed candles to a fresh detector. *)
Definition feed (cs : list Candle) : t :=
  fold_left (fun s c => fst (on_candle_close s c)) cs init.

End Momentum30pt.

(** ** core/risk_manager.py *)

Module RiskManager.
Import Py.
Local Open Scope Q_scope.

Record RiskConfig := mk_config {
  max_daily_loss : Q;
  max_position_size : Z;
  max_trades_per_day : Z;
  position_size_pct : Q;
  account_balance : Q;
  r_per_trade : Q
}.

(** The dataclass defaults; [0.02] is the binary64 number nearest to
    [2 / 100]. *)
Definition default_config : RiskConfig :=
  {| max_daily_loss := -500;
     max_position_size := 2;
     max_trades_per_day := 10;
     position_size_pct := ltac:(let v := eval vm_compute in (literal 2 100) in exact v);
     account_balance := 10000;
     r_per_trade := 100 |}.

Record t := mk {
  config : RiskConfig;
  daily_pnl : Q;
  trades_today : Z;
  daily_start : datetime;
  kill_switch_triggered : bool
}.

(** [__init__]: [now] is the clock reading stored in [daily_start]. *)
Definition init (cfg : option RiskConfig) (now : datetime) : t :=
  {| config := match cfg with Some c => c | None => default_config end;
     daily_pnl := 0;
     trades_today := 0;
     daily_start := now;
     kill_switch_triggered := false |}.

Definition set_kill_switch (self : t) (b : bool) : t :=
  {| config := config self;
     daily_pnl := daily_pnl self;
     trades_today := trades_today self;
     daily_start := daily_start self;
     kill_switch_triggered := b |}.

Section CheckEntry.
(** How Python prints a [float] inside an f-string is not modelled: the
    rendering is a parameter of the messages that embed one. *)
Variable fmt_float : Q -> string.

(** [check_entry]: the new object, then [(allowed, reason)]. *)
Definition check_entry (self : t) (direction : string) (size : Z)
    (entry_price stop_price : Q) : t * (bool * string) :=
  if kill_switch_triggered self then
    (self, (false, "KILL_SWITCH active"%string))
  else if Qle_bool (daily_pnl self) (max_daily_loss (config self)) then
    (set_kill_switch self true,
     (false, ("DAILY_LOSS hit (" ++ fmt_float (daily_pnl self) ++ ")")%string))
  else if (max_trades_per_day (config self) <=? trades_today self)%Z then
    (self, (false, "MAX_TRADES reached"%string))
  else if (max_position_size (config self) <? size)%Z then
    (self, (false, ("MAX_SIZE exceeded (" ++ str_Z size ++ " > "
                      ++ str_Z (max_position_size (config self)) ++ ")")%string))
  else
    let risk := Qabs (fsub entry_price stop_price) in
    let reward_per_contract := fmul risk (1 # 2) in
    if Qlt_bool reward_per_contract (r_per_trade (config self)) then
      (self, (false, ("Poor R:R (" ++ fmt_float risk ++ " pts = $"
                        ++ fmt_float reward_per_contract ++ ")")%string))
    else (self, (true, "OK"%string)).
End CheckEntry.

(** [update_pnl] *)
Definition update_pnl (self : t) (realized_pnl : Q) : t :=
  let pnl := fadd (daily_pnl self) realized_pnl in
  {| config := config self;
     daily_pnl := pnl;
     trades_today := trades_today self;
     daily_start := daily_start self;
     kill_switch_triggered :=
       if Qle_bool pnl (max_daily_loss (config self)) then true
       else kill_switch_triggered self |}.

(** [record_trade] *)
Definition record_trade (self : t) : t :=
  {| config := config self;
     daily_pnl := daily_pnl self;
     trades_today := (trades_today self + 1)%Z;
     daily_start := daily_start self;
     kill_switch_triggered := kill_switch_triggered self |}.

(** [reset_day]: [now1] is the clock reading of the test, [now2] the one
    stored as the new day boundary. *)
Definition reset_day (self : t) (now1 now2 : datetime) : t :=
  if (dt_date (daily_start self) <? dt_date now1)%Z then
    {| config := config self;
       daily_pnl := 0;
       trades_today := 0;
       daily_start := now2;
       kill_switch_triggered := false |}
  else self.

(** [calculate_stop].  [direction == "Buy" and atr * 2 or -atr * 2] parses
    as [((direction == "Buy") and (atr * 2)) or (-atr * 2)]: the [and]
    yields [atr * 2] for a Buy and [False] otherwise, and the [or] keeps
    its left operand when that is truthy. *)
Definition calculate_stop (entry : Q) (direction : string) (atr : option Q) : Q :=
  let default_stop := 30 in
  match atr with
  | Some a =>
      if truthy_Q a then
        let conj := if String.eqb direction "Buy" then Some (fmul a 2) else None in
        let disj := match conj with
                    | Some x => if truthy_Q x then x else fmul (- a) 2
                    | None => fmul (- a) 2
                    end in
        fsub entry disj
      else if String.eqb direction "Buy" then fsub entry default_stop
      else fadd entry default_stop
  | None =>
      if String.eqb direction "Buy" then fsub entry default_stop
      else fadd entry default_stop
  end.

(** [calculate_target]: twice the risk, which defaults to [|entry - stop|]. *)
Definition calculate_target (entry : Q) (direction : string) (stop : Q)
    (risk : option Q) : Q :=
  let risk := match risk with Some r => r | None => Qabs (fsub entry stop) end in
  let target_risk := fmul risk 2 in
  if String.eqb direction "Buy" then fadd entry target_risk
  else fsub entry target_risk.

(** The operations a caller can apply to a risk manager; [OpResetDay]
    carries the two clock readings of the call. *)
Inductive op :=
| OpCheckEntry (direction : string) (size : Z) (entry_price stop_price : Q)
| OpUpdatePnl (realized_pnl : Q)
| OpRecordTrade
| OpResetDay (now1 now2 : datetime).

Definition step (fmt_float : Q -> string) (self : t) (o : op) : t :=
  match o with
  | OpCheckEntry d n e s => fst (check_entry fmt_float self d n e s)
  | OpUpdatePnl p => update_pnl self p
  | OpRecordTrade => record_trade self
  | OpResetDay n1 n2 => reset_day self n1 n2
  end.

Definition run (fmt_float : Q -> string) (self : t) (ops : list op) : t :=
  fold_left (step fmt_float) ops self.

(** Whether an operation is a [reset_day] that sees a later calendar day
    than the stored boundary. *)
Definition is_day_advance (self : t) (o : op) : bool :=
  match o with
  | OpResetDay n1 _ => (dt_date (daily_start self) <? dt_date n1)%Z
  | _ => false
  end.

(** Whether a sequence of operations runs without a day advance. *)
Fixpoint same_day (fmt_float : Q -> string) (self : t) (ops : list op) : bool :=
  match ops with
  | [] => true
  | o :: rest =>
      negb (is_day_advance self o) && same_day fmt_float (step fmt_float self o) rest
  end.

(** The number of calls, in a sequence of [reset_day] calls, that clear
    the counters. *)
Fixpoint resets (self : t) (calls : list (datetime * datetime)) : nat :=
  match calls with
  | [] => 0
  | (now1, now2) :: rest =>
      ((if (dt_date (daily_start self) <? dt_date now1)%Z then 1 else 0)
       + resets (reset_day self now1 now2) rest)%nat
  end.

(** The number of day changes along a sequence of calendar days that
    starts from [d0]. *)
Fixpoint day_transitions (d0 : Z) (days : list Z) : nat :=
  match days with
  | [] => 0
  | d :: rest => ((if (d0 <? d)%Z then 1 else 0) + day_transitions d rest)%nat
  end.

(** A sequence of calendar days that never goes back, from [d0] on. *)
Fixpoint forward (d0 : Z) (days : list Z) : Prop :=
  match days with
  | [] => True
  | d :: rest => (d0 <= d)%Z /\ forward d rest
  end.

End RiskManager.

(** ** Exceptions, JSON values and HTTP outcomes *)

Module Net.

Inductive exn :=
| AttributeError (attribute : string)
| RuntimeError (message : string)
| TypeError
| ValueError.

(** The outcome of a Python expression that may raise. *)
Inductive result (A : Type) :=
| Ok (a : A)
| Raise (e : exn).
Arguments Ok {A} a.
Arguments Raise {A} e.

Definition bind {A B : Type} (r : result A) (k : A -> result B) : result B :=
  match r with Ok a => k a | Raise e => Raise e end.

(** A scalar JSON value. *)
Inductive JVal :=
| JNull
| JBool (b : bool)
| JInt (z : Z)
| JNum (q : Q)
| JStr (s : string).

(** What the transport does with one request: it raises, or it delivers
    a status line and a body; [None] for the body stands for an
    [await resp.json()] that raises. *)
Inductive http (D : Type) :=
| HttpRaises
| HttpResponse (status : Z) (data : option D).
Arguments HttpRaises {D}.
Arguments HttpResponse {D} status data.

End Net.

(** ** utils/auth_manager.py *)

Module TradovateAuth.
Import Py Net.

(** [account_id] holds the broker's integer or, failing that, the text of
    the environment variable. *)
Inductive AccountId :=
| AccInt (z : Z)
| AccStr (s : string).

Record t := mk {
  username : string;
  password : string;
  api_secret : string;
  account_id_from_env : option string;
  access_token : option string;
  md_access_token : option string;
  user_id : option Z;
  account_id : option AccountId;
  token_created : option datetime;
  renew_threshold : Z;
  base_url : string
}.

(** [__init__] after a successful [_load_credentials]; [mode] is the
    value of [TRADOVATE_MODE]. *)
Definition init (user pass secret : string) (acct_env : option string)
    (mode : string) : t :=
  {| username := user; password := pass; api_secret := secret;
     account_id_from_env := acct_env;
     access_token := None; md_access_token := None;
     user_id := None; account_id := None; token_created := None;
     renew_threshold := timedelta_minutes 75;
     base_url := ("https://" ++ mode ++ ".tradovateapi.com/v1")%string |}.

(** The fields read from the two token responses. *)
Record AuthData := mk_auth_data {
  d_accessToken : option string;
  d_mdAccessToken : option string;
  d_userId : option Z;
  d_accountId : option Z
}.
Record RenewData := mk_renew_data { r_accessToken : option string }.

(** The requests of this module, in the order they are issued. *)
Inductive request :=
| PostAccessTokenRequest
| PostRenewAccessToken (bearer : string).

(** [data.get("accountId") or self.account_id_from_env] *)
Definition account_id_or_env (self : t) (d : AuthData) : option AccountId :=
  if truthy_opt_Z (d_accountId d) then AccInt <$> d_accountId d
  else AccStr <$> account_id_from_env self.

(** [authenticate]: every exception is caught and reported as [False]. *)
Definition authenticate (self : t) (now : datetime) (out : http AuthData)
    : t * bool * list request :=
  match out with
  | HttpRaises => (self, false, [PostAccessTokenRequest])
  | HttpResponse status data =>
      if negb (status =? 200)%Z then (self, false, [PostAccessTokenRequest])
      else match data with
           | None => (self, false, [PostAccessTokenRequest])
           | Some d =>
               ({| username := username self; password := password self;
                   api_secret := api_secret self;
                   account_id_from_env := account_id_from_env self;
                   access_token := d_accessToken d;
                   md_access_token := d_mdAccessToken d;
                   user_id := d_userId d;
                   account_id := account_id_or_env self d;
                   token_created := Some now;
                   renew_threshold := renew_threshold self;
                   base_url := base_url self |},
                true, [PostAccessTokenRequest])
           end
  end.

(** What the clock and the broker answer during one [renew_token] call:
    the renewal request first, then the authentication request that is
    made only on the fallback paths. *)
Record renew_env := mk_renew_env {
  renew_now : datetime;
  renew_out : http RenewData;
  auth_now : datetime;
  auth_out : http AuthData
}.

Definition set_renewed (self : t) (tok : option string) (now : datetime) : t :=
  {| username := username self; password := password self;
     api_secret := api_secret self;
     account_id_from_env := account_id_from_env self;
     access_token := tok;
     md_access_token := md_access_token self;
     user_id := user_id self;
     account_id := account_id self;
     token_created := Some now;
     renew_threshold := renew_threshold self;
     base_url := base_url self |}.

(** [renew_token] *)
Definition renew_token (self : t) (e : renew_env) : t * bool * list request :=
  match access_token self with
  | None | Some EmptyString => authenticate self (auth_now e) (auth_out e)
  | Some tok =>
      let fallback :=
        let '(self', ok, reqs) := authenticate self (auth_now e) (auth_out e) in
        (self', ok, PostRenewAccessToken tok :: reqs) in
      match renew_out e with
      | HttpRaises => fallback
      | HttpResponse status data =>
          if (status =? 200)%Z then
            match data with
            | Some d =>
                (set_renewed self (r_accessToken d) (renew_now e), true,
                 [PostRenewAccessToken tok])
            | None => fallback
            end
          else fallback
      end
  end.

(** One round of the [auto_renew] loop, after its [sleep(60)]: [now] is
    the clock reading of the age test. *)
Definition auto_renew_round (self : t) (now : datetime) (e : renew_env)
    : t * list request :=
  match token_created self with
  | None => (self, [])
  | Some created =>
      let elapsed := dt_sub now created in
      if (renew_threshold self <=? elapsed)%Z then
        let '(self', _, reqs) := renew_token self e in (self', reqs)
      else (self, [])
  end.

(** The sessions the program can hold: the constructed one, and what
    [authenticate] and [renew_token] make of a session. *)
Inductive reachable : t -> Prop :=
| reach_init user pass secret acct_env mode :
    reachable (init user pass secret acct_env mode)
| reach_authenticate s now out :
    reachable s -> reachable (fst (fst (authenticate s now out)))
| reach_renew_token s e :
    reachable s -> reachable (fst (fst (renew_token s e))).

(** [get_auth_headers] *)
Definition get_auth_headers (self : t) : result (list (string * string)) :=
  match access_token self with
  | None | Some EmptyString => Raise (RuntimeError "Not authenticated")
  | Some tok =>
      Ok [("Authorization", ("Bearer " ++ tok)%string);
          ("Content-Type", "application/json")]
  end.

End TradovateAuth.

(** ** core/market_data.py *)

Module MarketData.
Import Py.

Record Position := mk_position {
  p_symbol : string;
  p_qty : Z;
  p_avg_entry : Q;
  p_unrealized_pnl : Q;
  p_timestamp : datetime
}.

(** Of the client, the tracked positions. *)
Record t := mk {
  connected : bool;
  positions : gmap string Position
}.

(** [get_position] *)
Definition get_position (self : t) (symbol : string) : option Position :=
  positions self !! symbol.

End MarketData.

(** ** core/order_manager.py *)

Module OrderManager.
Import Py Net.

Inductive OrderAction := BUY | SELL.
Inductive OrderType := MARKET | LIMIT | STOP | STOP_LIMIT.
Inductive TimeInForce := DAY | GTC | IOC | FOK.

(** The enum constructors called on a value: [ValueError] on any other
    text. *)
Definition OrderAction_of (s : string) : result OrderAction :=
  if String.eqb s "Buy" then Ok BUY
  else if String.eqb s "Sell" then Ok SELL
  else Raise ValueError.
Definition OrderType_of (s : string) : result OrderType :=
  if String.eqb s "Market" then Ok MARKET
  else if String.eqb s "Limit" then Ok LIMIT
  else if String.eqb s "Stop" then Ok STOP
  else if String.eqb s "StopLimit" then Ok STOP_LIMIT
  else Raise ValueError.
Definition TimeInForce_of (s : string) : result TimeInForce :=
  if String.eqb s "Day" then Ok DAY
  else if String.eqb s "GTC" then Ok GTC
  else if String.eqb s "IOC" then Ok IOC
  else if String.eqb s "FOK" then Ok FOK
  else Raise ValueError.

Record Order := mk_order {
  order_id : option Z;
  symbol : string;
  action : OrderAction;
  qty : Z;
  order_type : OrderType;
  price : option Q;
  stop_price : option Q;
  time_in_force : TimeInForce;
  status : string;
  filled_qty : Z;
  avg_price : Q;
  is_automated : bool
}.

Definition set_status (o : Order) (s : string) : Order :=
  {| order_id := order_id o; symbol := symbol o; action := action o;
     qty := qty o; order_type := order_type o; price := price o;
     stop_price := stop_price o; time_in_force := time_in_force o;
     status := s; filled_qty := filled_qty o; avg_price := avg_price o;
     is_automated := is_automated o |}.

(** [self.auth] is the session object shared with the coordinator: the
    methods below take its current state as an argument. *)
Record t := mk {
  pending_orders : gmap Z Order;
  executions : list Z
}.

Definition init : t := {| pending_orders := ∅; executions := [] |}.

(** An order record of the broker's order list.  Of its fields the code
    reads [orderId]; [ordStatus] is the broker's status of the order. *)
Record OrderRecord := mk_order_record {
  orderId : option Z;
  ordStatus : string
}.

Inductive request :=
| PostPlaceOrder (body : gmap string JVal)
| PostCancelOrder (order_id : option Z)
| GetOrderList.

Section WithInt.
(** [int(s)] for a [str]; [None] stands for its [ValueError]. *)
Variable int_of_str : string -> option Z.

(** [int(self.auth.account_id)] *)
Definition int_account_id (a : option TradovateAuth.AccountId) : result Z :=
  match a with
  | None => Raise TypeError
  | Some (TradovateAuth.AccInt z) => Ok z
  | Some (TradovateAuth.AccStr s) =>
      match int_of_str s with Some z => Ok z | None => Raise ValueError end
  end.

(** [order_type in [a, b]] *)
Definition in2 (x a b : string) : bool := String.eqb x a || String.eqb x b.

(** The request body of [place_order]: the eight fixed entries, then
    the two guarded ones. *)
Definition place_order_body (auth : TradovateAuth.t)
    (symbol action : string) (qty : Z) (order_type : string)
    (price stop_price : option Q) (time_in_force : string)
    : result (gmap string JVal) :=
  bind (int_account_id (TradovateAuth.account_id auth)) (fun acct =>
  let body : gmap string JVal :=
    <["timeInForce" := JStr time_in_force]>
    (<["isAutomated" := JBool true]>
    (<["orderType" := JStr order_type]>
    (<["orderQty" := JInt qty]>
    (<["symbol" := JStr symbol]>
    (<["action" := JStr action]>
    (<["accountId" := JInt acct]>
    (<["accountSpec" := JStr (TradovateAuth.username auth)]> ∅))))))) in
  let body1 :=
    match price with
    | Some p =>
        if truthy_Q p && in2 order_type "Limit" "StopLimit"
        then <["price" := JNum p]> body else body
    | None => body
    end in
  let body2 :=
    match stop_price with
    | Some p =>
        if truthy_Q p && in2 order_type "Stop" "StopLimit"
        then <["stopPrice" := JNum p]> body1 else body1
    | None => body1
    end in
  Ok body2).

(** [data.get("orderId")] of a placement response; the broker's order
    identifiers are integers. *)
Definition response_order_id (data : gmap string JVal) : option Z :=
  match data !! "orderId" with
  | Some (JInt z) => Some z
  | _ => None
  end.

(** [place_order]: the headers and the body are computed outside the
    [try]; from the request on every exception is caught and reported
    as [None]. *)
Definition place_order (self : t) (auth : TradovateAuth.t)
    (symbol action : string) (qty : Z) (order_type : string)
    (price stop_price : option Q) (time_in_force : string)
    (out : http (gmap string JVal))
    : result (t * option (gmap string JVal) * list request) :=
  bind (TradovateAuth.get_auth_headers auth) (fun _ =>
  bind (place_order_body auth symbol action qty order_type price stop_price
          time_in_force) (fun body =>
  let reqs := [PostPlaceOrder body] in
  match out with
  | HttpRaises => Ok (self, None, reqs)
  | HttpResponse st None => Ok (self, None, reqs)
  | HttpResponse st (Some data) =>
      if (st =? 200)%Z then
        let oid := response_order_id data in
        match OrderAction_of action, OrderType_of order_type,
              TimeInForce_of time_in_force with
        | Ok a, Ok ty, Ok tif =>
            let order := {| order_id := oid; symbol := symbol; action := a;
                            qty := qty; order_type := ty; price := price;
                            stop_price := stop_price; time_in_force := tif;
                            status := "Working"; filled_qty := 0;
                            avg_price := 0; is_automated := true |} in
            let self' :=
              match oid with
              | Some z =>
                  if truthy_Z z
                  then {| pending_orders := <[z := order]> (pending_orders self);
                          executions := executions self |}
                  else self
              | None => self
              end in
            Ok (self', Some data, reqs)
        | _, _, _ => Ok (self, None, reqs)
        end
      else Ok (self, None, reqs)
  end)).
End WithInt.

(** [cancel_order] *)
Definition cancel_order (self : t) (auth : TradovateAuth.t)
    (oid : option Z) (out : http unit) : result (t * bool * list request) :=
  bind (TradovateAuth.get_auth_headers auth) (fun _ =>
  let reqs := [PostCancelOrder oid] in
  match out with
  | HttpRaises => Ok (self, false, reqs)
  | HttpResponse st _ =>
      if (st =? 200)%Z then
        let self' :=
          match oid with
          | Some z =>
              match pending_orders self !! z with
              | Some o =>
                  {| pending_orders :=
                       <[z := set_status o "Cancelled"]> (pending_orders self);
                     executions := executions self |}
              | None => self
              end
          | None => self
          end in
        Ok (self', true, reqs)
      else Ok (self, false, reqs)
  end).

(** [get_orders]: the [status] argument is not used by the body; the
    list is whatever [GET /order/list] returns. *)
Definition get_orders (auth : TradovateAuth.t) (status : string)
    (out : http (list OrderRecord)) : result (list OrderRecord * list request) :=
  bind (TradovateAuth.get_auth_headers auth) (fun _ =>
  match out with
  | HttpResponse st (Some data) =>
      if (st =? 200)%Z then Ok (data, [GetOrderList]) else Ok ([], [GetOrderList])
  | HttpResponse st None =>
      Ok ([], [GetOrderList])
  | HttpRaises => Ok ([], [GetOrderList])
  end).

(** The [for] loop of [flatten_all]: [outs i] is the outcome of the
    [i]-th cancellation request. *)
Fixpoint cancel_each (self : t) (auth : TradovateAuth.t)
    (orders : list OrderRecord) (outs : nat -> http unit)
    : result (t * list request) :=
  match orders with
  | [] => Ok (self, [])
  | o :: rest =>
      bind (cancel_order self auth (orderId o) (outs 0%nat)) (fun r =>
      let '(self1, _, reqs1) := r in
      bind (cancel_each self1 auth rest (fun i => outs (S i))) (fun r' =>
      let '(self2, reqs2) := r' in
      Ok (self2, reqs1 ++ reqs2)))
  end.

(** [flatten_all] *)
Definition flatten_all (self : t) (auth : TradovateAuth.t)
    (list_out : http (list OrderRecord)) (outs : nat -> http unit)
    : result (t * bool * list request) :=
  bind (get_orders auth "Working" list_out) (fun r =>
  let '(orders, reqs0) := r in
  bind (cancel_each self auth orders outs) (fun r' =>
  let '(self', reqs) := r' in
  Ok (self', true, reqs0 ++ reqs))).

(** The cancellation requests among the requests of a call. *)
Definition cancelled_ids (reqs : list request) : list (option Z) :=
  omap (fun r => match r with PostCancelOrder oid => Some oid | _ => None end) reqs.

End OrderManager.

(** ** main.py *)

Module MNQTradingBot.
Import Py Net.

(** The attributes [__init__] assigns.  The components are [None] until
    [start] constructs them. *)
Record t := mk {
  symbol : string;
  paper_mode : bool;
  auth : option TradovateAuth.t;
  orders : option OrderManager.t;
  market_data : option MarketData.t;
  risk : option RiskManager.t;
  strategy : option Momentum30pt.t;
  running : bool;
  current_candle : option Momentum30pt.Candle;
  last_signal : option Momentum30pt.Signal;
  trades_today : Z;
  daily_pnl : Q
}.

(** [__init__] *)
Definition init (paper : bool) (sym : string) : t :=
  {| symbol := sym; paper_mode := paper;
     auth := None; orders := None; market_data := None; risk := None;
     strategy := None; running := false; current_candle := None;
     last_signal := None; trades_today := 0; daily_pnl := 0%Q |}.

(** The components [start] constructs after a successful authentication
    ([a] is the authenticated session, [now] the clock reading of the
    risk manager's constructor, [md] the market-data client). *)
Definition started (self : t) (a : TradovateAuth.t) (md : MarketData.t)
    (now : datetime) : t :=
  {| symbol := symbol self; paper_mode := paper_mode self;
     auth := Some a;
     orders := Some OrderManager.init;
     market_data := Some md;
     risk := Some (RiskManager.init
               (Some {| RiskManager.max_daily_loss := -500;
                        RiskManager.max_position_size := 2;
                        RiskManager.max_trades_per_day := 10;
                        RiskManager.position_size_pct := literal 2 100;
                        RiskManager.account_balance := 5000;
                        RiskManager.r_per_trade := 100 |}) now);
     strategy := Some Momentum30pt.init;
     running := true;
     current_candle := current_candle self;
     last_signal := last_signal self;
     trades_today := trades_today self;
     daily_pnl := daily_pnl self |}.

(** The record appended to [paper_trades.log]. *)
Record PaperTrade := mk_paper_trade {
  pt_time : datetime;
  pt_symbol : string;
  pt_direction : string;
  pt_entry : Q;
  pt_stop : Q;
  pt_target : Q;
  pt_risk : Q;
  pt_mode : string
}.

(** What a call makes observable outside the object. *)
Inductive event :=
| EvGuardrail (qty : Z)
| EvRiskCheck (direction : string) (size : Z) (entry stop : Q)
| EvRiskBlock (reason : string)
| EvExecuting (direction : string) (entry stop target : Q)
| EvPaperLog (trade : PaperTrade)
| EvRequest (r : OrderManager.request).

(** A method body: it transforms the object, emits events and returns or
    raises; the object and the events emitted so far survive a raise. *)
Definition M (A : Type) : Type := t -> t * list event * result A.

Definition ret {A : Type} (a : A) : M A := fun s => (s, [], Ok a).
Definition raise {A : Type} (e : exn) : M A := fun s => (s, [], Raise e).
Definition emit (ev : event) : M unit := fun s => (s, [ev], Ok tt).
Definition get : M t := fun s => (s, [], Ok s).
Definition put (s' : t) : M unit := fun _ => (s', [], Ok tt).
Definition lift {A : Type} (r : result A) : M A := fun s => (s, [], r).
Definition bindM {A B : Type} (m : M A) (k : A -> M B) : M B :=
  fun s =>
    let '(s1, tr1, r) := m s in
    match r with
    | Ok a => let '(s2, tr2, r2) := k a s1 in (s2, tr1 ++ tr2, r2)
    | Raise e => (s1, tr1, Raise e)
    end.

Notation "x <- m ;; k" := (bindM m (fun x => k))
  (at level 63, m at next level, right associativity).
Notation "m ;;; k" := (bindM m (fun _ => k))
  (at level 63, right associativity).

(** Calling a method on a component that is still [None]. *)
Definition component {A : Type} (c : option A) (method : string) : M A :=
  match c with
  | Some a => ret a
  | None => raise (AttributeError method)
  end.

Definition set_risk (s : t) (r : RiskManager.t) : t :=
  {| symbol := symbol s; paper_mode := paper_mode s; auth := auth s;
     orders := orders s; market_data := market_data s; risk := Some r;
     strategy := strategy s; running := running s;
     current_candle := current_candle s; last_signal := last_signal s;
     trades_today := trades_today s; daily_pnl := daily_pnl s |}.
Definition set_orders (s : t) (o : OrderManager.t) : t :=
  {| symbol := symbol s; paper_mode := paper_mode s; auth := auth s;
     orders := Some o; market_data := market_data s; risk := risk s;
     strategy := strategy s; running := running s;
     current_candle := current_candle s; last_signal := last_signal s;
     trades_today := trades_today s; daily_pnl := daily_pnl s |}.
Definition set_trades_today (s : t) (n : Z) : t :=
  {| symbol := symbol s; paper_mode := paper_mode s; auth := auth s;
     orders := orders s; market_data := market_data s; risk := risk s;
     strategy := strategy s; running := running s;
     current_candle := current_candle s; last_signal := last_signal s;
     trades_today := n; daily_pnl := daily_pnl s |}.

(** [self.risk.record_trade(); self.trades_today += 1] *)
Definition count_trade : M unit :=
  s <- get ;;
  r <- component (risk s) "record_trade" ;;
  put (set_risk s (RiskManager.record_trade r)) ;;;
  s <- get ;;
  put (set_trades_today s (trades_today s + 1)%Z).

(** [_paper_trade]: [now] is the clock reading of the record. *)
Definition _paper_trade (signal : Momentum30pt.Signal) (target : Q)
    (now : datetime) : M unit :=
  s <- get ;;
  emit (EvPaperLog
          {| pt_time := now; pt_symbol := symbol s;
             pt_direction := Momentum30pt.direction signal;
             pt_entry := Momentum30pt.entry_price signal;
             pt_stop := Momentum30pt.stop_price signal;
             pt_target := target;
             pt_risk := Momentum30pt.risk_points signal;
             pt_mode := "PAPER" |}) ;;;
  count_trade.

(** What the clock and the broker answer during one [_execute_signal]. *)
Record exec_env := mk_exec_env {
  paper_now : datetime;
  entry_out : http (gmap string JVal);
  stop_out : http (gmap string JVal);
  target_out : http (gmap string JVal)
}.

(** The attribute [position] of the bot.  [__init__] does not assign it,
    no method of the class assigns it, and the class defines no property
    or class attribute of that name: reading [self.position] raises
    [AttributeError]. *)
Definition attr_position (self : t) : result (option MarketData.Position) :=
  Raise (AttributeError "position").

Section WithRuntime.
Variable fmt_float : Q -> string.
Variable int_of_str : string -> option Z.

(** One [self.orders.place_order(...)] of [_live_trade]. *)
Definition place (action : string) (order_type : string)
    (price stop_price : option Q) (out : http (gmap string JVal))
    : M (option (gmap string JVal)) :=
  s <- get ;;
  om <- component (orders s) "place_order" ;;
  a <- component (auth s) "get_auth_headers" ;;
  r <- lift (OrderManager.place_order int_of_str om a (symbol s) action 1
               order_type price stop_price "Day" out) ;;
  let '(om', res, reqs) := r in
  put (set_orders s om') ;;;
  (fun s => (s, map EvRequest reqs, Ok res)).

(** [_live_trade]: a dictionary is truthy when it is not empty. *)
Definition _live_trade (signal : Momentum30pt.Signal) (target : Q)
    (e : exec_env) : M unit :=
  let direction := Momentum30pt.direction signal in
  result <- place direction "Market" None None (entry_out e) ;;
  match result with
  | Some data =>
      if decide (data = ∅) then ret tt
      else
        let opposite := if String.eqb direction "Buy" then "Sell"%string
                        else "Buy"%string in
        place opposite "Stop" None
          (Some (Momentum30pt.stop_price signal)) (stop_out e) ;;;
        place opposite "Limit" (Some target) None (target_out e) ;;;
        count_trade
  | None => ret tt
  end.

(** [_execute_signal] from the risk check on. *)
Definition checked_execution (signal : Momentum30pt.Signal) (target : Q)
    (e : exec_env) : M unit :=
  let direction := Momentum30pt.direction signal in
  let entry := Momentum30pt.entry_price signal in
  let stop := Momentum30pt.stop_price signal in
  s <- get ;;
  r <- component (risk s) "check_entry" ;;
  emit (EvRiskCheck direction 1 entry stop) ;;;
  let '(r', (allowed, reason)) :=
    RiskManager.check_entry fmt_float r direction 1 entry stop in
  put (set_risk s r') ;;;
  if negb allowed then emit (EvRiskBlock reason)
  else
    emit (EvExecuting direction entry stop target) ;;;
    if paper_mode s then _paper_trade signal target (paper_now e)
    else _live_trade signal target e.

(** The body of [_execute_signal] with the read of [self.position]
    left open: [read_position] is what that read yields.  An object is
    truthy, [None] is not. *)
Definition execute_signal_with
    (read_position : t -> result (option MarketData.Position))
    (signal : Momentum30pt.Signal) (e : exec_env) : M unit :=
  let direction := Momentum30pt.direction signal in
  let entry := Momentum30pt.entry_price signal in
  let stop := Momentum30pt.stop_price signal in
  s <- get ;;
  _ <- component (strategy s) "calculate_target" ;;
  let target := Momentum30pt.calculate_target entry stop direction in
  pos <- lift (read_position s) ;;
  match pos with
  | Some p =>
      if negb (MarketData.p_qty p =? 0)%Z
      then emit (EvGuardrail (MarketData.p_qty p))
      else checked_execution signal target e
  | None => checked_execution signal target e
  end.

(** [_execute_signal] *)
Definition _execute_signal (signal : Momentum30pt.Signal) (e : exec_env)
    : M unit :=
  execute_signal_with attr_position signal e.

(** The guard as the comment above it describes it: the tracked
    position of the instrument, read through
    [MarketDataClient.get_position]. *)
Definition tracked_position (self : t) : result (option MarketData.Position) :=
  match market_data self with
  | Some md => Ok (MarketData.get_position md (symbol self))
  | None => Raise (AttributeError "get_position")
  end.
End WithRuntime.

End MNQTradingBot.

From Stdlib Require Import Qfield Qpower.

(** ** core/risk_manager.py: position sizing *)

Module RiskSizing.
Import Py RiskManager.
Local Open Scope Q_scope.

(** [int(x)] for a [float]: truncation towards zero. *)
Definition int_trunc (x : Q) : Z := Z.quot (Qnum x) (Zpos (Qden x)).

(** [RiskConfig.position_size]; [None] stands for the
    [ZeroDivisionError] of a division by a zero [r_per_trade]. *)
Definition position_size (cfg : RiskConfig) : option Z :=
  if Qeq_bool (r_per_trade cfg) 0 then None
  else
    let size := int_trunc (fdiv (fmul (account_balance cfg) (position_size_pct cfg))
                                (r_per_trade cfg)) in
    Some (Z.min size (max_position_size cfg)).

(** [get_position_size] *)
Definition get_position_size (self : t) : option Z :=
  position_size (config self).

(** A sequence of [update_pnl] calls. *)
Definition update_all (self : t) (pnls : list Q) : t :=
  fold_left update_pnl pnls self.

(** The sum of a list of amounts, added to [start] from the left with the
    [float] addition, as the calls do. *)
Definition running_total (start : Q) (pnls : list Q) : Q :=
  fold_left fadd pnls start.

End RiskSizing.

(** ** strategies/momentum_30pt.py: candle properties *)

Module CandleView.
Import Py Momentum30pt.
Local Open Scope Q_scope.

(** [Candle.is_bullish] *)
Definition is_bullish (c : Candle) : bool := Qlt_bool (c_open c) (c_close c).

(** [Candle.is_bearish] *)
Definition is_bearish (c : Candle) : bool := Qlt_bool (c_close c) (c_open c).

(** The outputs of a detector along a sequence of candles, oldest first. *)
Fixpoint outputs (self : t) (cs : list Candle) : list (option Signal) :=
  match cs with
  | [] => []
  | c :: rest =>
      snd (on_candle_close self c) :: outputs (fst (on_candle_close self c)) rest
  end.

(** The most recent signal of a list of outputs, [previous] when there is
    none. *)
Fixpoint latest_signal (previous : option Signal) (outs : list (option Signal))
    : option Signal :=
  match outs with
  | [] => previous
  | Some s :: rest => latest_signal (Some s) rest
  | None :: rest => latest_signal previous rest
  end.

End CandleView.

(** ** utils/auth_manager.py: queries *)

Module TradovateAuthQueries.
Import TradovateAuth.

(** [is_authenticated] *)
Definition is_authenticated (self : t) : bool :=
  match access_token self with Some _ => true | None => false end.

End TradovateAuthQueries.

(** ** core/order_manager.py: order modification *)

Module OrderModify.
Import Py Net OrderManager.

Inductive modify_request :=
| PostModifyOrder (body : gmap string JVal).

(** The request body of [modify_order]. *)
Definition modify_order_body (order_id : Z) (new_price : option Q)
    (new_qty : option Z) : gmap string JVal :=
  let body : gmap string JVal := <["orderId" := JInt order_id]> ∅ in
  let body1 :=
    match new_price with
    | Some p => if truthy_Q p then <["price" := JNum p]> body else body
    | None => body
    end in
  match new_qty with
  | Some n => if truthy_Z n then <["orderQty" := JInt n]> body1 else body1
  | None => body1
  end.

(** [modify_order]: the order manager itself is not touched. *)
Definition modify_order (self : t) (auth : TradovateAuth.t) (order_id : Z)
    (new_price : option Q) (new_qty : option Z) (out : http unit)
    : result (t * bool * list modify_request) :=
  bind (TradovateAuth.get_auth_headers auth) (fun _ =>
  let reqs := [PostModifyOrder (modify_order_body order_id new_price new_qty)] in
  match out with
  | HttpRaises => Ok (self, false, reqs)
  | HttpResponse st _ =>
      if (st =? 200)%Z then Ok (self, true, reqs) else Ok (self, false, reqs)
  end).

End OrderModify.

(** ** core/market_data.py: the client and its dispatch *)

Module MarketDataClient.
Import Py Net.

(** [symbol] is whatever [.get("contractId")] yields: [None] when the key
    is absent. *)
Record Quote := mk_quote {
  q_symbol : option string;
  q_bid : Q;
  q_ask : Q;
  q_last : Q;
  q_bid_size : Z;
  q_ask_size : Z;
  q_volume : Z;
  q_timestamp : datetime
}.

Record Position := mk_position {
  p_symbol : option string;
  p_qty : Z;
  p_avg_entry : Q;
  p_unrealized_pnl : Q;
  p_timestamp : datetime
}.

(** One element of the "quotes" array of a frame; an absent key is
    [None]. *)
Record QuoteData := mk_quote_data {
  qd_contractId : option string;
  qd_bidPrice : option Q;
  qd_askPrice : option Q;
  qd_price : option Q;
  qd_bidSize : option Z;
  qd_askSize : option Z;
  qd_volume : option Z
}.

(** One element of the "positions" array of a frame. *)
Record PositionData := mk_position_data {
  pd_accountId : option TradovateAuth.AccountId;
  pd_contractId : option string;
  pd_netPos : option Z;
  pd_netPrice : option Q;
  pd_unrealized : option Q
}.

(** The object under the key "d" of a frame, with its two arrays; a frame
    without "d" has neither. *)
Record Frame := mk_frame {
  f_quotes : option (list QuoteData);
  f_positions : option (list PositionData)
}.

(** [.get(key, 0)] *)
Definition get0_Q (x : option Q) : Q := match x with Some q => q | None => 0%Q end.
Definition get0_Z (x : option Z) : Z := match x with Some z => z | None => 0%Z end.

(** [==] between an account id of a frame and the session's: integers
    and texts compare by value, an integer never equals a text, and [None]
    equals only [None]. *)
Definition account_eqb (a b : option TradovateAuth.AccountId) : bool :=
  match a, b with
  | None, None => true
  | Some (TradovateAuth.AccInt x), Some (TradovateAuth.AccInt y) => (x =? y)%Z
  | Some (TradovateAuth.AccStr x), Some (TradovateAuth.AccStr y) => String.eqb x y
  | _, _ => false
  end.

Section Client.
(** What the registered handlers act on. *)
Variable W : Type.

(** A registered callable: whether it is a coroutine function ([async
    def]) and what its body does.  The bodies modelled here do not
    raise. *)
Record handler (A : Type) := mk_handler {
  h_async : bool;
  h_run : A -> W -> W
}.
Arguments h_async {A} h.
Arguments h_run {A} h.

Record t := mk {
  connected : bool;
  quote_handlers : list (handler Quote);
  position_handlers : list (handler Position);
  quotes : gmap (option string) Quote;
  positions : gmap (option string) Position
}.

(** [__init__] *)
Definition init : t :=
  {| connected := false; quote_handlers := []; position_handlers := [];
     quotes := ∅; positions := ∅ |}.

(** [on_quote] *)
Definition on_quote (self : t) (h : handler Quote) : t :=
  {| connected := connected self;
     quote_handlers := quote_handlers self ++ [h];
     position_handlers := position_handlers self;
     quotes := quotes self; positions := positions self |}.

(** [on_position] *)
Definition on_position (self : t) (h : handler Position) : t :=
  {| connected := connected self;
     quote_handlers := quote_handlers self;
     position_handlers := position_handlers self ++ [h];
     quotes := quotes self; positions := positions self |}.

(** [get_last_quote] *)
Definition get_last_quote (self : t) (symbol : string) : option Quote :=
  quotes self !! Some symbol.

(** [get_position] *)
Definition get_position (self : t) (symbol : string) : option Position :=
  positions self !! Some symbol.

(** [for handler in handlers: await handler(x)].  The call runs the body
    of a plain function at once and yields its return value, [None];
    awaiting that raises [TypeError].  A coroutine function is run by the
    [await]. *)
Fixpoint dispatch {A : Type} (hs : list (handler A)) (x : A) (w : W)
    : W * result unit :=
  match hs with
  | [] => (w, Ok tt)
  | h :: rest =>
      let w1 := h_run h x w in
      if h_async h then dispatch rest x w1 else (w1, Raise TypeError)
  end.

Definition set_quote (self : t) (q : Quote) : t :=
  {| connected := connected self;
     quote_handlers := quote_handlers self;
     position_handlers := position_handlers self;
     quotes := <[q_symbol q := q]> (quotes self);
     positions := positions self |}.

Definition set_position (self : t) (p : Position) : t :=
  {| connected := connected self;
     quote_handlers := quote_handlers self;
     position_handlers := position_handlers self;
     quotes := quotes self;
     positions := <[p_symbol p := p]> (positions self) |}.

Definition quote_of (d : QuoteData) (now : datetime) : Quote :=
  {| q_symbol := qd_contractId d;
     q_bid := get0_Q (qd_bidPrice d);
     q_ask := get0_Q (qd_askPrice d);
     q_last := get0_Q (qd_price d);
     q_bid_size := get0_Z (qd_bidSize d);
     q_ask_size := get0_Z (qd_askSize d);
     q_volume := get0_Z (qd_volume d);
     q_timestamp := now |}.

Definition position_of (d : PositionData) (now : datetime) : Position :=
  {| p_symbol := pd_contractId d;
     p_qty := get0_Z (pd_netPos d);
     p_avg_entry := get0_Q (pd_netPrice d);
     p_unrealized_pnl := get0_Q (pd_unrealized d);
     p_timestamp := now |}.

(** The loop over the "quotes" array; [stamps i] is the clock reading
    taken for its [i]-th element. *)
Fixpoint handle_quotes (self : t) (ds : list QuoteData)
    (stamps : nat -> datetime) (w : W) : t * W * result unit :=
  match ds with
  | [] => (self, w, Ok tt)
  | d :: rest =>
      let quote := quote_of d (stamps 0%nat) in
      let self1 := set_quote self quote in
      match dispatch (quote_handlers self1) quote w with
      | (w1, Ok _) => handle_quotes self1 rest (fun i => stamps (S i)) w1
      | (w1, Raise e) => (self1, w1, Raise e)
      end
  end.

(** The loop over the "positions" array, which keeps the entries of the
    session's account. *)
Fixpoint handle_positions (self : t) (account : option TradovateAuth.AccountId)
    (ds : list PositionData) (stamps : nat -> datetime) (w : W)
    : t * W * result unit :=
  match ds with
  | [] => (self, w, Ok tt)
  | d :: rest =>
      if account_eqb (pd_accountId d) account then
        let position := position_of d (stamps 0%nat) in
        let self1 := set_position self position in
        match dispatch (position_handlers self1) position w with
        | (w1, Ok _) =>
            handle_positions self1 account rest (fun i => stamps (S i)) w1
        | (w1, Raise e) => (self1, w1, Raise e)
        end
      else handle_positions self account rest (fun i => stamps (S i)) w
  end.

(** [_handle_message] *)
Definition _handle_message (self : t) (auth : TradovateAuth.t) (f : Frame)
    (qstamps pstamps : nat -> datetime) (w : W) : t * W * result unit :=
  let '(self1, w1, r1) :=
    match f_quotes f with
    | Some ds => handle_quotes self ds qstamps w
    | None => (self, w, Ok tt)
    end in
  match r1 with
  | Raise e => (self1, w1, Raise e)
  | Ok _ =>
      match f_positions f with
      | Some ds =>
          handle_positions self1 (TradovateAuth.account_id auth) ds pstamps w1
      | None => (self1, w1, Ok tt)
      end
  end.

(** What [await self.ws.recv()] followed by [json.loads] delivers: a
    frame, a text that does not parse, or the end of the connection. *)
Inductive received :=
| RecvFrame (f : Frame) (qstamps pstamps : nat -> datetime)
| RecvMalformed
| RecvClosed.

Definition set_connected (self : t) (b : bool) : t :=
  {| connected := b;
     quote_handlers := quote_handlers self;
     position_handlers := position_handlers self;
     quotes := quotes self; positions := positions self |}.

(** [_listener] with a socket in place, along the arrivals it sees: any
    exception of the handling is printed and the loop goes on; the end of
    the connection clears [connected] and leaves the loop. *)
Fixpoint _listener (self : t) (auth : TradovateAuth.t)
    (arrivals : list received) (w : W) : t * W :=
  if connected self then
    match arrivals with
    | [] => (self, w)
    | RecvFrame f qs ps :: rest =>
        let '(self1, w1, _) := _handle_message self auth f qs ps w in
        _listener self1 auth rest w1
    | RecvMalformed :: rest => _listener self auth rest w
    | RecvClosed :: _ => (set_connected self false, w)
    end
  else (self, w).

(** [disconnect], with a socket in place. *)
Definition disconnect (self : t) : t := set_connected self false.

End Client.

Arguments h_async {W A} h.
Arguments h_run {W A} h.
Arguments mk_handler {W A} h_async h_run.

End MarketDataClient.

(** ** main.py: candle building and shutdown *)

Module MNQTradingBotLoop.
Import Py Net MNQTradingBot.

Definition set_current_candle (s : t) (c : option Momentum30pt.Candle) : t :=
  {| symbol := symbol s; paper_mode := paper_mode s; auth := auth s;
     orders := orders s; market_data := market_data s; risk := risk s;
     strategy := strategy s; running := running s;
     current_candle := c; last_signal := last_signal s;
     trades_today := trades_today s; daily_pnl := daily_pnl s |}.
Definition set_strategy (s : t) (st : Momentum30pt.t) : t :=
  {| symbol := symbol s; paper_mode := paper_mode s; auth := auth s;
     orders := orders s; market_data := market_data s; risk := risk s;
     strategy := Some st; running := running s;
     current_candle := current_candle s; last_signal := last_signal s;
     trades_today := trades_today s; daily_pnl := daily_pnl s |}.
Definition set_last_signal (s : t) (sig : Momentum30pt.Signal) : t :=
  {| symbol := symbol s; paper_mode := paper_mode s; auth := auth s;
     orders := orders s; market_data := market_data s; risk := risk s;
     strategy := strategy s; running := running s;
     current_candle := current_candle s; last_signal := Some sig;
     trades_today := trades_today s; daily_pnl := daily_pnl s |}.
Definition set_running (s : t) (b : bool) : t :=
  {| symbol := symbol s; paper_mode := paper_mode s; auth := auth s;
     orders := orders s; market_data := market_data s; risk := risk s;
     strategy := strategy s; running := b;
     current_candle := current_candle s; last_signal := last_signal s;
     trades_today := trades_today s; daily_pnl := daily_pnl s |}.
Definition set_market_data (s : t) (md : MarketData.t) : t :=
  {| symbol := symbol s; paper_mode := paper_mode s; auth := auth s;
     orders := orders s; market_data := Some md; risk := risk s;
     strategy := strategy s; running := running s;
     current_candle := current_candle s; last_signal := last_signal s;
     trades_today := trades_today s; daily_pnl := daily_pnl s |}.

(** [max(a, b)] and [min(a, b)]: the first argument unless the second is
    strictly beyond it. *)
Definition py_max (a b : Q) : Q := if Qlt_bool a b then b else a.
Definition py_min (a b : Q) : Q := if Qlt_bool b a then b else a.

(** The candle of [_on_quote]: opened by the first quote, updated by the
    later ones; [now] is the clock reading of an opening. *)
Definition candle_step (c : option Momentum30pt.Candle)
    (quote : MarketDataClient.Quote) (now : datetime) : Momentum30pt.Candle :=
  let last := MarketDataClient.q_last quote in
  match c with
  | None =>
      {| Momentum30pt.c_open := last; Momentum30pt.c_high := last;
         Momentum30pt.c_low := last; Momentum30pt.c_close := last;
         Momentum30pt.c_volume := MarketDataClient.q_volume quote;
         Momentum30pt.c_timestamp := now |}
  | Some c =>
      {| Momentum30pt.c_open := Momentum30pt.c_open c;
         Momentum30pt.c_high := py_max (Momentum30pt.c_high c) last;
         Momentum30pt.c_low := py_min (Momentum30pt.c_low c) last;
         Momentum30pt.c_close := last;
         Momentum30pt.c_volume := MarketDataClient.q_volume quote;
         Momentum30pt.c_timestamp := Momentum30pt.c_timestamp c |}
  end.

(** [_on_quote] *)
Definition _on_quote (self : t) (quote : MarketDataClient.Quote)
    (now : datetime) : t :=
  set_current_candle self (Some (candle_step (current_candle self) quote now)).

(** The quotes of one interval, each with the clock reading of its
    handling, applied in order. *)
Definition on_quotes (self : t) (qs : list (MarketDataClient.Quote * datetime)) : t :=
  fold_left (fun s q => _on_quote s (fst q) (snd q)) qs self.

(** The handler [start] registers: [self._on_quote], a plain function;
    [clock q] is the clock reading of the call that handles [q]. *)
Definition quote_handler (clock : MarketDataClient.Quote -> datetime)
    : MarketDataClient.handler t MarketDataClient.Quote :=
  MarketDataClient.mk_handler false (fun q s => _on_quote s q (clock q)).

(** What a candle under construction records of the quotes [seen] so
    far (the first of them is [q0]). *)
Definition summarises (c : Momentum30pt.Candle) (q0 : MarketDataClient.Quote)
    (now0 : datetime) (seen : list MarketDataClient.Quote) : Prop :=
  let prices := map MarketDataClient.q_last (q0 :: seen) in
  Momentum30pt.c_open c = MarketDataClient.q_last q0 /\
  Momentum30pt.c_timestamp c = now0 /\
  Momentum30pt.c_close c = MarketDataClient.q_last (List.last seen q0) /\
  Momentum30pt.c_volume c = MarketDataClient.q_volume (List.last seen q0) /\
  (forall x, In x prices ->
     Momentum30pt.c_low c <= x /\ x <= Momentum30pt.c_high c) /\
  In (Momentum30pt.c_high c) prices /\
  In (Momentum30pt.c_low c) prices.

(** A frame that carries at least one quote, as the listener receives
    it. *)
Record QuoteFrame := mk_quote_frame {
  qf_first : MarketDataClient.QuoteData;
  qf_rest : list MarketDataClient.QuoteData;
  qf_positions : option (list MarketDataClient.PositionData);
  qf_qstamps : nat -> datetime;
  qf_pstamps : nat -> datetime
}.

Definition arrival_of (f : QuoteFrame) : MarketDataClient.received :=
  MarketDataClient.RecvFrame
    {| MarketDataClient.f_quotes := Some (qf_first f :: qf_rest f);
       MarketDataClient.f_positions := qf_positions f |}
    (qf_qstamps f) (qf_pstamps f).

(** The first quote of such a frame, as [_handle_message] builds it. *)
Definition first_quote (f : QuoteFrame) : MarketDataClient.Quote :=
  MarketDataClient.quote_of (qf_first f) (qf_qstamps f 0%nat).

Section WithRuntime.
Variable fmt_float : Q -> string.
Variable int_of_str : string -> option Z.

(** One round of [_candle_builder], after its [sleep(300)]. *)
Definition candle_builder_round (e : exec_env) : M unit :=
  s <- get ;;
  match current_candle s with
  | None => ret tt
  | Some candle =>
      put (set_current_candle s None) ;;;
      strat <- component (strategy s) "on_candle_close" ;;
      let '(strat', signal) := Momentum30pt.on_candle_close strat candle in
      s1 <- get ;;
      put (set_strategy s1 strat') ;;;
      match signal with
      | Some sig =>
          s2 <- get ;;
          put (set_last_signal s2 sig) ;;;
          _execute_signal fmt_float int_of_str sig e
      | None => ret tt
      end
  end.
End WithRuntime.

(** [stop]: the broker's answers are those of [flatten_all].  A client
    that is connected has its socket, so [disconnect] clears the flag. *)
Definition stop (self : t) (list_out : http (list OrderManager.OrderRecord))
    (outs : nat -> http unit) : t * list OrderManager.request * result unit :=
  let s0 := set_running self false in
  let '(s1, reqs, r) :=
    match orders s0 with
    | Some om =>
        match auth s0 with
        | Some a =>
            match OrderManager.flatten_all om a list_out outs with
            | Ok (om', _, reqs) => (set_orders s0 om', reqs, Ok tt)
            | Raise e => (s0, [], Raise e)
            end
        | None => (s0, [], Raise (AttributeError "get_auth_headers"))
        end
    | None => (s0, [], Ok tt)
    end in
  match r with
  | Raise e => (s1, reqs, Raise e)
  | Ok _ =>
      match market_data s1 with
      | Some md =>
          (set_market_data s1
             {| MarketData.connected := false;
                MarketData.positions := MarketData.positions md |},
           reqs, Ok tt)
      | None => (s1, reqs, Ok tt)
      end
  end.

End MNQTradingBotLoop.

(** * Properties *)

(** ** Python helpers *)

Module PyFacts.
Import Py.

Lemma Qlt_bool_iff (x y : Q) : Qlt_bool x y = true <-> (x < y)%Q.
Proof. unfold Qlt_bool, Qlt. apply Z.ltb_lt. Qed.

Lemma Qlt_bool_false_iff (x y : Q) : Qlt_bool x y = false <-> ~ (x < y)%Q.
Proof.
  rewrite <- Qlt_bool_iff. destruct (Qlt_bool x y); split; congruence.
Qed.

Lemma Qle_bool_false_iff (x y : Q) : Qle_bool x y = false <-> ~ (x <= y)%Q.
Proof.
  rewrite <- Qle_bool_iff. destruct (Qle_bool x y); split; congruence.
Qed.

Lemma truthy_Q_iff (x : Q) : truthy_Q x = true <-> ~ (x == 0)%Q.
Proof.
  unfold truthy_Q. rewrite negb_true_iff, <- Qeq_bool_iff.
  destruct (Qeq_bool x 0); split; congruence.
Qed.

End PyFacts.

(** ** binary64 rounding

    What the proofs below use of [round64]: it is monotone, odd,
    idempotent, exact on integers of fewer than 54 bits and on halving
    away from the subnormal range. *)

Module Binary64Facts.
Import Py.
Local Open Scope Q_scope.

(** On these operands, among them the ones where the rounded result and
    the exact one part, [round64] of the exact result is what the
    kernel's binary64 operation returns. *)
Example round64_matches_hardware :
  Q_of_float (float_literal 2 10) = Some (literal 2 10) /\
  agrees PrimFloat.sub Qminus (float_literal 302 10) (float_literal 2 10) = true /\
  agrees PrimFloat.sub Qminus (float_literal 163841 10) (float_literal 163541 10) = true /\
  agrees PrimFloat.sub Qminus (float_literal 2002 10) (float_literal 2 10) = true /\
  agrees PrimFloat.sub Qminus (float_literal 1003 10) (float_literal 1 10) = true /\
  agrees PrimFloat.mul Qmult (float_literal 10000 1) (float_literal 3 100) = true /\
  agrees PrimFloat.mul Qmult (float_literal 25000 1) (float_literal 145 1000) = true /\
  agrees PrimFloat.div Qdiv (PrimFloat.mul (float_literal 10000 1) (float_literal 3 100))
    (float_literal 100 1) = true /\
  agrees PrimFloat.div Qdiv (float_literal 1 1) (float_literal 3 1) = true /\
  agrees PrimFloat.add Qplus (float_literal 1 10) (float_literal 2 10) = true /\
  agrees PrimFloat.add Qplus (float_literal (-7) 10) (float_literal (-1) 10) = true /\
  agrees PrimFloat.add Qplus (float_literal 20500 1)
    (PrimFloat.mul (float_literal 1 10000000000000) (float_literal 2 1)) = true /\
  agrees PrimFloat.add Qplus (float_literal 9007199254740992 1) (float_literal 1 1) = true /\
  agrees PrimFloat.add Qplus (float_literal 9007199254740992 1) (float_literal 3 1) = true /\
  agrees PrimFloat.mul Qmult (PrimFloat.next_up PrimFloat.zero) (float_literal 1 2) = true /\
  agrees PrimFloat.mul Qmult (PrimFloat.next_up PrimFloat.zero) (float_literal 3 4) = true /\
  agrees PrimFloat.mul Qmult (PrimFloat.next_up (PrimFloat.next_up (PrimFloat.next_up PrimFloat.zero))) (float_literal 1 2) = true.
Proof. vm_compute. repeat split. Qed.

(** The same for the four operations on a thousand pseudo-random pairs of
    decimals. *)
Example round64_matches_hardware_sampled :
  forallb agrees_on (sample_operands 1000 20240229) = true.
Proof. vm_compute. reflexivity. Qed.

Lemma pow2_Qpower (k : Z) : pow2 k == 2 ^ k.
Proof.
  unfold pow2. destruct (0 <=? k)%Z eqn:E.
  - apply Z.leb_le in E. now rewrite Zpower_Qpower.
  - apply Z.leb_gt in E.
    rewrite Zpower_Qpower by lia.
    rewrite <- Qpower_opp. now rewrite Z.opp_involutive.
Qed.

Lemma pow2_pos (k : Z) : 0 < pow2 k.
Proof. rewrite pow2_Qpower. apply Qpower_0_lt. reflexivity. Qed.

Lemma pow2_add (a b : Z) : pow2 (a + b) == pow2 a * pow2 b.
Proof. rewrite !pow2_Qpower. apply Qpower_plus. discriminate. Qed.

Lemma pow2_opp (a : Z) : pow2 (- a) == / pow2 a.
Proof. rewrite !pow2_Qpower. apply Qpower_opp. Qed.

Lemma pow2_0 : pow2 0 == 1.
Proof. reflexivity. Qed.

Lemma pow2_nonneg_Z (k : Z) : (0 <= k)%Z -> pow2 k = inject_Z (2 ^ k).
Proof. intros H. unfold pow2. apply Z.leb_le in H. now rewrite H. Qed.

Lemma pow2_ge_1 (k : Z) : (0 <= k)%Z -> 1 <= pow2 k.
Proof.
  intros H. rewrite pow2_nonneg_Z by exact H.
  change 1 with (inject_Z 1). rewrite <- Zle_Qle.
  pose proof (Z.pow_pos_nonneg 2 k ltac:(lia) H). lia.
Qed.

Lemma pow2_le (a b : Z) : (a <= b)%Z -> pow2 a <= pow2 b.
Proof.
  intros H. replace b with (a + (b - a))%Z by lia. rewrite pow2_add.
  pose proof (pow2_pos a). pose proof (pow2_ge_1 (b - a) ltac:(lia)). nra.
Qed.

Lemma pow2_lt (a b : Z) : (a < b)%Z -> pow2 a < pow2 b.
Proof.
  intros H. replace b with (a + 1 + (b - a - 1))%Z by lia. rewrite !pow2_add.
  pose proof (pow2_pos a). pose proof (pow2_ge_1 (b - a - 1) ltac:(lia)).
  change (pow2 1) with 2. nra.
Qed.

Lemma pow2_lt_inv (a b : Z) : pow2 a < pow2 b -> (a < b)%Z.
Proof.
  intros H. destruct (Z_lt_le_dec a b) as [L | L]; [exact L |].
  apply pow2_le in L. lra.
Qed.


Lemma ilog2_spec (q : Q) : 0 < q -> pow2 (ilog2 q) <= q < pow2 (ilog2 q + 1).
Proof.
  destruct q as [n d]. intros Hpos.
  assert (Hn : (0 < n)%Z) by (unfold Qlt in Hpos; simpl in Hpos; lia).
  set (a := Z.log2 n). set (b := Z.log2 (Zpos d)).
  assert (Ha0 : (0 <= a)%Z) by apply Z.log2_nonneg.
  assert (Hb0 : (0 <= b)%Z) by apply Z.log2_nonneg.
  destruct (Z.log2_spec n Hn) as [Ha1 Ha2].
  destruct (Z.log2_spec (Zpos d) ltac:(lia)) as [Hb1 Hb2].
  fold a in Ha1, Ha2. fold b in Hb1, Hb2.
  rewrite <- Z.add_1_r in Ha2, Hb2.
  assert (Hq : (n # d) * inject_Z (Zpos d) == inject_Z n).
  { unfold Qeq, Qmult, inject_Z. simpl. lia. }
  assert (HA1 : pow2 a <= inject_Z n)
    by (rewrite pow2_nonneg_Z by lia; now rewrite <- Zle_Qle).
  assert (HA2 : inject_Z n < pow2 (a + 1))
    by (rewrite pow2_nonneg_Z by lia; now rewrite <- Zlt_Qlt).
  assert (HB1 : pow2 b <= inject_Z (Zpos d))
    by (rewrite pow2_nonneg_Z by lia; now rewrite <- Zle_Qle).
  assert (HB2 : inject_Z (Zpos d) < pow2 (b + 1))
    by (rewrite pow2_nonneg_Z by lia; now rewrite <- Zlt_Qlt).
  pose proof (pow2_pos b) as Pb. pose proof (pow2_pos (b + 1)) as Pb1.
  unfold ilog2. cbn [Qnum Qden]. fold a b.
  destruct (Qle_bool (pow2 (a - b)) (n # d)) eqn:E.
  - apply Qle_bool_iff in E. split; [exact E |].
    assert (Hm : pow2 (a - b + 1) * pow2 b == pow2 (a + 1))
      by (rewrite <- pow2_add; now replace (a - b + 1 + b)%Z with (a + 1)%Z by lia).
    pose proof (pow2_pos (a - b + 1)) as Pp.
    apply Qnot_le_lt. intros Hc. nra.
  - assert (E' : n # d < pow2 (a - b)).
    { apply Qnot_le_lt. intros Hc. apply Qle_bool_iff in Hc. congruence. }
    split; [| now replace (a - b - 1 + 1)%Z with (a - b)%Z by lia].
    assert (Hm : pow2 (a - b - 1) * pow2 (b + 1) == pow2 a)
      by (rewrite <- pow2_add; now replace (a - b - 1 + (b + 1))%Z with a by lia).
    pose proof (pow2_pos (a - b - 1)) as Pp.
    apply Qnot_lt_le. intros Hc. nra.
Qed.

Lemma ilog2_unique (q : Q) (e : Z) :
  pow2 e <= q -> q < pow2 (e + 1) -> ilog2 q = e.
Proof.
  intros H1 H2.
  assert (Hpos : 0 < q) by (pose proof (pow2_pos e); lra).
  destruct (ilog2_spec q Hpos) as [L U].
  assert (A : (e < ilog2 q + 1)%Z) by (apply pow2_lt_inv; lra).
  assert (B : (ilog2 q < e + 1)%Z) by (apply pow2_lt_inv; lra).
  lia.
Qed.

Lemma ilog2_le (q1 q2 : Q) : 0 < q1 -> q1 <= q2 -> (ilog2 q1 <= ilog2 q2)%Z.
Proof.
  intros H0 H.
  destruct (ilog2_spec q1 H0) as [L1 U1].
  destruct (ilog2_spec q2 ltac:(lra)) as [L2 U2].
  assert (A : (ilog2 q1 < ilog2 q2 + 1)%Z) by (apply pow2_lt_inv; lra).
  lia.
Qed.


(** *** Rounding to the nearest integer *)

Lemma round_half_even_cases (x : Q) :
  let fl := Qfloor x in
  (2 * (x - inject_Z fl) < 1 /\ round_half_even x = fl) \/
  (2 * (x - inject_Z fl) == 1 /\
   round_half_even x = if Z.even fl then fl else (fl + 1)%Z) \/
  (1 < 2 * (x - inject_Z fl) /\ round_half_even x = (fl + 1)%Z).
Proof.
  intros fl. unfold round_half_even. fold fl.
  destruct (Qcompare (2 * (x - inject_Z fl)) 1) eqn:E.
  - right; left. split; [now apply Qeq_alt | reflexivity].
  - left. split; [now apply Qlt_alt | reflexivity].
  - right; right. split; [now apply Qgt_alt | reflexivity].
Qed.

Lemma round_half_even_inject (k : Z) : round_half_even (inject_Z k) = k.
Proof.
  destruct (round_half_even_cases (inject_Z k)) as [[H ->] | [[H _] | [H _]]];
    rewrite Qfloor_Z in *; [reflexivity | lra | lra].
Qed.

Lemma round_half_even_le (x y : Q) :
  x <= y -> (round_half_even x <= round_half_even y)%Z.
Proof.
  intros Hxy.
  pose proof (Qfloor_resp_le x y Hxy) as Hfl.
  pose proof (Qfloor_le x) as Lx. pose proof (Qlt_floor x) as Ux.
  pose proof (Qfloor_le y) as Ly. pose proof (Qlt_floor y) as Uy.
  assert (Bx : (Qfloor x <= round_half_even x <= Qfloor x + 1)%Z).
  { destruct (round_half_even_cases x) as [[_ ->] | [[_ ->] | [_ ->]]];
      try destruct (Z.even _); lia. }
  assert (By : (Qfloor y <= round_half_even y <= Qfloor y + 1)%Z).
  { destruct (round_half_even_cases y) as [[_ ->] | [[_ ->] | [_ ->]]];
      try destruct (Z.even _); lia. }
  destruct (Z.eq_dec (Qfloor x) (Qfloor y)) as [Heq | Hne]; [| lia].
  destruct (round_half_even_cases x) as [[Hx ->] | [[Hx ->] | [Hx ->]]];
    destruct (round_half_even_cases y) as [[Hy ->] | [[Hy ->] | [Hy ->]]];
    rewrite <- ?Heq in *; try destruct (Z.even (Qfloor x)); try lia;
    exfalso; lra.
Qed.

Lemma round_half_even_nonneg (x : Q) : 0 <= x -> (0 <= round_half_even x)%Z.
Proof.
  intros H. rewrite <- (round_half_even_inject 0) at 1.
  now apply round_half_even_le.
Qed.


(** *** Rounding to binary64 *)

Lemma round64_pos_nonneg (q : Q) : 0 <= q -> 0 <= round64_pos q.
Proof.
  intros H. unfold round64_pos.
  set (u := Z.max (ilog2 q - 52) (-1074)).
  pose proof (pow2_pos u). pose proof (pow2_pos (- u)).
  assert (0 <= inject_Z (round_half_even (q * pow2 (- u)))).
  { change 0 with (inject_Z 0). rewrite <- Zle_Qle.
    apply round_half_even_nonneg. nra. }
  nra.
Qed.

(** An integer below the scaled argument stays below its rounding, and
    likewise above. *)
Lemma round_scaled_ge (q : Q) (u k : Z) :
  (0 <= k)%Z -> pow2 (k + u) <= q ->
  pow2 (k + u) <= inject_Z (round_half_even (q * pow2 (- u))) * pow2 u.
Proof.
  intros Hk H.
  pose proof (pow2_pos u) as Pu. pose proof (pow2_pos (- u)) as Pmu.
  assert (Hinv : pow2 u * pow2 (- u) == 1)
    by (rewrite <- pow2_add; now replace (u + - u)%Z with 0%Z by lia).
  assert (Hs : inject_Z (2 ^ k) <= q * pow2 (- u)).
  { rewrite <- pow2_nonneg_Z by exact Hk.
    rewrite pow2_add in H.
    assert (A : pow2 k * pow2 u * pow2 (- u) <= q * pow2 (- u))
      by (apply Qmult_le_compat_r; lra).
    assert (B : pow2 k * (pow2 u * pow2 (- u)) == pow2 k)
      by (rewrite Hinv; ring).
    lra. }
  apply round_half_even_le in Hs. rewrite round_half_even_inject in Hs.
  rewrite Zle_Qle in Hs. rewrite <- pow2_nonneg_Z in Hs by exact Hk.
  rewrite pow2_add. apply Qmult_le_compat_r; lra.
Qed.

Lemma round_scaled_le (q : Q) (u k : Z) :
  (0 <= k)%Z -> q <= pow2 (k + u) ->
  inject_Z (round_half_even (q * pow2 (- u))) * pow2 u <= pow2 (k + u).
Proof.
  intros Hk H.
  pose proof (pow2_pos u) as Pu. pose proof (pow2_pos (- u)) as Pmu.
  assert (Hinv : pow2 u * pow2 (- u) == 1)
    by (rewrite <- pow2_add; now replace (u + - u)%Z with 0%Z by lia).
  assert (Hs : q * pow2 (- u) <= inject_Z (2 ^ k)).
  { rewrite <- pow2_nonneg_Z by exact Hk.
    rewrite pow2_add in H.
    assert (A : q * pow2 (- u) <= pow2 k * pow2 u * pow2 (- u))
      by (apply Qmult_le_compat_r; lra).
    assert (B : pow2 k * (pow2 u * pow2 (- u)) == pow2 k)
      by (rewrite Hinv; ring).
    lra. }
  apply round_half_even_le in Hs. rewrite round_half_even_inject in Hs.
  rewrite Zle_Qle in Hs. rewrite <- pow2_nonneg_Z in Hs by exact Hk.
  rewrite pow2_add. apply Qmult_le_compat_r; lra.
Qed.

Lemma round64_pos_le (q1 q2 : Q) :
  0 < q1 -> q1 <= q2 -> round64_pos q1 <= round64_pos q2.
Proof.
  intros H0 H.
  pose proof (ilog2_le q1 q2 H0 H) as He.
  destruct (ilog2_spec q1 H0) as [L1 U1].
  destruct (ilog2_spec q2 ltac:(lra)) as [L2 U2].
  unfold round64_pos.
  set (e1 := ilog2 q1) in *. set (e2 := ilog2 q2) in *.
  set (u1 := Z.max (e1 - 52) (-1074)). set (u2 := Z.max (e2 - 52) (-1074)).
  destruct (Z.eq_dec u1 u2) as [Hu | Hu].
  - rewrite Hu.
    pose proof (pow2_pos u2). pose proof (pow2_pos (- u2)).
    apply Qmult_le_compat_r; [| lra].
    rewrite <- Zle_Qle. apply round_half_even_le. nra.
  - assert (Hlt : (u1 < u2)%Z) by lia.
    assert (Hu2 : u2 = (e2 - 52)%Z) by lia.
    assert (Hee : (e1 < e2)%Z) by lia.
    apply Qle_trans with (pow2 e2).
    + set (k := Z.max (e1 + 1 - u1) 0).
      apply Qle_trans with (pow2 (k + u1)).
      * apply round_scaled_le; [lia |].
        apply Qle_trans with (pow2 (e1 + 1)); [lra | apply pow2_le; lia].
      * apply pow2_le. lia.
    + replace e2 with (52 + u2)%Z at 1 by lia.
      apply round_scaled_ge; [lia |].
      now replace (52 + u2)%Z with e2 by lia.
Qed.

Lemma Qnum_pos_iff (q : Q) : (0 < Qnum q)%Z <-> 0 < q.
Proof. unfold Qlt. simpl. lia. Qed.

Lemma round64_pos_case (q : Q) : 0 < q -> round64 q == round64_pos q.
Proof.
  intros H. apply Qnum_pos_iff in H. unfold round64. rewrite Qred_correct.
  destruct (Qnum q); try lia. reflexivity.
Qed.

Lemma round64_zero_case (q : Q) : q == 0 -> round64 q == 0.
Proof.
  intros H. unfold round64. rewrite Qred_correct.
  assert (Qnum q = 0%Z) by (unfold Qeq in H; simpl in H; lia).
  now rewrite H0.
Qed.

Lemma round64_neg_case (q : Q) : q < 0 -> round64 q == - round64_pos (- q).
Proof.
  intros H. unfold round64. rewrite Qred_correct.
  assert (Qnum q < 0)%Z by (unfold Qlt in H; simpl in H; lia).
  destruct (Qnum q); try lia. reflexivity.
Qed.

(** Rounding is monotone. *)
Lemma round64_le (q1 q2 : Q) : q1 <= q2 -> round64 q1 <= round64 q2.
Proof.
  intros H.
  destruct (Q_dec q1 0) as [[N1 | P1] | Z1];
    destruct (Q_dec q2 0) as [[N2 | P2] | Z2]; try (exfalso; lra).
  - rewrite (round64_neg_case q1 N1), (round64_neg_case q2 N2).
    apply Qopp_le_compat. apply round64_pos_le; lra.
  - rewrite (round64_neg_case q1 N1), (round64_pos_case q2 P2).
    pose proof (round64_pos_nonneg (- q1) ltac:(lra)).
    pose proof (round64_pos_nonneg q2 ltac:(lra)). lra.
  - rewrite (round64_neg_case q1 N1), (round64_zero_case q2 Z2).
    pose proof (round64_pos_nonneg (- q1) ltac:(lra)). lra.
  - rewrite (round64_pos_case q1 P1), (round64_pos_case q2 P2).
    now apply round64_pos_le.
  - rewrite (round64_zero_case q1 Z1), (round64_pos_case q2 P2).
    apply round64_pos_nonneg. lra.
  - rewrite (round64_zero_case q1 Z1), (round64_zero_case q2 Z2). lra.
Qed.

#[global] Instance round64_proper : Proper (Qeq ==> Qeq) round64.
Proof.
  intros x y H. apply Qle_antisym; apply round64_le; lra.
Qed.

Lemma round64_eq (q1 q2 : Q) : q1 == q2 -> round64 q1 = round64 q2.
Proof.
  intros H. apply round64_proper in H.
  unfold round64 in *. rewrite !Qred_correct in H.
  now apply Qred_complete.
Qed.

Lemma round64_0 : round64 0 = 0.
Proof. reflexivity. Qed.

Lemma round64_nonneg (q : Q) : 0 <= q -> 0 <= round64 q.
Proof. intros H. rewrite <- round64_0. now apply round64_le. Qed.

Lemma round64_nonpos (q : Q) : q <= 0 -> round64 q <= 0.
Proof. intros H. rewrite <- round64_0. now apply round64_le. Qed.

(** Rounding is odd: binary64 is symmetric about zero. *)
Lemma round64_opp (q : Q) : round64 (- q) == - round64 q.
Proof.
  destruct (Q_dec q 0) as [[N | P] | Z].
  - rewrite (round64_pos_case (- q)) by lra.
    rewrite (round64_neg_case q N). lra.
  - rewrite (round64_neg_case (- q)) by lra.
    rewrite (round64_pos_case q P).
    assert (E : - - q = q) by (destruct q; unfold Qopp; simpl; f_equal; lia).
    now rewrite E.
  - rewrite (round64_zero_case q Z), (round64_zero_case (- q)) by lra. lra.
Qed.

Lemma round64_abs (q : Q) : round64 (Qabs q) == Qabs (round64 q).
Proof.
  destruct (Qlt_le_dec q 0) as [N | P].
  - rewrite (Qabs_neg q) by lra. rewrite round64_opp.
    rewrite (Qabs_neg (round64 q)); [reflexivity |]. apply round64_nonpos. lra.
  - rewrite (Qabs_pos q) by exact P.
    rewrite (Qabs_pos (round64 q)); [reflexivity |]. now apply round64_nonneg.
Qed.


#[global] Instance round_half_even_proper : Proper (Qeq ==> eq) round_half_even.
Proof.
  intros x y H. apply Z.le_antisymm; apply round_half_even_le; lra.
Qed.

Lemma pow2_cancel (u : Z) : pow2 u * pow2 (- u) == 1.
Proof. rewrite <- pow2_add. now replace (u + - u)%Z with 0%Z by lia. Qed.

(** A positive multiple of [2 ^ u] with fewer than 54 bits above [u],
    [u >= -1074], is a binary64 number: rounding leaves it alone. *)
Lemma round64_pos_fix (r : Q) (m u : Z) :
  (-1074 <= u)%Z -> (0 < m)%Z ->
  r == inject_Z m * pow2 u -> r < pow2 (53 + u) ->
  round64_pos r == r.
Proof.
  intros Hu Hm Hr Hlt.
  pose proof (pow2_pos u) as Pu.
  assert (Hpos : 0 < r).
  { rewrite Hr. apply Qmult_lt_0_compat; [| exact Pu].
    change 0 with (inject_Z 0). now rewrite <- Zlt_Qlt. }
  destruct (ilog2_spec r Hpos) as [L U].
  assert (He : (ilog2 r < 53 + u)%Z) by (apply pow2_lt_inv; lra).
  unfold round64_pos.
  set (v := Z.max (ilog2 r - 52) (-1074)).
  assert (Hv : (v <= u)%Z) by lia.
  assert (Hs : r * pow2 (- v) == inject_Z (m * 2 ^ (u - v))).
  { rewrite Hr, inject_Z_mult, <- pow2_nonneg_Z by lia.
    replace (u - v)%Z with (u + - v)%Z by lia. rewrite pow2_add. ring. }
  rewrite Hs, round_half_even_inject.
  rewrite Hr, inject_Z_mult, <- pow2_nonneg_Z by lia.
  rewrite <- Qmult_assoc, <- pow2_add.
  now replace (u - v + v)%Z with u by lia.
Qed.

(** The result of a rounding is a binary64 number. *)
Lemma round64_pos_idem (q : Q) :
  0 < q -> round64_pos q == 0 \/
           (0 < round64_pos q /\ round64_pos (round64_pos q) == round64_pos q).
Proof.
  intros Hpos.
  destruct (ilog2_spec q Hpos) as [L U].
  set (e := ilog2 q) in *.
  set (u := Z.max (e - 52) (-1074)).
  set (m := round_half_even (q * pow2 (- u))).
  assert (Hr : round64_pos q == inject_Z m * pow2 u) by reflexivity.
  pose proof (pow2_pos u) as Pu. pose proof (pow2_pos (- u)) as Pmu.
  assert (Hm0 : (0 <= m)%Z) by (apply round_half_even_nonneg; nra).
  assert (Hm1 : (m <= 2 ^ 53)%Z).
  { rewrite <- (round_half_even_inject (2 ^ 53)).
    apply round_half_even_le. rewrite <- pow2_nonneg_Z by lia.
    apply Qle_trans with (pow2 (e + 1) * pow2 (- u)).
    - apply Qmult_le_compat_r; lra.
    - rewrite <- pow2_add. apply pow2_le. lia. }
  destruct (Z.eq_dec m 0) as [Z0 | NZ].
  - left. rewrite Hr, Z0. ring.
  - right. split.
    + rewrite Hr. apply Qmult_lt_0_compat; [| exact Pu].
      change 0 with (inject_Z 0). rewrite <- Zlt_Qlt. lia.
    + destruct (Z.eq_dec m (2 ^ 53)) as [Top | NTop].
      * apply (round64_pos_fix _ 1 (53 + u)); [lia | lia | |].
        -- rewrite Hr, Top, <- pow2_nonneg_Z by lia.
           rewrite <- pow2_add. ring.
        -- rewrite Hr, Top, <- pow2_nonneg_Z by lia.
           rewrite <- pow2_add. apply pow2_lt. lia.
      * apply (round64_pos_fix _ m u); [lia | lia | exact Hr |].
        rewrite Hr, pow2_add. apply Qmult_lt_compat_r; [exact Pu |].
        rewrite pow2_nonneg_Z by lia. rewrite <- Zlt_Qlt. lia.
Qed.

Lemma round64_idem_pos (q : Q) : 0 < q -> round64 (round64 q) == round64 q.
Proof.
  intros P. destruct (round64_pos_idem q P) as [Hz | [Hp Hi]].
  - rewrite (round64_pos_case q P), Hz. reflexivity.
  - rewrite (round64_pos_case q P), (round64_pos_case _ Hp). exact Hi.
Qed.

Lemma round64_idem (q : Q) : round64 (round64 q) == round64 q.
Proof.
  destruct (Q_dec q 0) as [[N | P] | Z].
  - assert (E : q == - - q) by ring.
    rewrite E at 1 2. rewrite (round64_opp (- q)), (round64_opp (round64 (- q))).
    rewrite (round64_idem_pos (- q)) by lra.
    rewrite <- round64_opp. now rewrite <- E.
  - now apply round64_idem_pos.
  - rewrite (round64_zero_case q Z). reflexivity.
Qed.

(** Scaling by one half is exact away from the subnormal range. *)
Lemma round64_half (q : Q) : 1 <= q -> round64 (q * (1 # 2)) == round64 q * (1 # 2).
Proof.
  intros H1.
  destruct (ilog2_spec q ltac:(lra)) as [L U].
  assert (He : (0 <= ilog2 q)%Z).
  { assert (A : (0 < ilog2 q + 1)%Z) by (apply pow2_lt_inv; rewrite pow2_0; lra). lia. }
  assert (Hh : ilog2 (q * (1 # 2)) = (ilog2 q - 1)%Z).
  { assert (P1 : pow2 (ilog2 q) == pow2 (ilog2 q - 1) * 2).
    { change 2 with (pow2 1). rewrite <- pow2_add. now replace (ilog2 q - 1 + 1)%Z with (ilog2 q) by lia. }
    assert (P2 : pow2 (ilog2 q + 1) == pow2 (ilog2 q - 1 + 1) * 2).
    { change 2 with (pow2 1). rewrite <- pow2_add. now replace (ilog2 q - 1 + 1 + 1)%Z with (ilog2 q + 1)%Z by lia. }
    apply ilog2_unique; lra. }
  rewrite (round64_pos_case q) by lra.
  rewrite (round64_pos_case (q * (1 # 2))) by lra.
  unfold round64_pos. rewrite Hh.
  replace (Z.max (ilog2 q - 1 - 52) (-1074)) with (Z.max (ilog2 q - 52) (-1074) - 1)%Z by lia.
  set (u := Z.max (ilog2 q - 52) (-1074)).
  assert (Hs : q * (1 # 2) * pow2 (- (u - 1)) == q * pow2 (- u)).
  { replace (- (u - 1))%Z with (- u + 1)%Z by lia. rewrite pow2_add.
    change (pow2 1) with 2. ring. }
  rewrite Hs.
  replace (u - 1)%Z with (u + -1)%Z by lia. rewrite pow2_add.
  change (pow2 (-1)) with (1 # 2). ring.
Qed.


#[global] Instance fadd_proper : Proper (Qeq ==> Qeq ==> Qeq) fadd.
Proof. intros a b H c d H'. unfold fadd. now rewrite H, H'. Qed.

#[global] Instance fsub_proper : Proper (Qeq ==> Qeq ==> Qeq) fsub.
Proof. intros a b H c d H'. unfold fsub. now rewrite H, H'. Qed.

#[global] Instance fmul_proper : Proper (Qeq ==> Qeq ==> Qeq) fmul.
Proof. intros a b H c d H'. unfold fmul. now rewrite H, H'. Qed.

(** Integers of fewer than 54 bits are binary64 numbers. *)
Lemma round64_Z (z : Z) :
  (Z.abs z < 2 ^ 53)%Z -> round64 (inject_Z z) == inject_Z z.
Proof.
  assert (Hp : forall m : Z, (0 < m < 2 ^ 53)%Z ->
                 round64 (inject_Z m) == inject_Z m).
  { intros m Hm.
    assert (P : 0 < inject_Z m)
      by (change 0 with (inject_Z 0); rewrite <- Zlt_Qlt; lia).
    rewrite (round64_pos_case _ P).
    apply (round64_pos_fix _ m 0); [lia | lia | rewrite pow2_0; ring |].
    rewrite pow2_nonneg_Z by lia. rewrite <- Zlt_Qlt. lia. }
  intros H. destruct (Z.lt_trichotomy z 0) as [N | [-> | P]].
  - assert (E : inject_Z z == - inject_Z (- z))
      by (rewrite inject_Z_opp; ring).
    rewrite E, round64_opp, Hp by lia. reflexivity.
  - reflexivity.
  - apply Hp. lia.
Qed.

(** Adding at least one to a binary64 number of magnitude below [2 ^ 52]
    gives a larger number, and subtracting at least one a smaller one:
    an integer lies in between. *)
Lemma fadd_gt (a y : Q) :
  round64 a == a -> Qabs a <= inject_Z (2 ^ 52 - 1) -> 1 <= y -> a < fadd a y.
Proof.
  intros Ha Hb Hy. unfold fadd.
  set (f := (Qfloor a + 1)%Z).
  pose proof (Qfloor_le a) as L. pose proof (Qlt_floor a) as U. fold f in U.
  apply Qabs_Qle_condition in Hb. destruct Hb as [Hb1 Hb2].
  assert (Hf : (Z.abs f < 2 ^ 53)%Z).
  { assert (Qfloor a <= 2 ^ 52 - 1)%Z
      by (rewrite <- (Qfloor_Z (2 ^ 52 - 1)); now apply Qfloor_resp_le).
    assert (- (2 ^ 52 - 1) <= Qfloor a)%Z.
    { rewrite <- (Qfloor_Z (- (2 ^ 52 - 1))). apply Qfloor_resp_le.
      now rewrite inject_Z_opp. }
    unfold f. lia. }
  apply Qlt_le_trans with (inject_Z f); [exact U |].
  rewrite <- (round64_Z f Hf). apply round64_le.
  unfold f. rewrite inject_Z_plus. change (inject_Z 1) with 1. lra.
Qed.

Lemma fsub_lt (a y : Q) :
  round64 a == a -> Qabs a <= inject_Z (2 ^ 52 - 1) -> 1 <= y -> fsub a y < a.
Proof.
  intros Ha Hb Hy.
  assert (H : - a < fadd (- a) y).
  { apply fadd_gt; [now rewrite round64_opp, Ha | now rewrite Qabs_opp | exact Hy]. }
  unfold fadd in H. unfold fsub.
  assert (E : a - y == - (- a + y)) by ring.
  rewrite E, round64_opp. lra.
Qed.

(** Adding a number that is not negative to a binary64 number never
    gives less, and subtracting it never gives more. *)
Lemma fadd_ge (a y : Q) : round64 a == a -> 0 <= y -> a <= fadd a y.
Proof.
  intros Ha Hy. rewrite <- Ha at 1. unfold fadd. apply round64_le. lra.
Qed.

Lemma fsub_le (a y : Q) : round64 a == a -> 0 <= y -> fsub a y <= a.
Proof.
  intros Ha Hy. rewrite <- Ha at 2. unfold fsub. apply round64_le. lra.
Qed.

(** [a - (- y)] and [a + y] round alike. *)
Lemma fsub_opp (a y : Q) : fsub a (- y) == fadd a y.
Proof. unfold fsub, fadd. apply round64_proper. ring. Qed.

Lemma fmul_opp_l (a b : Q) : fmul (- a) b == - fmul a b.
Proof.
  unfold fmul. rewrite <- round64_opp. apply round64_proper. ring.
Qed.

Lemma fmul_nonneg (a b : Q) : 0 <= a -> 0 <= b -> 0 <= fmul a b.
Proof. intros. unfold fmul. apply round64_nonneg. nra. Qed.

(** Doubling a number that is at least one half gives at least one. *)
Lemma fmul_2_ge_1 (a : Q) : 1 # 2 <= a -> 1 <= fmul a 2.
Proof.
  intros H. change 1 with (round64 1) at 1. unfold fmul.
  apply round64_le. lra.
Qed.

(** Halving a binary64 number that is not negative: the result is below
    100 exactly when the number is below 200. *)
Lemma fmul_half_lt_100 (x : Q) :
  round64 x == x -> 0 <= x -> (fmul x (1 # 2) < 100 <-> x < 200).
Proof.
  intros Hx H0. unfold fmul. split.
  - intros H. apply Qnot_le_lt. intros Hc.
    assert (A : round64 100 <= round64 (x * (1 # 2)))
      by (apply round64_le; lra).
    change (round64 100) with 100 in A. lra.
  - intros H. destruct (Qlt_le_dec x 1) as [Small | Big].
    + assert (A : round64 (x * (1 # 2)) <= round64 1)
        by (apply round64_le; lra).
      change (round64 1) with 1 in A. lra.
    + rewrite (round64_half x Big), Hx. lra.
Qed.

End Binary64Facts.

(** ** Signal detection *)

Module Momentum30ptFacts.
Import Py PyFacts Momentum30pt.
Local Open Scope Q_scope.

(** A call appends the candle and leaves the threshold alone. *)
Lemma on_candle_close_state (s : t) (c : Candle) :
  candles (fst (on_candle_close s c)) = candles s ++ [c] /\
  trigger_threshold (fst (on_candle_close s c)) = trigger_threshold s.
Proof.
  unfold on_candle_close.
  destruct (length (candles s ++ [c]) <? 2)%nat; [now split |].
  destruct ((candles s ++ [c]) !! _); [| now split].
  destruct (Qle_bool _ _); now split.
Qed.

Lemma fold_on_candle_close (cs : list Candle) (s : t) :
  let s' := fold_left (fun s c => fst (on_candle_close s c)) cs s in
  candles s' = candles s ++ cs /\ trigger_threshold s' = trigger_threshold s.
Proof.
  revert s. induction cs as [| c cs IH]; intros s; simpl.
  - now rewrite app_nil_r.
  - destruct (IH (fst (on_candle_close s c))) as [Hc Ht].
    destruct (on_candle_close_state s c) as [Hc1 Ht1].
    rewrite Hc, Ht, Hc1, Ht1, <- app_assoc. now split.
Qed.

Lemma feed_state (cs : list Candle) :
  candles (feed cs) = cs /\ trigger_threshold (feed cs) = 30.
Proof. unfold feed. destruct (fold_on_candle_close cs init) as [H1 H2]. now split. Qed.

(** [self.candles[-2]] after the append is the last candle of the
    history before it. *)
Lemma prior_lookup (h : list Candle) (c : Candle) :
  (h ++ [c]) !! (length (h ++ [c]) - 2)%nat = last h \/ h = [].
Proof.
  destruct h as [| x h]; [now right | left].
  rewrite last_lookup, length_app. simpl.
  replace (length h + 1 - 1)%nat with (length h) by lia.
  change (x :: h ++ [c]) with ((x :: h) ++ [c]).
  rewrite lookup_app_l by (simpl; lia). reflexivity.
Qed.

Lemma on_candle_close_result (s : t) (c : Candle) :
  snd (on_candle_close s c) =
  match last (candles s) with
  | None => None
  | Some prior =>
      let move := fsub (c_close c) (c_close prior) in
      if Qle_bool (trigger_threshold s) (Qabs move) then
        let buy := Qlt_bool 0 move in
        let stop := if buy then c_low c else c_high c in
        Some {| direction := if buy then "Buy"%string else "Sell"%string;
                entry_price := c_close c; stop_price := stop;
                breakout_candle := c; prior_candle := prior;
                move_points := Qabs move;
                risk_points := Qabs (fsub (c_close c) stop);
                timestamp := c_timestamp c |}
      else None
  end.
Proof.
  unfold on_candle_close.
  destruct (prior_lookup (candles s) c) as [Hl | Hnil].
  - rewrite Hl.
    destruct (candles s) as [| x h] eqn:Hc; [reflexivity |].
    replace (length ((x :: h) ++ [c]) <? 2)%nat with false
      by (symmetry; apply Nat.ltb_ge; rewrite length_app; simpl; lia).
    destruct (last (x :: h)) as [prior |]; [| reflexivity].
    cbv zeta.
    destruct (Qle_bool _ _); [| reflexivity].
    destruct (Qlt_bool 0 (fsub (c_close c) (c_close prior))); reflexivity.
  - rewrite Hnil. reflexivity.
Qed.

(** C1.  For every sequence of completed candles fed to a fresh detector
    and every further candle [c]: with an empty history (fewer than two
    candles once [c] is appended) nothing is emitted; otherwise, with
    [move = c.close - previous.close] as the program computes it (the
    [float] difference, [fsub]), a signal is emitted iff [|move| >= 30],
    and the emitted signal has direction Buy iff [move > 0] and Sell
    otherwise, entry price [c.close], stop price [c.low] for Buy and
    [c.high] for Sell, and risk [|entry - stop|], the difference again
    being the [float] one. *)
Theorem on_candle_close_spec (history : list Candle) (c : Candle) :
  let out := snd (on_candle_close (feed history) c) in
  ((length (history ++ [c]) < 2)%nat <-> last history = None) /\
  match last history with
  | None => out = None
  | Some previous =>
      let move := fsub (c_close c) (c_close previous) in
      (is_Some out <-> 30 <= Qabs move) /\
      (forall sig, out = Some sig ->
         (direction sig = "Buy"%string <-> 0 < move) /\
         (direction sig = "Sell"%string <-> ~ 0 < move) /\
         entry_price sig = c_close c /\
         (direction sig = "Buy"%string -> stop_price sig = c_low c) /\
         (direction sig = "Sell"%string -> stop_price sig = c_high c) /\
         risk_points sig = Qabs (fsub (entry_price sig) (stop_price sig)))
  end.
Proof.
  intros out. split.
  - rewrite last_None, length_app. simpl.
    destruct history; simpl; split; intros H; try lia; congruence.
  - subst out. rewrite on_candle_close_result.
    destruct (feed_state history) as [-> ->].
    destruct (last history) as [previous |]; [| reflexivity].
    cbv zeta.
    destruct (Qle_bool 30 (Qabs (fsub (c_close c) (c_close previous)))) eqn:Hthr.
    + split.
      * split; [intros _; now apply Qle_bool_iff | intros _; eexists; reflexivity].
      * intros sig [= <-]. simpl.
        destruct (Qlt_bool 0 (fsub (c_close c) (c_close previous))) eqn:Hdir.
        -- apply Qlt_bool_iff in Hdir.
           repeat split; try reflexivity; try congruence; try tauto.
           all: discriminate.
        -- apply Qlt_bool_false_iff in Hdir.
           repeat split; try reflexivity; try congruence; try tauto.
           all: discriminate.
    + apply Qle_bool_false_iff in Hthr. split.
      * split; [intros [x Hx]; discriminate | tauto].
      * intros sig H. discriminate.
Qed.

End Momentum30ptFacts.

(** ** Risk gate *)

Module RiskManagerFacts.
Import Py PyFacts Binary64Facts RiskManager.
Local Open Scope Q_scope.

(** Turn the boolean tests in the context into propositions. *)
Ltac reflect_tests :=
  repeat match goal with
    | H : Qle_bool _ _ = true |- _ => apply Qle_bool_iff in H
    | H : Qle_bool _ _ = false |- _ => apply Qle_bool_false_iff in H
    | H : Qlt_bool _ _ = true |- _ => apply Qlt_bool_iff in H
    | H : Qlt_bool _ _ = false |- _ => apply Qlt_bool_false_iff in H
    | H : (_ <=? _)%Z = true |- _ => apply Z.leb_le in H
    | H : (_ <=? _)%Z = false |- _ => apply Z.leb_gt in H
    | H : (_ <? _)%Z = true |- _ => apply Z.ltb_lt in H
    | H : (_ <? _)%Z = false |- _ => apply Z.ltb_ge in H
    end.

(** Decide the tests of [check_entry] one after the other. *)
Ltac walk_check_entry :=
  unfold check_entry;
  repeat match goal with
    | |- context [if ?b then _ else _] =>
        let E := fresh "E" in destruct b eqn:E
    end.

(** The five tests of [check_entry], as propositions about the object
    and the arguments. *)
Lemma check_entry_cases (fmt : Q -> string) (s : t) (d : string) (size : Z)
    (e p : Q) :
  let r := check_entry fmt s d size e p in
  let risk := Qabs (fsub e p) in
  let reward := fmul risk (1 # 2) in
  (kill_switch_triggered s = true ->
     r = (s, (false, "KILL_SWITCH active"%string))) /\
  (kill_switch_triggered s = false ->
   daily_pnl s <= max_daily_loss (config s) ->
     r = (set_kill_switch s true,
          (false, ("DAILY_LOSS hit (" ++ fmt (daily_pnl s) ++ ")")%string))) /\
  (kill_switch_triggered s = false ->
   ~ daily_pnl s <= max_daily_loss (config s) ->
   (max_trades_per_day (config s) <= trades_today s)%Z ->
     r = (s, (false, "MAX_TRADES reached"%string))) /\
  (kill_switch_triggered s = false ->
   ~ daily_pnl s <= max_daily_loss (config s) ->
   (trades_today s < max_trades_per_day (config s))%Z ->
   (max_position_size (config s) < size)%Z ->
     r = (s, (false, ("MAX_SIZE exceeded (" ++ str_Z size ++ " > "
                        ++ str_Z (max_position_size (config s)) ++ ")")%string))) /\
  (kill_switch_triggered s = false ->
   ~ daily_pnl s <= max_daily_loss (config s) ->
   (trades_today s < max_trades_per_day (config s))%Z ->
   (size <= max_position_size (config s))%Z ->
   reward < r_per_trade (config s) ->
     r = (s, (false, ("Poor R:R (" ++ fmt risk ++ " pts = $"
                        ++ fmt reward ++ ")")%string))) /\
  (kill_switch_triggered s = false ->
   ~ daily_pnl s <= max_daily_loss (config s) ->
   (trades_today s < max_trades_per_day (config s))%Z ->
   (size <= max_position_size (config s))%Z ->
   ~ reward < r_per_trade (config s) ->
     r = (s, (true, "OK"%string))).
Proof.
  cbv zeta.
  repeat split; intros; walk_check_entry; try reflexivity;
    exfalso; reflect_tests; try congruence; try tauto; lia.
Qed.

(** A fresh manager with the default configuration rejects three
    contracts for their size, whatever the other arguments. *)
Lemma check_entry_fresh_size3 (fmt : Q -> string) (now : datetime)
    (d : string) (e p : Q) :
  check_entry fmt (init None now) d 3 e p =
  (init None now, (false, "MAX_SIZE exceeded (3 > 2)"%string)).
Proof. reflexivity. Qed.

(** C3 (as amended).  [check_entry] tests, in this order, the kill
    switch, the daily loss (which also sets the kill switch), the number
    of trades, the size and the reward per contract
    [|entry - stop| * 0.50 < r_per_trade], the difference and the product
    being the [float] ones ([fsub], [fmul]); at the first test that fails it
    returns [False] with the message "KILL_SWITCH active",
    "DAILY_LOSS hit (<daily_pnl>)", "MAX_TRADES reached",
    "MAX_SIZE exceeded (<size> > <max_position_size>)" or
    "Poor R:R (<risk> pts = $<reward>)", and [(True, "OK")] when none
    fails.  A fresh manager with [max_position_size = 2] answers
    [(False, "MAX_SIZE exceeded (3 > 2)")] to a size of 3 for every
    direction, entry price and stop price. *)
Theorem check_entry_first_failure (fmt : Q -> string) :
  (forall (s : t) (d : string) (size : Z) (e p : Q),
     let r := check_entry fmt s d size e p in
     let risk := Qabs (fsub e p) in
     let reward := fmul risk (1 # 2) in
     (kill_switch_triggered s = true ->
        r = (s, (false, "KILL_SWITCH active"%string))) /\
     (kill_switch_triggered s = false ->
      daily_pnl s <= max_daily_loss (config s) ->
        r = (set_kill_switch s true,
             (false, ("DAILY_LOSS hit (" ++ fmt (daily_pnl s) ++ ")")%string))) /\
     (kill_switch_triggered s = false ->
      ~ daily_pnl s <= max_daily_loss (config s) ->
      (max_trades_per_day (config s) <= trades_today s)%Z ->
        r = (s, (false, "MAX_TRADES reached"%string))) /\
     (kill_switch_triggered s = false ->
      ~ daily_pnl s <= max_daily_loss (config s) ->
      (trades_today s < max_trades_per_day (config s))%Z ->
      (max_position_size (config s) < size)%Z ->
        r = (s, (false, ("MAX_SIZE exceeded (" ++ str_Z size ++ " > "
                           ++ str_Z (max_position_size (config s)) ++ ")")%string))) /\
     (kill_switch_triggered s = false ->
      ~ daily_pnl s <= max_daily_loss (config s) ->
      (trades_today s < max_trades_per_day (config s))%Z ->
      (size <= max_position_size (config s))%Z ->
      reward < r_per_trade (config s) ->
        r = (s, (false, ("Poor R:R (" ++ fmt risk ++ " pts = $"
                           ++ fmt reward ++ ")")%string))) /\
     (kill_switch_triggered s = false ->
      ~ daily_pnl s <= max_daily_loss (config s) ->
      (trades_today s < max_trades_per_day (config s))%Z ->
      (size <= max_position_size (config s))%Z ->
      ~ reward < r_per_trade (config s) ->
        r = (s, (true, "OK"%string)))) /\
  (forall (now : datetime) (d : string) (e p : Q),
     max_position_size (config (init None now)) = 2%Z /\
     check_entry fmt (init None now) d 3 e p =
     (init None now, (false, "MAX_SIZE exceeded (3 > 2)"%string))).
Proof.
  split.
  - intros s d size e p. apply check_entry_cases.
  - intros now d e p. split; [reflexivity | apply check_entry_fresh_size3].
Qed.

(** C3, the claim as first stated fails: the reason returned for an
    oversized entry is the full message, not the bare code. *)
Lemma check_entry_reason_counterexample :
  snd (check_entry (fun _ => EmptyString) (init None (mk_datetime 0 0))
         "Buy" 3 20500 20470)
  = (false, "MAX_SIZE exceeded (3 > 2)"%string) /\
  "MAX_SIZE exceeded (3 > 2)"%string <> "MAX_SIZE"%string.
Proof. split; [reflexivity | discriminate]. Qed.

(** Each of the other branches is taken by some input. *)
Example check_entry_kill_switch_branch :
  snd (check_entry (fun _ => EmptyString)
         (set_kill_switch (init None (mk_datetime 0 0)) true) "Buy" 1 20500 20200)
  = (false, "KILL_SWITCH active"%string).
Proof. reflexivity. Qed.

Example check_entry_daily_loss_branch :
  let s := {| config := default_config; daily_pnl := -600; trades_today := 0;
              daily_start := mk_datetime 0 0; kill_switch_triggered := false |} in
  check_entry (fun _ => "-600"%string) s "Buy" 1 20500 20200
  = (set_kill_switch s true, (false, "DAILY_LOSS hit (-600)"%string)).
Proof. reflexivity. Qed.

Example check_entry_max_trades_branch :
  let s := {| config := default_config; daily_pnl := 0; trades_today := 10;
              daily_start := mk_datetime 0 0; kill_switch_triggered := false |} in
  snd (check_entry (fun _ => EmptyString) s "Buy" 1 20500 20200)
  = (false, "MAX_TRADES reached"%string).
Proof. reflexivity. Qed.

Example check_entry_ok_branch :
  snd (check_entry (fun _ => EmptyString) (init None (mk_datetime 0 0))
         "Buy" 1 20500 20300)
  = (true, "OK"%string).
Proof. reflexivity. Qed.

Example check_entry_poor_rr_branch :
  snd (check_entry (fun _ => "?"%string) (init None (mk_datetime 0 0))
         "Buy" 1 20545 20505)
  = (false, "Poor R:R (? pts = $?)"%string).
Proof. reflexivity. Qed.

(** *** The kill switch *)

Lemma check_entry_kill_switch (fmt : Q -> string) (s : t) (d : string)
    (size : Z) (e p : Q) :
  kill_switch_triggered s = true ->
  check_entry fmt s d size e p = (s, (false, "KILL_SWITCH active"%string)).
Proof. intros H. unfold check_entry. now rewrite H. Qed.

(** No operation other than a [reset_day] that sees a later day clears
    the kill switch. *)
Lemma step_keeps_kill_switch (fmt : Q -> string) (s : t) (o : op) :
  kill_switch_triggered s = true ->
  is_day_advance s o = false ->
  kill_switch_triggered (step fmt s o) = true.
Proof.
  intros Hk Hadv. destruct o as [d n e p | pnl | | n1 n2]; simpl.
  - now rewrite check_entry_kill_switch.
  - rewrite Hk. now destruct (Qle_bool _ _).
  - exact Hk.
  - unfold reset_day. simpl in Hadv. now rewrite Hadv.
Qed.

Lemma run_keeps_kill_switch (fmt : Q -> string) (ops : list op) (s : t) :
  kill_switch_triggered s = true ->
  same_day fmt s ops = true ->
  kill_switch_triggered (run fmt s ops) = true.
Proof.
  revert s. induction ops as [| o ops IH]; intros s Hk Hq; simpl in *.
  - exact Hk.
  - apply andb_true_iff in Hq as [Ho Hq].
    apply negb_true_iff in Ho.
    apply IH; [now apply step_keeps_kill_switch | exact Hq].
Qed.

Lemma check_entry_blocked (fmt : Q -> string) (s : t) (d : string)
    (size : Z) (e p : Q) :
  kill_switch_triggered s = true \/ daily_pnl s <= max_daily_loss (config s) ->
  fst (snd (check_entry fmt s d size e p)) = false.
Proof.
  intros [Hk | Hl].
  - now rewrite check_entry_kill_switch.
  - apply Qle_bool_iff in Hl. unfold check_entry.
    destruct (kill_switch_triggered s); [reflexivity |]. now rewrite Hl.
Qed.

(** C4 (as amended).  The kill switch, once set, stays set under
    [check_entry], [update_pnl] and [record_trade], and an operation
    that clears it is a [reset_day] whose clock reading lies on a later
    calendar day than the stored boundary; [check_entry] never allows an
    entry while the kill switch is set or while
    [daily_pnl <= max_daily_loss]; with [max_daily_loss = -300] the
    first [update_pnl(-150)] leaves the switch off, the second brings
    [daily_pnl] to -300 and sets it, and from then on, as long as no day
    advance is seen, every [check_entry] returns
    [(False, "KILL_SWITCH active")]. *)
Theorem kill_switch_latch (fmt : Q -> string) :
  (forall (s : t) (d : string) (size : Z) (e p pnl : Q),
     kill_switch_triggered s = true ->
     kill_switch_triggered (fst (check_entry fmt s d size e p)) = true /\
     kill_switch_triggered (update_pnl s pnl) = true /\
     kill_switch_triggered (record_trade s) = true) /\
  (forall (s : t) (o : op),
     kill_switch_triggered s = true ->
     kill_switch_triggered (step fmt s o) = false ->
     exists now1 now2,
       o = OpResetDay now1 now2 /\
       (dt_date (daily_start s) < dt_date now1)%Z) /\
  (forall (s : t) (d : string) (size : Z) (e p : Q),
     kill_switch_triggered s = true \/
     daily_pnl s <= max_daily_loss (config s) ->
     fst (snd (check_entry fmt s d size e p)) = false) /\
  (forall (cfg : RiskConfig) (now : datetime),
     max_daily_loss cfg = -300 ->
     let s1 := update_pnl (init (Some cfg) now) (-150) in
     let s2 := update_pnl s1 (-150) in
     kill_switch_triggered s1 = false /\
     daily_pnl s2 == -300 /\
     kill_switch_triggered s2 = true /\
     forall (ops : list op) (d : string) (size : Z) (e p : Q),
       same_day fmt s2 ops = true ->
       snd (check_entry fmt (run fmt s2 ops) d size e p)
       = (false, "KILL_SWITCH active"%string)).
Proof.
  split; [| split; [| split]].
  - intros s d size e p pnl Hk. repeat split.
    + apply (step_keeps_kill_switch fmt s (OpCheckEntry d size e p) Hk eq_refl).
    + apply (step_keeps_kill_switch fmt s (OpUpdatePnl pnl) Hk eq_refl).
    + exact Hk.
  - intros s o Hk Hoff.
    destruct (is_day_advance s o) eqn:Hadv.
    + destruct o as [d n e p | pnl | | n1 n2]; try discriminate.
      exists n1, n2. split; [reflexivity |]. now apply Z.ltb_lt.
    + rewrite (step_keeps_kill_switch fmt s o Hk Hadv) in Hoff. discriminate.
  - intros s d size e p. apply check_entry_blocked.
  - intros cfg now Hcfg s1 s2.
    assert (H1 : fadd 0 (-150) = -150) by (vm_compute; reflexivity).
    assert (H2 : fadd (-150) (-150) = -300) by (vm_compute; reflexivity).
    assert (Hk2 : kill_switch_triggered s2 = true).
    { subst s2 s1. unfold update_pnl, init.
      cbn [daily_pnl config kill_switch_triggered]. rewrite H1, H2, Hcfg. reflexivity. }
    split; [| split; [| split]].
    + subst s1. unfold update_pnl, init.
      cbn [daily_pnl config kill_switch_triggered]. rewrite H1, Hcfg. reflexivity.
    + subst s2 s1. unfold update_pnl, init.
      cbn [daily_pnl config kill_switch_triggered]. rewrite H1, H2. reflexivity.
    + exact Hk2.
    + intros ops d size e p Hsame.
      rewrite check_entry_kill_switch; [reflexivity |].
      now apply run_keeps_kill_switch.
Qed.

(** C4, the claim as first stated fails on the reason text: after the
    two losses the answer is [(False, "KILL_SWITCH active")]. *)
Lemma kill_switch_reason_counterexample :
  let cfg := {| max_daily_loss := -300; max_position_size := 2;
                max_trades_per_day := 10; position_size_pct := literal 2 100;
                account_balance := 5000; r_per_trade := 50 |} in
  let s2 := update_pnl (update_pnl (init (Some cfg) (mk_datetime 0 0)) (-150)) (-150) in
  snd (check_entry (fun _ => EmptyString) s2 "Buy" 1 20500 20470)
  = (false, "KILL_SWITCH active"%string) /\
  (false, "KILL_SWITCH active"%string) <> (false, "KILL_SWITCH"%string).
Proof. split; [reflexivity | discriminate]. Qed.

Example kill_switch_latch_run :
  let cfg := {| max_daily_loss := -300; max_position_size := 2;
                max_trades_per_day := 10; position_size_pct := literal 2 100;
                account_balance := 5000; r_per_trade := 50 |} in
  let s2 := update_pnl (update_pnl (init (Some cfg) (mk_datetime 100 0)) (-150)) (-150) in
  let ops := [OpUpdatePnl 1000; OpRecordTrade;
              OpResetDay (mk_datetime 100 5) (mk_datetime 100 6);
              OpCheckEntry "Sell" 1 20500 20800] in
  same_day (fun _ => EmptyString) s2 ops = true /\
  kill_switch_triggered (run (fun _ => EmptyString) s2 ops) = true.
Proof. split; reflexivity. Qed.

(** *** The day reset *)

Lemma reset_day_advance (s : t) (now1 now2 : datetime) :
  (dt_date (daily_start s) < dt_date now1)%Z ->
  reset_day s now1 now2 =
  {| config := config s; daily_pnl := 0; trades_today := 0;
     daily_start := now2; kill_switch_triggered := false |}.
Proof. intros H. unfold reset_day. apply Z.ltb_lt in H. now rewrite H. Qed.

Lemma reset_day_same_day (s : t) (now1 now2 : datetime) :
  (dt_date now1 <= dt_date (daily_start s))%Z ->
  reset_day s now1 now2 = s.
Proof. intros H. unfold reset_day. apply Z.ltb_ge in H. now rewrite H. Qed.

(** After a call whose two clock readings lie on the day [d], the
    boundary is not before [d], provided it was not after it. *)
Lemma reset_day_boundary (s : t) (now1 now2 : datetime) :
  dt_date now2 = dt_date now1 ->
  (dt_date (daily_start s) <= dt_date now1)%Z ->
  dt_date (daily_start (reset_day s now1 now2)) = dt_date now1.
Proof.
  intros H2 Hle. unfold reset_day.
  destruct (dt_date (daily_start s) <? dt_date now1)%Z eqn:E; simpl.
  - exact H2.
  - apply Z.ltb_ge in E. lia.
Qed.

Lemma reset_day_twice (s : t) (now1 now2 now3 now4 : datetime) :
  dt_date now2 = dt_date now1 ->
  dt_date now3 = dt_date now1 ->
  reset_day (reset_day s now1 now2) now3 now4 = reset_day s now1 now2.
Proof.
  intros H2 H3. apply reset_day_same_day. rewrite H3.
  unfold reset_day.
  destruct (dt_date (daily_start s) <? dt_date now1)%Z eqn:E; simpl.
  - lia.
  - now apply Z.ltb_ge.
Qed.

(** Along calls whose days never go back, the resets are the day
    changes. *)
Lemma resets_count (calls : list (datetime * datetime)) (s : t) :
  Forall (fun c => dt_date (snd c) = dt_date (fst c)) calls ->
  forward (dt_date (daily_start s)) (map (fun c => dt_date (fst c)) calls) ->
  resets s calls =
  day_transitions (dt_date (daily_start s)) (map (fun c => dt_date (fst c)) calls).
Proof.
  revert s. induction calls as [| [n1 n2] calls IH]; intros s Hin Hfw.
  - reflexivity.
  - inversion Hin as [| c l Hc Hrest]; subst. simpl in Hc.
    destruct Hfw as [Hle Hfw]. simpl in Hle, Hfw. simpl.
    pose proof (reset_day_boundary s n1 n2 Hc Hle) as Hb.
    rewrite IH; [| exact Hrest | now rewrite Hb].
    now rewrite Hb.
Qed.

(** C7.  A second [reset_day] within the calendar day of the first one
    changes nothing ([daily_pnl], [trades_today], the kill switch and the
    day boundary are as the first call left them).  [reset_day] clears
    [daily_pnl], [trades_today] and the kill switch when, and only when,
    the current date is later than the date of the stored boundary, and
    along a run of calls it does so once per change of day. *)
Theorem reset_day_once_per_day :
  (forall (s : t) (now1 now2 now3 now4 : datetime),
     dt_date now2 = dt_date now1 ->
     dt_date now3 = dt_date now1 ->
     reset_day (reset_day s now1 now2) now3 now4 = reset_day s now1 now2) /\
  (forall (s : t) (now1 now2 : datetime),
     (dt_date (daily_start s) < dt_date now1)%Z ->
     let s' := reset_day s now1 now2 in
     daily_pnl s' = 0 /\ trades_today s' = 0%Z /\
     kill_switch_triggered s' = false /\ daily_start s' = now2 /\
     config s' = config s) /\
  (forall (s : t) (now1 now2 : datetime),
     ~ (dt_date (daily_start s) < dt_date now1)%Z ->
     reset_day s now1 now2 = s) /\
  (forall (s : t) (calls : list (datetime * datetime)),
     Forall (fun c => dt_date (snd c) = dt_date (fst c)) calls ->
     forward (dt_date (daily_start s)) (map (fun c => dt_date (fst c)) calls) ->
     resets s calls =
     day_transitions (dt_date (daily_start s))
       (map (fun c => dt_date (fst c)) calls)).
Proof.
  split; [| split; [| split]].
  - apply reset_day_twice.
  - intros s now1 now2 H s'. subst s'. rewrite (reset_day_advance _ _ _ H).
    repeat split.
  - intros s now1 now2 H. apply reset_day_same_day. lia.
  - intros s calls. apply resets_count.
Qed.

(** Three calls on the day after the boundary and one two days later:
    two resets, and the counters are clear at the end. *)
Example reset_day_run :
  let s := {| config := default_config; daily_pnl := -620; trades_today := 4;
              daily_start := mk_datetime 738000 100;
              kill_switch_triggered := true |} in
  let calls := [(mk_datetime 738000 200, mk_datetime 738000 201);
                (mk_datetime 738001 10, mk_datetime 738001 11);
                (mk_datetime 738001 500, mk_datetime 738001 501);
                (mk_datetime 738003 0, mk_datetime 738003 1)] in
  resets s calls = 2%nat /\
  day_transitions 738000 [738000; 738001; 738001; 738003]%Z = 2%nat /\
  reset_day (reset_day s (mk_datetime 738001 10) (mk_datetime 738001 11))
    (mk_datetime 738001 500) (mk_datetime 738001 501)
  = reset_day s (mk_datetime 738001 10) (mk_datetime 738001 11).
Proof. repeat split. Qed.

(** *** Stops and targets *)

Lemma calculate_stop_atr_sell (entry atr : Q) :
  ~ atr == 0 ->
  calculate_stop entry "Sell" (Some atr) = fsub entry (fmul (- atr) 2).
Proof.
  intros H. unfold calculate_stop. apply truthy_Q_iff in H. now rewrite H.
Qed.

Lemma calculate_stop_atr_buy (entry atr : Q) :
  ~ atr == 0 ->
  calculate_stop entry "Buy" (Some atr) == fsub entry (fmul atr 2).
Proof.
  intros H. unfold calculate_stop. apply truthy_Q_iff in H. rewrite H.
  cbn [String.eqb Ascii.eqb Bool.eqb].
  destruct (truthy_Q (fmul atr 2)) eqn:E; [reflexivity |].
  assert (Z : fmul atr 2 == 0).
  { unfold truthy_Q in E. apply negb_false_iff in E. now apply Qeq_bool_iff. }
  apply fsub_proper; [reflexivity |]. rewrite fmul_opp_l, Z. reflexivity.
Qed.

(** C9 (as amended).  For a Sell the ATR branch of [calculate_stop] is
    not inverted with respect to the fixed-points branch.  For every
    binary64 entry and every [atr > 0] it returns the [float] sum
    [entry + atr * 2] (computed as [entry - (-atr * 2)]), as the
    fixed-points branch returns the [float] sum [entry + 30]; neither is
    ever below the entry, and for a Buy, where the branches return
    [entry - atr * 2] and [entry - 30], neither is ever above it.  When
    the entry is below [2 ^ 52] in magnitude and [atr] is at least one
    half the four stops differ from the entry: the two Sell stops are
    above it and the two Buy stops below. *)
Theorem calculate_stop_sides (entry atr : Q) :
  0 < atr ->
  binary64 entry ->
  let sell_atr := calculate_stop entry "Sell" (Some atr) in
  let sell_fixed := calculate_stop entry "Sell" None in
  let buy_atr := calculate_stop entry "Buy" (Some atr) in
  let buy_fixed := calculate_stop entry "Buy" None in
  sell_atr == fadd entry (fmul atr 2) /\
  sell_fixed = fadd entry 30 /\
  buy_atr == fsub entry (fmul atr 2) /\
  buy_fixed = fsub entry 30 /\
  entry <= sell_atr /\ entry <= sell_fixed /\
  buy_atr <= entry /\ buy_fixed <= entry /\
  (Qabs entry <= inject_Z (2 ^ 52 - 1) -> 1 # 2 <= atr ->
   entry < sell_atr /\ entry < sell_fixed /\
   buy_atr < entry /\ buy_fixed < entry).
Proof.
  intros Hpos [Hentry _].
  assert (Hne : ~ atr == 0) by lra.
  assert (Hsell : calculate_stop entry "Sell" (Some atr) == fadd entry (fmul atr 2)).
  { rewrite (calculate_stop_atr_sell entry atr Hne).
    rewrite fmul_opp_l. apply fsub_opp. }
  pose proof (calculate_stop_atr_buy entry atr Hne) as Hbuy.
  assert (Hoff : 0 <= fmul atr 2) by (apply fmul_nonneg; lra).
  cbv zeta. rewrite Hsell, Hbuy.
  change (calculate_stop entry "Sell" None) with (fadd entry 30).
  change (calculate_stop entry "Buy" None) with (fsub entry 30).
  split; [reflexivity |]. split; [reflexivity |].
  split; [reflexivity |]. split; [reflexivity |].
  split; [now apply fadd_ge |]. split; [apply fadd_ge; [exact Hentry | lra] |].
  split; [now apply fsub_le |]. split; [apply fsub_le; [exact Hentry | lra] |].
  intros Hmag Hatr. pose proof (fmul_2_ge_1 atr Hatr) as H1.
  split; [now apply fadd_gt |]. split; [apply fadd_gt; [exact Hentry | exact Hmag | lra] |].
  split; [now apply fsub_lt |]. apply fsub_lt; [exact Hentry | exact Hmag | lra].
Qed.

Lemma calculate_stop_sides_witness :
  0 < 10 /\ binary64 20500 /\
  calculate_stop 20500 "Sell" (Some 10) == fadd 20500 (fmul 10 2) /\
  calculate_stop 20500 "Sell" None = fadd 20500 30 /\
  20500 < calculate_stop 20500 "Sell" (Some 10) /\
  20500 < calculate_stop 20500 "Sell" None /\
  calculate_stop 20500 "Buy" (Some 10) < 20500 /\
  calculate_stop 20500 "Buy" None < 20500.
Proof.
  assert (H1 : 0 < 10) by reflexivity.
  assert (H2 : binary64 20500) by (split; vm_compute; reflexivity).
  assert (H3 : Qabs 20500 <= inject_Z (2 ^ 52 - 1)) by (vm_compute; discriminate).
  assert (H4 : 1 # 2 <= 10) by (vm_compute; discriminate).
  destruct (calculate_stop_sides 20500 10 H1 H2)
    as (A & B & _ & _ & _ & _ & _ & _ & S).
  destruct (S H3 H4) as (S1 & S2 & S3 & S4).
  split; [exact H1 |]. split; [exact H2 |]. split; [exact A |].
  split; [exact B |]. split; [exact S1 |]. split; [exact S2 |].
  split; [exact S3 | exact S4].
Defined.

(** C9, the claim as first stated fails: with entry 20500 and ATR 10 the
    Sell stop of the ATR branch is 20520, above the entry like the
    fixed-points stop 20530. *)
Lemma calculate_stop_sell_counterexample :
  calculate_stop 20500 "Sell" (Some 10) == 20520 /\
  calculate_stop 20500 "Sell" None == 20530 /\
  20500 < calculate_stop 20500 "Sell" (Some 10) /\
  20500 < calculate_stop 20500 "Sell" None.
Proof. vm_compute. repeat split. Qed.

(** An ATR too small for the entry's precision leaves the stop on the
    entry: the sum rounds back to it. *)
Example calculate_stop_absorbed :
  let atr := literal 1 10000000000000 in
  0 < atr /\ calculate_stop 20500 "Sell" (Some atr) == 20500.
Proof. vm_compute. repeat split. Qed.

End RiskManagerFacts.

(** ** Profit targets *)

Module TargetFacts.
Import Py Binary64Facts.
Local Open Scope Q_scope.

(** C6 (as amended).  The strategy's [calculate_target], the one the
    coordinator calls, returns [entry + |entry - stop|] for a Buy and
    [entry - |entry - stop|] for a Sell: the multiple is 1 and is not a
    parameter.  The risk manager's [calculate_target] returns
    [entry + risk * 2] for a Buy and [entry - risk * 2] for a Sell, where
    [risk] is its optional argument and defaults to [|entry - stop|]; with
    the argument given the stop plays no part.  Sums, differences and
    products are the [float] ones, and for a binary64 entry a Buy target
    is never below the entry and a Sell target never above it.  For entry
    20545 and stop 20505 the risk is 40, the strategy's Buy target is
    20585 and the risk manager's is 20625. *)
Theorem calculate_target_formula :
  (forall entry stop : Q,
     Momentum30pt.calculate_target entry stop "Buy"
       = fadd entry (Qabs (fsub entry stop)) /\
     Momentum30pt.calculate_target entry stop "Sell"
       = fsub entry (Qabs (fsub entry stop))) /\
  (forall entry stop : Q,
     RiskManager.calculate_target entry "Buy" stop None
       = fadd entry (fmul (Qabs (fsub entry stop)) 2) /\
     RiskManager.calculate_target entry "Sell" stop None
       = fsub entry (fmul (Qabs (fsub entry stop)) 2)) /\
  (forall entry stop risk : Q,
     RiskManager.calculate_target entry "Buy" stop (Some risk)
       = fadd entry (fmul risk 2) /\
     RiskManager.calculate_target entry "Sell" stop (Some risk)
       = fsub entry (fmul risk 2)) /\
  (forall entry stop : Q,
     binary64 entry ->
     entry <= Momentum30pt.calculate_target entry stop "Buy" /\
     Momentum30pt.calculate_target entry stop "Sell" <= entry /\
     entry <= RiskManager.calculate_target entry "Buy" stop None /\
     RiskManager.calculate_target entry "Sell" stop None <= entry) /\
  Qabs (fsub 20545 20505) == 40 /\
  Momentum30pt.calculate_target 20545 20505 "Buy" == 20585 /\
  RiskManager.calculate_target 20545 "Buy" 20505 None == 20625.
Proof.
  split; [| split; [| split; [| split]]].
  - intros entry stop. split; reflexivity.
  - intros entry stop. split; reflexivity.
  - intros entry stop risk. split; reflexivity.
  - intros entry stop [Hentry _].
    pose proof (Qabs_nonneg (fsub entry stop)) as Hrisk.
    assert (H2 : 0 <= fmul (Qabs (fsub entry stop)) 2)
      by (apply fmul_nonneg; lra).
    split; [now apply fadd_ge |]. split; [now apply fsub_le |].
    split; [now apply fadd_ge | now apply fsub_le].
  - vm_compute. repeat split.
Qed.

(** C6, the claim as first stated fails on the risk manager's
    [calculate_target]: its multiple is 2, so for entry 20545 and stop
    20505 the Buy target is 20625 and not 20585; and with the [risk]
    argument given (here 10) the result, 20565, does not depend on
    [|entry - stop| = 40] at all. *)
Lemma calculate_target_multiple_counterexample :
  RiskManager.calculate_target 20545 "Buy" 20505 None == 20625 /\
  ~ 20625 == 20545 + 1 * Qabs (20545 - 20505) /\
  RiskManager.calculate_target 20545 "Buy" 20505 (Some 10) == 20565 /\
  RiskManager.calculate_target 20545 "Buy" 20000 (Some 10) == 20565.
Proof. vm_compute. repeat split; discriminate. Qed.

(** The scenario of the specification, end to end: closes 20510 then
    20545 with a breakout low of 20505. *)
Example breakout_scenario :
  let t0 := Py.mk_datetime 738000 0 in
  let a := Momentum30pt.mk_candle 20500 20520 20490 20510 1000 t0 in
  let b := Momentum30pt.mk_candle 20510 20545 20505 20545 1200 t0 in
  match snd (Momentum30pt.on_candle_close (Momentum30pt.feed [a]) b) with
  | Some sig =>
      Momentum30pt.direction sig = "Buy"%string /\
      Momentum30pt.entry_price sig = 20545 /\
      Momentum30pt.stop_price sig = 20505 /\
      Momentum30pt.risk_points sig == 40 /\
      Momentum30pt.calculate_target (Momentum30pt.entry_price sig)
        (Momentum30pt.stop_price sig) (Momentum30pt.direction sig) == 20585
  | None => False
  end.
Proof. vm_compute. repeat split. Qed.

(** Where the rounding decides.  The closes written 0.2 and 30.2 are
    binary64 numbers whose exact difference is below 30; the [float]
    difference is 30 and a Buy signal is emitted.  The closes written
    16354.1 and 16384.1 are 30 apart as decimals; as binary64 numbers
    their [float] difference is below 30 and nothing is emitted. *)
Example rounded_move_decides :
  let t0 := Py.mk_datetime 738000 0 in
  let candle := fun x => Momentum30pt.mk_candle x x x x 1 t0 in
  let a := literal 2 10 in
  let b := literal 302 10 in
  let c := literal 163541 10 in
  let d := literal 163841 10 in
  b - a < 30 /\
  fsub b a == 30 /\
  is_Some (snd (Momentum30pt.on_candle_close (Momentum30pt.feed [candle a]) (candle b))) /\
  (163841 # 10) - (163541 # 10) == 30 /\
  fsub d c < 30 /\
  snd (Momentum30pt.on_candle_close (Momentum30pt.feed [candle c]) (candle d)) = None.
Proof.
  vm_compute. split; [reflexivity |]. split; [reflexivity |].
  split; [eexists; reflexivity |]. split; [reflexivity |].
  split; reflexivity.
Qed.

End TargetFacts.

(** ** Session renewal *)

Module TradovateAuthFacts.
Import Py Net TradovateAuth.

Lemma authenticate_requests (s : t) (now : datetime) (out : http AuthData) :
  snd (authenticate s now out) = [PostAccessTokenRequest].
Proof.
  unfold authenticate. destruct out as [| st [d |]]; try reflexivity;
    destruct (negb (st =? 200)%Z); reflexivity.
Qed.

Lemma authenticate_threshold (s : t) (now : datetime) (out : http AuthData) :
  renew_threshold (fst (fst (authenticate s now out))) = renew_threshold s.
Proof.
  unfold authenticate. destruct out as [| st [d |]]; try reflexivity;
    destruct (negb (st =? 200)%Z); reflexivity.
Qed.

(** The fallback paths of [renew_token]. *)
Lemma renew_token_no_token (s : t) (e : renew_env) :
  truthy_opt_str (access_token s) = false ->
  renew_token s e = authenticate s (auth_now e) (auth_out e).
Proof.
  unfold renew_token, truthy_opt_str.
  destruct (access_token s) as [[| c tok] |]; congruence.
Qed.

Lemma renew_token_failed (s : t) (e : renew_env) (tok : string) :
  access_token s = Some tok ->
  truthy_opt_str (Some tok) = true ->
  (renew_out e = HttpRaises \/
   (exists st d, renew_out e = HttpResponse st d /\ st <> 200%Z) \/
   (exists st, renew_out e = HttpResponse st None)) ->
  fst (renew_token s e) = fst (authenticate s (auth_now e) (auth_out e)) /\
  snd (renew_token s e) = [PostRenewAccessToken tok; PostAccessTokenRequest].
Proof.
  intros Htok Htruthy Hfail. unfold renew_token. rewrite Htok.
  destruct tok as [| c tok]; [discriminate |].
  pose proof (authenticate_requests s (auth_now e) (auth_out e)) as Hreq.
  destruct (authenticate s (auth_now e) (auth_out e)) as [[s' ok] reqs].
  simpl in Hreq. subst reqs.
  destruct Hfail as [-> | [(st & d & -> & Hst) | (st & ->)]].
  - now split.
  - apply Z.eqb_neq in Hst. rewrite Hst. now split.
  - destruct (st =? 200)%Z; now split.
Qed.

Lemma renew_token_renewed (s : t) (e : renew_env) (tok : string) (d : RenewData) :
  access_token s = Some tok ->
  truthy_opt_str (Some tok) = true ->
  renew_out e = HttpResponse 200 (Some d) ->
  renew_token s e =
  (set_renewed s (r_accessToken d) (renew_now e), true, [PostRenewAccessToken tok]).
Proof.
  intros Htok Htruthy Hout. unfold renew_token. rewrite Htok, Hout.
  destruct tok as [| c tok]; [discriminate | reflexivity].
Qed.

Lemma renew_token_threshold (s : t) (e : renew_env) :
  renew_threshold (fst (fst (renew_token s e))) = renew_threshold s.
Proof.
  unfold renew_token.
  pose proof (authenticate_threshold s (auth_now e) (auth_out e)) as Ha.
  destruct (authenticate s (auth_now e) (auth_out e)) as [[s' ok] reqs].
  simpl in Ha.
  destruct (access_token s) as [[| c tok] |]; try exact Ha.
  destruct (renew_out e) as [| st [d |]]; try exact Ha;
    destruct (st =? 200)%Z; try exact Ha; reflexivity.
Qed.

Lemma renew_token_requests (s : t) (e : renew_env) :
  snd (renew_token s e) <> [].
Proof.
  unfold renew_token.
  pose proof (authenticate_requests s (auth_now e) (auth_out e)) as Ha.
  destruct (authenticate s (auth_now e) (auth_out e)) as [[s' ok] reqs].
  simpl in Ha. subst reqs.
  destruct (access_token s) as [[| c tok] |]; try discriminate.
  destruct (renew_out e) as [| st [d |]]; try discriminate;
    destruct (st =? 200)%Z; discriminate.
Qed.

(** Every session of the program keeps the 75-minute threshold. *)
Lemma reachable_threshold (s : t) :
  reachable s -> renew_threshold s = 4500000000%Z.
Proof.
  induction 1 as [| s now out _ IH | s e _ IH].
  - reflexivity.
  - now rewrite authenticate_threshold.
  - now rewrite renew_token_threshold.
Qed.

(** C8.  Whenever a renewal fails (there is no access token, or the
    renewal request raises, answers with a status other than 200, or
    answers with an unreadable body), [renew_token] makes a full
    authentication attempt and returns its result; the round of the
    background task issues a request only when a token exists whose age
    has reached 75 minutes, and that round is a [renew_token]. *)
Theorem renew_token_fallback :
  (forall (s : t) (e : renew_env),
     truthy_opt_str (access_token s) = false \/
     renew_out e = HttpRaises \/
     (exists st d, renew_out e = HttpResponse st d /\ st <> 200%Z) \/
     (exists st, renew_out e = HttpResponse st None) ->
     fst (renew_token s e) = fst (authenticate s (auth_now e) (auth_out e)) /\
     In PostAccessTokenRequest (snd (renew_token s e))) /\
  (forall (s : t) (now : datetime) (e : renew_env),
     reachable s ->
     (snd (auto_renew_round s now e) <> [] <->
      exists created,
        token_created s = Some created /\
        (timedelta_minutes 75 <= dt_sub now created)%Z) /\
     (snd (auto_renew_round s now e) <> [] ->
      auto_renew_round s now e =
      (fst (fst (renew_token s e)), snd (renew_token s e)))).
Proof.
  split.
  - intros s e [Hno | Hfail].
    + rewrite (renew_token_no_token s e Hno). split; [reflexivity |].
      rewrite authenticate_requests. now left.
    + destruct (truthy_opt_str (access_token s)) eqn:Htr.
      * destruct (access_token s) as [tok |] eqn:Htok; [| discriminate].
        destruct (renew_token_failed s e tok Htok Htr Hfail) as [H1 H2].
        split; [exact H1 |]. rewrite H2. right. now left.
      * rewrite (renew_token_no_token s e Htr). split; [reflexivity |].
        rewrite authenticate_requests. now left.
  - intros s now e Hreach.
    pose proof (reachable_threshold s Hreach) as Hthr.
    pose proof (renew_token_requests s e) as Hreq.
    unfold auto_renew_round. rewrite Hthr.
    destruct (token_created s) as [created |]; simpl.
    + destruct (4500000000 <=? dt_sub now created)%Z eqn:E.
      * destruct (renew_token s e) as [[s' ok] reqs]. simpl in *.
        split; [| reflexivity].
        split; [intros _ | intros _; exact Hreq].
        exists created. split; [reflexivity |]. now apply Z.leb_le in E.
      * apply Z.leb_gt in E. simpl. split.
        -- split; [congruence |].
           intros (c & [= <-] & Hle). unfold timedelta_minutes in Hle. lia.
        -- congruence.
    + split; [| congruence].
      split; [congruence | intros (c & [=] & _)].
Qed.

(** A renewal refused with status 401 re-authenticates; a token of 74
    minutes is left alone and one of 75 minutes is renewed. *)
Example renew_token_fallback_run :
  let s0 := init "user" "pw" "sec" None "demo" in
  let t0 := mk_datetime 738000 0 in
  let data := {| d_accessToken := Some "tok1"%string;
                 d_mdAccessToken := Some "md1"%string;
                 d_userId := Some 7%Z; d_accountId := Some 42%Z |} in
  let s1 := fst (fst (authenticate s0 t0 (HttpResponse 200 (Some data)))) in
  let e := {| renew_now := mk_datetime 738000 4500000000;
              renew_out := HttpResponse 401 None;
              auth_now := mk_datetime 738000 4500000001;
              auth_out := HttpResponse 200 (Some data) |} in
  snd (renew_token s1 e) = [PostRenewAccessToken "tok1"; PostAccessTokenRequest] /\
  snd (fst (renew_token s1 e)) = true /\
  snd (auto_renew_round s1 (mk_datetime 738000 4499999999) e) = [] /\
  snd (auto_renew_round s1 (mk_datetime 738000 4500000000) e)
  = [PostRenewAccessToken "tok1"; PostAccessTokenRequest].
Proof. repeat split. Qed.

End TradovateAuthFacts.

(** ** Orders *)

Module OrderManagerFacts.
Import Py PyFacts Net OrderManager.
Local Open Scope Q_scope.





(** A Limit order at price 0 and a Stop order at stop price 0 go out
    without the field; a price given with a Market order is dropped; a
    Limit order at 20585 carries it. *)
Example place_order_body_samples :
  let data := {| TradovateAuth.d_accessToken := Some "tok1"%string;
                 TradovateAuth.d_mdAccessToken := Some "md1"%string;
                 TradovateAuth.d_userId := Some 7%Z;
                 TradovateAuth.d_accountId := Some 42%Z |} in
  let auth := fst (fst (TradovateAuth.authenticate
                          (TradovateAuth.init "user" "pw" "sec" None "demo")
                          (mk_datetime 738000 0) (HttpResponse 200 (Some data)))) in
  let body ty price stop :=
    place_order_body (fun _ => None) auth "MNQH6" "Sell" 1 ty price stop "Day" in
  let field key r :=
    match r with Ok b => Some (b !! key) | Raise _ => None end in
  field "price"%string (body "Limit"%string (Some 0) None) = Some None /\
  field "stopPrice"%string (body "Stop"%string None (Some 0)) = Some None /\
  field "price"%string (body "Market"%string (Some 20585) None) = Some None /\
  field "price"%string (body "Limit"%string (Some 20585) None)
    = Some (Some (JNum 20585)) /\
  field "accountId"%string (body "Limit"%string (Some 20585) None)
    = Some (Some (JInt 42)).
Proof. repeat split. Qed.

(** *** Flattening *)

(** With an authenticated session, the loop of [flatten_all] sends one
    cancellation per record of the list, whatever the record's status. *)
Lemma cancel_each_requests (auth : TradovateAuth.t)
    (orders : list OrderRecord) (self : t) (outs : nat -> http unit) :
  is_Some (TradovateAuth.access_token auth) ->
  TradovateAuth.access_token auth <> Some EmptyString ->
  exists self',
    cancel_each self auth orders outs
    = Ok (self', map (fun o => PostCancelOrder (orderId o)) orders).
Proof.
  intros [tok Htok] Hne.
  assert (Hh : exists h, TradovateAuth.get_auth_headers auth = Ok h).
  { unfold TradovateAuth.get_auth_headers. rewrite Htok.
    destruct tok; [congruence | eauto]. }
  destruct Hh as [h Hh].
  revert self outs. induction orders as [| o orders IH]; intros self outs.
  - eexists. reflexivity.
  - simpl. unfold cancel_order at 1. rewrite Hh. simpl.
    destruct (outs 0%nat) as [| st d]; simpl.
    + destruct (IH self (fun i => outs (S i))) as [s' ->]. simpl. eauto.
    + destruct (st =? 200)%Z; simpl;
        match goal with
        | |- context [cancel_each ?s auth orders ?f] =>
            destruct (IH s f) as [s' ->]; simpl; eauto
        end.
Qed.

Lemma cancelled_ids_app (l1 l2 : list request) :
  cancelled_ids (l1 ++ l2) = cancelled_ids l1 ++ cancelled_ids l2.
Proof. unfold cancelled_ids. apply omap_app. Qed.

Lemma cancelled_ids_cancels (orders : list OrderRecord) :
  cancelled_ids (map (fun o => PostCancelOrder (orderId o)) orders)
  = map orderId orders.
Proof.
  induction orders as [| o orders IH]; [reflexivity |].
  unfold cancelled_ids in *. simpl in *. f_equal. exact IH.
Qed.

(** C5, what the code does: with an authenticated session,
    [flatten_all] sends a cancellation for every record of the list the
    broker returns, in order, whatever the record's status; the [status]
    argument of [get_orders] filters nothing. *)
Theorem flatten_all_cancels_whole_list (self : t) (auth : TradovateAuth.t)
    (orders : list OrderRecord) (outs : nat -> http unit) :
  is_Some (TradovateAuth.access_token auth) ->
  TradovateAuth.access_token auth <> Some EmptyString ->
  exists self' reqs,
    flatten_all self auth (HttpResponse 200 (Some orders)) outs
    = Ok (self', true, reqs) /\
    cancelled_ids reqs = map orderId orders /\
    (forall o, In o orders -> In (orderId o) (cancelled_ids reqs)).
Proof.
  intros Hsome Hne.
  destruct (cancel_each_requests auth orders self outs Hsome Hne) as [s' Hc].
  unfold flatten_all, get_orders.
  destruct Hsome as [tok Htok].
  unfold TradovateAuth.get_auth_headers. rewrite Htok.
  destruct tok as [| c tok]; [congruence |]. simpl.
  rewrite Hc. simpl. eexists _, _. split; [reflexivity |].
  assert (Hids : cancelled_ids
                   (GetOrderList :: map (fun o => PostCancelOrder (orderId o)) orders)
                 = map orderId orders).
  { unfold cancelled_ids at 1. simpl. apply cancelled_ids_cancels. }
  split; [exact Hids |].
  intros o Ho. rewrite Hids. now apply in_map.
Qed.

Lemma flatten_all_cancels_whole_list_witness :
  let data := {| TradovateAuth.d_accessToken := Some "tok1"%string;
                 TradovateAuth.d_mdAccessToken := Some "md1"%string;
                 TradovateAuth.d_userId := Some 7%Z;
                 TradovateAuth.d_accountId := Some 42%Z |} in
  let auth := fst (fst (TradovateAuth.authenticate
                          (TradovateAuth.init "user" "pw" "sec" None "demo")
                          (mk_datetime 738000 0) (HttpResponse 200 (Some data)))) in
  let orders := [ {| orderId := Some 1%Z; ordStatus := "Working" |};
                  {| orderId := Some 2%Z; ordStatus := "Filled" |};
                  {| orderId := Some 3%Z; ordStatus := "Cancelled" |} ] in
  exists self' reqs,
    flatten_all init auth (HttpResponse 200 (Some orders))
      (fun _ => HttpResponse 200 None)
    = Ok (self', true, reqs) /\
    cancelled_ids reqs = map orderId orders /\
    (forall o, In o orders -> In (orderId o) (cancelled_ids reqs)).
Proof.
  intros data auth orders.
  apply (flatten_all_cancels_whole_list init auth orders
           (fun _ => HttpResponse 200 None)).
  - exists "tok1"%string. reflexivity.
  - discriminate.
Defined.

(** The broker lists a Working, a Filled and a Cancelled order:
    [flatten_all] sends a cancellation for each of the three. *)
Example flatten_all_cancels_filled_order :
  let data := {| TradovateAuth.d_accessToken := Some "tok1"%string;
                 TradovateAuth.d_mdAccessToken := Some "md1"%string;
                 TradovateAuth.d_userId := Some 7%Z;
                 TradovateAuth.d_accountId := Some 42%Z |} in
  let auth := fst (fst (TradovateAuth.authenticate
                          (TradovateAuth.init "user" "pw" "sec" None "demo")
                          (mk_datetime 738000 0) (HttpResponse 200 (Some data)))) in
  let orders := [ {| orderId := Some 1%Z; ordStatus := "Working" |};
                  {| orderId := Some 2%Z; ordStatus := "Filled" |};
                  {| orderId := Some 3%Z; ordStatus := "Cancelled" |} ] in
  match flatten_all init auth (HttpResponse 200 (Some orders))
          (fun _ => HttpResponse 200 None) with
  | Ok (_, _, reqs) =>
      reqs = [GetOrderList; PostCancelOrder (Some 1%Z);
              PostCancelOrder (Some 2%Z); PostCancelOrder (Some 3%Z)] /\
      cancelled_ids reqs = [Some 1%Z; Some 2%Z; Some 3%Z]
  | Raise _ => False
  end.
Proof. split; reflexivity. Qed.

End OrderManagerFacts.

(** ** The execution guard *)

Module MNQTradingBotFacts.
Import Py Net MNQTradingBot.
Local Open Scope Q_scope.

Section Guard.
Variable fmt_float : Q -> string.
Variable int_of_str : string -> option Z.

(** With a strategy in place, [_execute_signal] stops at the read of
    [self.position]: nothing is emitted, the object is unchanged. *)
Lemma _execute_signal_started (self : t) (strat : Momentum30pt.t)
    (signal : Momentum30pt.Signal) (e : exec_env) :
  strategy self = Some strat ->
  _execute_signal fmt_float int_of_str signal e self
  = (self, [], Raise (AttributeError "position")).
Proof.
  intros Hs. unfold _execute_signal, execute_signal_with, bindM, get,
    component, lift, attr_position.
  rewrite Hs. reflexivity.
Qed.

(** The body with the read of the tracked position in the place of
    [self.position]: a nonzero quantity ends the call at the guard. *)
Lemma guard_blocks_open_position (self : t) (strat : Momentum30pt.t)
    (md : MarketData.t) (p : MarketData.Position)
    (signal : Momentum30pt.Signal) (e : exec_env) :
  strategy self = Some strat ->
  market_data self = Some md ->
  MarketData.get_position md (symbol self) = Some p ->
  MarketData.p_qty p <> 0%Z ->
  execute_signal_with fmt_float int_of_str tracked_position signal e self
  = (self, [EvGuardrail (MarketData.p_qty p)], Ok tt).
Proof.
  intros Hs Hmd Hp Hq.
  unfold execute_signal_with, bindM, get, component, lift, tracked_position.
  rewrite Hs, Hmd, Hp. simpl.
  apply Z.eqb_neq in Hq. rewrite Hq. reflexivity.
Qed.

(** ... and no position, or a flat one, lets the call go on to the
    risk check. *)
Lemma guard_passes_flat_position (self : t) (strat : Momentum30pt.t)
    (md : MarketData.t) (signal : Momentum30pt.Signal) (e : exec_env) :
  strategy self = Some strat ->
  market_data self = Some md ->
  match MarketData.get_position md (symbol self) with
  | Some p => MarketData.p_qty p = 0%Z
  | None => True
  end ->
  execute_signal_with fmt_float int_of_str tracked_position signal e self
  = checked_execution fmt_float int_of_str signal
      (Momentum30pt.calculate_target (Momentum30pt.entry_price signal)
         (Momentum30pt.stop_price signal) (Momentum30pt.direction signal))
      e self.
Proof.
  intros Hs Hmd Hp.
  unfold execute_signal_with, bindM, get, component, lift, tracked_position.
  rewrite Hs, Hmd. simpl.
  destruct (MarketData.get_position md (symbol self)) as [p |]; simpl.
  - rewrite Hp. simpl.
    destruct (checked_execution _ _ _ _ _ _) as [[s2 tr2] r2]. reflexivity.
  - destruct (checked_execution _ _ _ _ _ _) as [[s2 tr2] r2]. reflexivity.
Qed.

(** The risk check is the first thing [checked_execution] does. *)
Lemma checked_execution_checks_risk (self : t) (r : RiskManager.t)
    (signal : Momentum30pt.Signal) (target : Q) (e : exec_env) :
  risk self = Some r ->
  exists rest,
    snd (fst (checked_execution fmt_float int_of_str signal target e self))
    = EvRiskCheck (Momentum30pt.direction signal) 1
        (Momentum30pt.entry_price signal) (Momentum30pt.stop_price signal)
      :: rest.
Proof.
  intros Hr. unfold checked_execution, bindM, get, component, emit.
  rewrite Hr. simpl.
  destruct (RiskManager.check_entry _ _ _ _ _ _) as [r' [allowed reason]].
  destruct allowed; simpl; [| eexists; reflexivity].
  destruct (paper_mode self).
  - destruct (_paper_trade signal target (paper_now e) (set_risk self r'))
      as [[s2 tr2] r2].
    simpl. eexists. reflexivity.
  - destruct (_live_trade int_of_str signal target e (set_risk self r'))
      as [[s2 tr2] r2].
    simpl. eexists. reflexivity.
Qed.
End Guard.

(** C2, the code on every input: [_execute_signal] never reaches the
    guard's test.  On a bot whose components exist it raises
    [AttributeError] at [self.position]; before [start] it raises at
    [self.strategy.calculate_target].  In both cases nothing is emitted
    and the bot is unchanged: no guardrail message, no risk check, no
    order, no paper record, also when the tracked position is flat. *)
Theorem _execute_signal_raises (fmt_float : Q -> string)
    (int_of_str : string -> option Z) (self : t)
    (signal : Momentum30pt.Signal) (e : exec_env) :
  exists attribute,
    _execute_signal fmt_float int_of_str signal e self
    = (self, [], Raise (AttributeError attribute)) /\
    (is_Some (strategy self) -> attribute = "position"%string).
Proof.
  destruct (strategy self) as [strat |] eqn:Hs.
  - exists "position"%string. split; [| reflexivity].
    now apply _execute_signal_started with strat.
  - exists "calculate_target"%string. split.
    + unfold _execute_signal, execute_signal_with, bindM, get, component.
      rewrite Hs. reflexivity.
    + intros [x Hx]. discriminate.
Qed.

(** A started paper-mode bot with no tracked position and the breakout
    signal of the scenario: the call raises where the claim has it
    proceed to the risk check. *)
Example _execute_signal_flat_position :
  let t0 := mk_datetime 738000 0 in
  let data := {| TradovateAuth.d_accessToken := Some "tok1"%string;
                 TradovateAuth.d_mdAccessToken := Some "md1"%string;
                 TradovateAuth.d_userId := Some 7%Z;
                 TradovateAuth.d_accountId := Some 42%Z |} in
  let a := fst (fst (TradovateAuth.authenticate
                       (TradovateAuth.init "user" "pw" "sec" None "demo")
                       t0 (HttpResponse 200 (Some data)))) in
  let md := {| MarketData.connected := true; MarketData.positions := ∅ |} in
  let bot := started (init true "MNQH6") a md t0 in
  let c := Momentum30pt.mk_candle 20510 20545 20505 20545 1200 t0 in
  let signal := {| Momentum30pt.direction := "Buy";
                   Momentum30pt.entry_price := 20545;
                   Momentum30pt.stop_price := 20505;
                   Momentum30pt.breakout_candle := c;
                   Momentum30pt.prior_candle := c;
                   Momentum30pt.move_points := 35;
                   Momentum30pt.risk_points := 40;
                   Momentum30pt.timestamp := t0 |} in
  let e := {| paper_now := t0; entry_out := HttpRaises;
              stop_out := HttpRaises; target_out := HttpRaises |} in
  tracked_position bot = Ok None /\
  _execute_signal (fun _ => EmptyString) (fun _ => None) signal e bot
  = (bot, [], Raise (AttributeError "position")).
Proof. split; reflexivity. Qed.

(** The rest of the body does what the comments say once the guard is
    given the tracked position: a 40-point signal is blocked by the risk
    check, a 200-point one is logged as a paper trade and counted. *)
Example checked_execution_paper_run :
  let t0 := mk_datetime 738000 0 in
  let data := {| TradovateAuth.d_accessToken := Some "tok1"%string;
                 TradovateAuth.d_mdAccessToken := Some "md1"%string;
                 TradovateAuth.d_userId := Some 7%Z;
                 TradovateAuth.d_accountId := Some 42%Z |} in
  let a := fst (fst (TradovateAuth.authenticate
                       (TradovateAuth.init "user" "pw" "sec" None "demo")
                       t0 (HttpResponse 200 (Some data)))) in
  let md := {| MarketData.connected := true; MarketData.positions := ∅ |} in
  let bot := started (init true "MNQH6") a md t0 in
  let c := Momentum30pt.mk_candle 20510 20545 20505 20545 1200 t0 in
  let signal stop risk :=
    {| Momentum30pt.direction := "Buy";
       Momentum30pt.entry_price := 20545;
       Momentum30pt.stop_price := stop;
       Momentum30pt.breakout_candle := c;
       Momentum30pt.prior_candle := c;
       Momentum30pt.move_points := 35;
       Momentum30pt.risk_points := risk;
       Momentum30pt.timestamp := t0 |} in
  let e := {| paper_now := t0; entry_out := HttpRaises;
              stop_out := HttpRaises; target_out := HttpRaises |} in
  let run sig :=
    execute_signal_with (fun _ => "?"%string) (fun _ => None)
      tracked_position sig e bot in
  snd (fst (run (signal 20505 40)))
  = [EvRiskCheck "Buy" 1 20545 20505; EvRiskBlock "Poor R:R (? pts = $?)"] /\
  (exists trade,
     snd (fst (run (signal 20345 200)))
     = [EvRiskCheck "Buy" 1 20545 20345;
        EvExecuting "Buy" 20545 20345
          (Momentum30pt.calculate_target 20545 20345 "Buy");
        EvPaperLog trade]) /\
  trades_today (fst (fst (run (signal 20345 200)))) = 1%Z.
Proof.
  vm_compute. split; [reflexivity | split; [eexists; reflexivity | reflexivity]].
Qed.

End MNQTradingBotFacts.

(** ** Position sizing and running totals *)

Module RiskSizingFacts.
Import Py PyFacts Binary64Facts RiskManager RiskSizing.
Local Open Scope Q_scope.



Lemma position_size_le_max (cfg : RiskConfig) (n : Z) :
  position_size cfg = Some n -> (n <= max_position_size cfg)%Z.
Proof.
  unfold position_size. destruct (Qeq_bool _ _); [discriminate |].
  intros [= <-]. apply Z.le_min_r.
Qed.


(** The sizes the repository's three configurations give. *)
Example position_size_samples :
  position_size default_config = Some 2%Z /\
  position_size {| max_daily_loss := -500; max_position_size := 2;
                   max_trades_per_day := 10;
                   position_size_pct := literal 2 100;
                   account_balance := 5000; r_per_trade := 100 |} = Some 1%Z /\
  position_size {| max_daily_loss := -300; max_position_size := 2;
                   max_trades_per_day := 10;
                   position_size_pct := literal 2 100;
                   account_balance := 5000; r_per_trade := 50 |} = Some 2%Z /\
  position_size {| max_daily_loss := -300; max_position_size := 2;
                   max_trades_per_day := 10;
                   position_size_pct := literal 2 100;
                   account_balance := 5000; r_per_trade := 0 |} = None.
Proof. vm_compute. repeat split. Qed.

(** Where the rounding decides the size.  With a balance of 10000, 3 % of
    it at risk and 100 per trade the [float] product is 300 and the size
    is 3, although the binary64 number written 0.03 is below 3 / 100;
    with 25000, 14.5 % and 25 the size is 144, although the decimals
    give 145. *)
Example position_size_rounded :
  let cfg pct balance r :=
    {| max_daily_loss := -500; max_position_size := 200;
       max_trades_per_day := 10; position_size_pct := pct;
       account_balance := balance; r_per_trade := r |} in
  literal 3 100 < 3 # 100 /\
  fmul 10000 (literal 3 100) == 300 /\
  position_size (cfg (literal 3 100) 10000 100) = Some 3%Z /\
  position_size (cfg (literal 145 1000) 25000 25) = Some 144%Z /\
  int_trunc (25000 * (145 # 1000) / 25) = 145%Z.
Proof. vm_compute. repeat split. Qed.

(** X2.  The size [get_position_size] recommends always passes the size
    test of [check_entry]: whatever else [check_entry] answers for it, the
    reason is not a "MAX_SIZE" message. *)
Theorem recommended_size_passes (fmt : Q -> string) (s : t) (d : string)
    (e p : Q) (n : Z) :
  get_position_size s = Some n ->
  String.prefix "MAX_SIZE" (snd (snd (check_entry fmt s d n e p))) = false.
Proof.
  intros Hn. apply position_size_le_max in Hn.
  apply Z.ltb_ge in Hn. unfold check_entry. rewrite Hn.
  repeat match goal with
    | |- context [if ?b then _ else _] => destruct b
    end; reflexivity.
Qed.

Lemma recommended_size_passes_witness :
  get_position_size (init None (mk_datetime 738000 0)) = Some 2%Z /\
  String.prefix "MAX_SIZE"
    (snd (snd (check_entry (fun _ => EmptyString)
                 (init None (mk_datetime 738000 0)) "Buy" 2 20545 20505)))
  = false.
Proof.
  assert (H : get_position_size (init None (mk_datetime 738000 0)) = Some 2%Z)
    by (vm_compute; reflexivity).
  split; [exact H |].
  exact (recommended_size_passes (fun _ => EmptyString)
           (init None (mk_datetime 738000 0)) "Buy" 20545 20505 2 H).
Defined.

(** X3.  [check_entry] allows an entry exactly when the kill switch is
    off, the daily loss limit is not reached, the trade count is below
    its cap, the size is within [max_position_size] and the reward per
    contract the code computes, the [float] product of
    [|entry - stop|] (a [float] difference) and [0.50], is at least
    [r_per_trade]; an allowed call leaves the manager as it was, and no
    call changes the configuration, the P&L, the trade count or the day
    boundary. *)
Theorem check_entry_allowed_iff (fmt : Q -> string) (s : t) (d : string)
    (size : Z) (e p : Q) :
  let r := check_entry fmt s d size e p in
  (fst (snd r) = true <->
   kill_switch_triggered s = false /\
   ~ daily_pnl s <= max_daily_loss (config s) /\
   (trades_today s < max_trades_per_day (config s))%Z /\
   (size <= max_position_size (config s))%Z /\
   r_per_trade (config s) <= fmul (Qabs (fsub e p)) (1 # 2)) /\
  (fst (snd r) = true -> r = (s, (true, "OK"%string))) /\
  config (fst r) = config s /\
  daily_pnl (fst r) = daily_pnl s /\
  trades_today (fst r) = trades_today s /\
  daily_start (fst r) = daily_start s.
Proof.
  cbv zeta. unfold check_entry.
  destruct (kill_switch_triggered s) eqn:Hk; cbn [fst snd].
  { split; [split; [discriminate | intros (Hks & _); discriminate] |].
    repeat split; discriminate. }
  destruct (Qle_bool (daily_pnl s) (max_daily_loss (config s))) eqn:Hl;
    cbn [fst snd].
  { apply Qle_bool_iff in Hl.
    split; [split; [discriminate | intros (_ & Hpl & _); tauto] |].
    repeat split; discriminate. }
  apply Qle_bool_false_iff in Hl.
  destruct (max_trades_per_day (config s) <=? trades_today s)%Z eqn:Ht;
    cbn [fst snd].
  { apply Z.leb_le in Ht.
    split; [split; [discriminate | intros (_ & _ & Htr & _); lia] |].
    repeat split; discriminate. }
  apply Z.leb_gt in Ht.
  destruct (max_position_size (config s) <? size)%Z eqn:Hs; cbn [fst snd].
  { apply Z.ltb_lt in Hs.
    split; [split; [discriminate | intros (_ & _ & _ & Hsz & _); lia] |].
    repeat split; discriminate. }
  apply Z.ltb_ge in Hs.
  destruct (Qlt_bool (fmul (Qabs (fsub e p)) (1 # 2)) (r_per_trade (config s)))
    eqn:Hr; cbn [fst snd].
  { apply Qlt_bool_iff in Hr.
    split; [split; [discriminate |] |].
    - intros (_ & _ & _ & _ & Hrr). exfalso. apply (Qlt_not_le _ _ Hr Hrr).
    - repeat split; discriminate. }
  apply Qlt_bool_false_iff in Hr.
  split; [split; [intros _ | reflexivity] |].
  - split; [reflexivity |]. split; [exact Hl |]. split; [exact Ht |].
    split; [exact Hs |]. apply Qnot_lt_le. exact Hr.
  - repeat split.
Qed.

(** The configuration never changes under [update_pnl]. *)
Lemma update_all_config (pnls : list Q) (s : t) :
  config (update_all s pnls) = config s.
Proof.
  revert s. induction pnls as [| x pnls IH]; intros s; [reflexivity |].
  unfold update_all in *. cbn [fold_left]. now rewrite IH.
Qed.

Lemma update_all_cons (x : Q) (pnls : list Q) (s : t) :
  update_all s (x :: pnls) = update_all (update_pnl s x) pnls.
Proof. reflexivity. Qed.

(** X4.  After a sequence of [update_pnl] calls the daily P&L is the
    running total of the amounts, each added with the [float] addition,
    and the kill switch is on exactly when it was on before or that
    running total was at or below [max_daily_loss] after one of the
    calls: a later recovery does not release it. *)
Theorem update_pnl_latches (pnls : list Q) (s : t) :
  daily_pnl (update_all s pnls) = running_total (daily_pnl s) pnls /\
  (kill_switch_triggered (update_all s pnls) = true <->
   kill_switch_triggered s = true \/
   exists k, (0 < k <= length pnls)%nat /\
             running_total (daily_pnl s) (firstn k pnls)
             <= max_daily_loss (config s)).
Proof.
  revert s. induction pnls as [| x pnls IH]; intros s.
  - split; [reflexivity |]. cbn [update_all fold_left length]. split; [tauto |].
    intros [H | (k & Hk & _)]; [exact H | lia].
  - rewrite update_all_cons. destruct (IH (update_pnl s x)) as [IH1 IH2].
    split; [exact IH1 |].
    rewrite IH2. clear IH1 IH2.
    unfold update_pnl at 1 2 3.
    cbn [daily_pnl config kill_switch_triggered].
    destruct (Qle_bool (fadd (daily_pnl s) x) (max_daily_loss (config s))) eqn:Hl.
    + apply Qle_bool_iff in Hl. split; [intros _ | intros _; now left].
      right. exists 1%nat. split; [cbn [length]; lia | exact Hl].
    + apply Qle_bool_false_iff in Hl. split.
      * intros [Hk | (k & Hk & Hle)]; [now left |].
        right. exists (S k). split; [cbn [length]; lia | exact Hle].
      * intros [Hk | (k & Hk & Hle)]; [now left |].
        destruct k as [| k]; [lia |].
        destruct k as [| k]; [cbn [firstn running_total fold_left] in Hle; tauto |].
        right. exists (S k). split; [cbn [length] in Hk; lia | exact Hle].
Qed.

(** A loss of 600 followed by a gain of 1000: the total is positive and
    the switch stays on. *)
Example update_pnl_latches_run :
  let s := update_all (init None (mk_datetime 738000 0)) [-600; 1000] in
  daily_pnl s == 400 /\ kill_switch_triggered s = true.
Proof. vm_compute. split; reflexivity. Qed.

(** Eight losses of 0.1 against a limit of -0.8: the decimals add up to
    the limit, the [float] total stays above it and the switch stays
    off. *)
Example update_pnl_rounded_total :
  let cfg := {| max_daily_loss := literal (-8) 10; max_position_size := 2;
                max_trades_per_day := 10; position_size_pct := literal 2 100;
                account_balance := 5000; r_per_trade := 100 |} in
  let s := update_all (init (Some cfg) (mk_datetime 738000 0))
             (repeat (literal (-1) 10) 8) in
  8 * (-1 # 10) == -8 # 10 /\
  max_daily_loss cfg < daily_pnl s /\
  kill_switch_triggered s = false.
Proof. vm_compute. repeat split. Qed.

(** The distance [check_entry] computes is a binary64 number: rounding
    it again changes nothing. *)
Lemma risk_rounded (e p : Q) : round64 (Qabs (fsub e p)) == Qabs (fsub e p).
Proof.
  unfold fsub. rewrite round64_abs. now rewrite round64_idem.
Qed.

(** X5.  The risk manager [start] constructs (loss limit -500, two
    contracts, ten trades, [r_per_trade = 100]) allows a one-contract
    entry, while it is fresh, exactly when the stop distance the code
    computes, the magnitude of the [float] difference [entry - stop], is
    at least 200 points. *)
Theorem started_manager_needs_200_points (fmt : Q -> string) (now : datetime)
    (d : string) (e p : Q) :
  let cfg := {| max_daily_loss := -500; max_position_size := 2;
                max_trades_per_day := 10; position_size_pct := literal 2 100;
                account_balance := 5000; r_per_trade := 100 |} in
  fst (snd (check_entry fmt (init (Some cfg) now) d 1 e p)) = true <->
  200 <= Qabs (fsub e p).
Proof.
  intros cfg.
  change (check_entry fmt (init (Some cfg) now) d 1 e p)
    with (if Qlt_bool (fmul (Qabs (fsub e p)) (1 # 2)) 100
          then (init (Some cfg) now,
                (false, ("Poor R:R (" ++ fmt (Qabs (fsub e p)) ++ " pts = $"
                           ++ fmt (fmul (Qabs (fsub e p)) (1 # 2)) ++ ")")%string))
          else (init (Some cfg) now, (true, "OK"%string))).
  pose proof (fmul_half_lt_100 (Qabs (fsub e p)) (risk_rounded e p)
                (Qabs_nonneg _)) as Hhalf.
  destruct (Qlt_bool (fmul (Qabs (fsub e p)) (1 # 2)) 100) eqn:Hr; cbn [fst snd].
  - apply Qlt_bool_iff in Hr. split; [discriminate |]. intros H.
    apply Hhalf in Hr. lra.
  - apply Qlt_bool_false_iff in Hr. split; [intros _ | reflexivity].
    apply Qnot_lt_le. intros H. apply Hr. now apply Hhalf.
Qed.

(** Entry 200.2 with stop 0.2 is allowed, the [float] distance being 200;
    entry 16500.1 with stop 16300.1 is not, the [float] distance falling
    short of 200. *)
Example started_manager_rounded :
  let cfg := {| max_daily_loss := -500; max_position_size := 2;
                max_trades_per_day := 10; position_size_pct := literal 2 100;
                account_balance := 5000; r_per_trade := 100 |} in
  let s := init (Some cfg) (mk_datetime 738000 0) in
  let answer e p := fst (snd (check_entry (fun _ => EmptyString) s "Buy" 1 e p)) in
  answer (literal 2002 10) (literal 2 10) = true /\
  answer (literal 165001 10) (literal 163001 10) = false.
Proof. vm_compute. split; reflexivity. Qed.

End RiskSizingFacts.

(** ** The detector's memory and the geometry of a signal *)

Module CandleViewFacts.
Import Py PyFacts Binary64Facts Momentum30pt CandleView.
Local Open Scope Q_scope.

Lemma on_candle_close_current_signal (s : t) (c : Candle) :
  current_signal (fst (on_candle_close s c)) =
  match snd (on_candle_close s c) with
  | Some sig => Some sig
  | None => current_signal s
  end.
Proof.
  unfold on_candle_close.
  destruct (length (candles s ++ [c]) <? 2)%nat; [reflexivity |].
  destruct ((candles s ++ [c]) !! _); [| reflexivity].
  destruct (Qle_bool _ _); reflexivity.
Qed.

Lemma fold_current_signal (cs : list Candle) (s : t) :
  current_signal (fold_left (fun s c => fst (on_candle_close s c)) cs s)
  = latest_signal (current_signal s) (outputs s cs).
Proof.
  revert s. induction cs as [| c cs IH]; intros s; [reflexivity |].
  simpl. rewrite IH, on_candle_close_current_signal.
  destruct (snd (on_candle_close s c)); reflexivity.
Qed.

Lemma outputs_length (cs : list Candle) (s : t) :
  length (outputs s cs) = length cs.
Proof.
  revert s. induction cs as [| c cs IH]; intros s; [reflexivity |].
  simpl. now rewrite IH.
Qed.

(** X6.  The detector's history is exactly the sequence of candles it was
    given, in order, and [current_signal] is never cleared: after any
    sequence of candles it holds the most recent signal emitted so far
    ([None] only if none was). *)
Theorem detector_memory (cs : list Candle) :
  candles (feed cs) = cs /\
  length (outputs init cs) = length cs /\
  current_signal (feed cs) = latest_signal None (outputs init cs) /\
  (forall c sig,
     snd (on_candle_close (feed cs) c) = Some sig ->
     forall quiet,
       Forall (fun o => o = None)
         (outputs (fst (on_candle_close (feed cs) c)) quiet) ->
       current_signal (feed (cs ++ c :: quiet)) = Some sig).
Proof.
  split; [apply Momentum30ptFacts.feed_state |].
  split; [apply outputs_length |].
  split; [apply (fold_current_signal cs init) |].
  intros c sig Hsig quiet Hquiet.
  unfold feed. rewrite fold_left_app. simpl.
  rewrite fold_current_signal.
  fold (feed cs).
  rewrite on_candle_close_current_signal, Hsig.
  induction Hquiet as [| o os Ho _ IH]; [reflexivity |].
  subst o. exact IH.
Qed.

(** Closes 20510, 20545, 20550: the signal of the second candle is still
    held after the third, which emits none. *)
Example detector_memory_run :
  let t0 := mk_datetime 738000 0 in
  let a := mk_candle 20500 20520 20490 20510 1000 t0 in
  let b := mk_candle 20510 20545 20505 20545 1200 t0 in
  let c := mk_candle 20545 20555 20540 20550 900 t0 in
  outputs init [a; b; c] = [None; snd (on_candle_close (feed [a]) b); None] /\
  is_Some (snd (on_candle_close (feed [a]) b)) /\
  current_signal (feed [a; b; c]) = snd (on_candle_close (feed [a]) b).
Proof. repeat split. eexists. reflexivity. Qed.

(** X7.  A signal's move is at least the threshold and its risk is not
    negative.  For a candle whose close lies between its low and its
    high, a Buy has its stop at or below the entry and a Sell at or above
    it; the risk is the [float] difference of the two, taken from the
    larger, and the 1R target of [calculate_target] is the entry plus the
    risk for a Buy and minus the risk for a Sell, in [float] arithmetic,
    which for a binary64 entry is never on the stop's side of the
    entry. *)
Theorem signal_geometry (s : t) (c : Candle) (sig : Signal) :
  snd (on_candle_close s c) = Some sig ->
  c_low c <= c_close c ->
  c_close c <= c_high c ->
  let target := calculate_target (entry_price sig) (stop_price sig)
                  (direction sig) in
  trigger_threshold s <= move_points sig /\
  0 <= risk_points sig /\
  (direction sig = "Buy"%string \/ direction sig = "Sell"%string) /\
  (direction sig = "Buy"%string ->
     stop_price sig <= entry_price sig /\
     risk_points sig == fsub (entry_price sig) (stop_price sig) /\
     target = fadd (entry_price sig) (risk_points sig) /\
     (binary64 (entry_price sig) -> entry_price sig <= target)) /\
  (direction sig = "Sell"%string ->
     entry_price sig <= stop_price sig /\
     risk_points sig == fsub (stop_price sig) (entry_price sig) /\
     target = fsub (entry_price sig) (risk_points sig) /\
     (binary64 (entry_price sig) -> target <= entry_price sig)).
Proof.
  intros Hsig Hlow Hhigh.
  rewrite Momentum30ptFacts.on_candle_close_result in Hsig.
  destruct (last (candles s)) as [prior |]; [| discriminate].
  cbv zeta in Hsig.
  destruct (Qle_bool (trigger_threshold s)
              (Qabs (fsub (c_close c) (c_close prior))))
    eqn:Hthr; [| discriminate].
  apply Qle_bool_iff in Hthr.
  apply (inj Some) in Hsig. subst sig.
  cbn [move_points risk_points direction entry_price stop_price].
  split; [exact Hthr |]. split; [apply Qabs_nonneg |].
  unfold calculate_target.
  destruct (Qlt_bool 0 (fsub (c_close c) (c_close prior)));
    cbn [String.eqb Ascii.eqb Bool.eqb].
  - split; [now left |]. split; [| discriminate].
    intros _. split; [exact Hlow |].
    split; [| split; [reflexivity |]].
    + apply Qabs_pos. apply round64_nonneg. lra.
    + intros [Hentry _]. apply fadd_ge; [exact Hentry | apply Qabs_nonneg].
  - split; [now right |]. split; [discriminate |].
    intros _. split; [exact Hhigh |].
    split; [| split; [reflexivity |]].
    + rewrite Qabs_neg by (apply round64_nonpos; lra).
      unfold fsub. rewrite <- round64_opp. apply round64_proper. ring.
    + intros [Hentry _]. apply fsub_le; [exact Hentry | apply Qabs_nonneg].
Qed.

Lemma signal_geometry_witness :
  let t0 := mk_datetime 738000 0 in
  let a := mk_candle 20500 20520 20490 20510 1000 t0 in
  let b := mk_candle 20510 20545 20505 20545 1200 t0 in
  exists sig,
    snd (on_candle_close (feed [a]) b) = Some sig /\
    stop_price sig <= entry_price sig /\
    risk_points sig == fsub (entry_price sig) (stop_price sig) /\
    entry_price sig
    <= calculate_target (entry_price sig) (stop_price sig) (direction sig).
Proof.
  intros t0 a b.
  assert (Hlow : c_low b <= c_close b) by (vm_compute; discriminate).
  assert (Hhigh : c_close b <= c_high b) by (vm_compute; discriminate).
  let v := eval vm_compute in (snd (on_candle_close (feed [a]) b)) in
  match v with
  | Some ?sg =>
      exists sg;
      assert (Hsig : snd (on_candle_close (feed [a]) b) = Some sg)
        by (vm_compute; reflexivity);
      assert (Hentry : binary64 (entry_price sg)) by (split; vm_compute; reflexivity);
      destruct (signal_geometry (feed [a]) b sg Hsig Hlow Hhigh)
        as (_ & _ & _ & Hbuy & _);
      destruct (Hbuy eq_refl) as (H1 & H2 & _ & H4)
  end.
  split; [exact Hsig |]. split; [exact H1 |].
  split; [exact H2 | exact (H4 Hentry)].
Defined.

(** Close 100.3 on a low of 0.1: the risk is the [float] difference, which
    is above the exact one. *)
Example signal_risk_rounded :
  let t0 := mk_datetime 738000 0 in
  let a := mk_candle 1 1 1 1 1 t0 in
  let b := mk_candle 1 (literal 1003 10) (literal 1 10) (literal 1003 10) 1 t0 in
  match snd (on_candle_close (feed [a]) b) with
  | Some sig =>
      risk_points sig == fsub (literal 1003 10) (literal 1 10) /\
      literal 1003 10 - literal 1 10 < risk_points sig
  | None => False
  end.
Proof. vm_compute. split; reflexivity. Qed.

End CandleViewFacts.

(** ** Candle building *)

Module AggregatorFacts.
Import Py PyFacts Net MNQTradingBot MNQTradingBotLoop.
Local Open Scope Q_scope.

Lemma py_max_spec (a b : Q) :
  a <= py_max a b /\ b <= py_max a b /\ (py_max a b = a \/ py_max a b = b).
Proof.
  unfold py_max. destruct (Qlt_bool a b) eqn:E.
  - apply Qlt_bool_iff in E. repeat split; [lra | lra | now right].
  - apply Qlt_bool_false_iff in E. repeat split; [lra | lra | now left].
Qed.

Lemma py_min_spec (a b : Q) :
  py_min a b <= a /\ py_min a b <= b /\ (py_min a b = a \/ py_min a b = b).
Proof.
  unfold py_min. destruct (Qlt_bool b a) eqn:E.
  - apply Qlt_bool_iff in E. repeat split; [lra | lra | now right].
  - apply Qlt_bool_false_iff in E. repeat split; [lra | lra | now left].
Qed.

Lemma on_quotes_candle (qs : list (MarketDataClient.Quote * datetime)) (self : t) :
  current_candle (on_quotes self qs) =
  fold_left (fun c q => Some (candle_step c (fst q) (snd q))) qs
    (current_candle self).
Proof.
  revert self. induction qs as [| q qs IH]; intros self; [reflexivity |].
  unfold on_quotes in *. simpl. rewrite IH. reflexivity.
Qed.

Lemma on_quotes_rest (qs : list (MarketDataClient.Quote * datetime)) (self : t) :
  on_quotes self qs =
  match qs with
  | [] => self
  | _ => set_current_candle self (current_candle (on_quotes self qs))
  end.
Proof.
  revert self. induction qs as [| q qs IH]; intros self; [reflexivity |].
  unfold on_quotes in *. simpl. rewrite IH.
  destruct qs as [| q' qs]; reflexivity.
Qed.

Lemma summarises_step (c : Momentum30pt.Candle) (q0 q : MarketDataClient.Quote)
    (now0 now : datetime) (seen : list MarketDataClient.Quote) :
  summarises c q0 now0 seen ->
  summarises (candle_step (Some c) q now) q0 now0 (seen ++ [q]).
Proof.
  intros (Ho & Hts & Hc & Hv & Hb & Hh & Hl).
  unfold summarises, candle_step. cbn [Momentum30pt.c_open Momentum30pt.c_high
    Momentum30pt.c_low Momentum30pt.c_close Momentum30pt.c_volume
    Momentum30pt.c_timestamp].
  rewrite last_last.
  destruct (py_max_spec (Momentum30pt.c_high c) (MarketDataClient.q_last q))
    as (M1 & M2 & M3).
  destruct (py_min_spec (Momentum30pt.c_low c) (MarketDataClient.q_last q))
    as (m1 & m2 & m3).
  assert (Hin : forall x,
            In x (map MarketDataClient.q_last (q0 :: seen ++ [q])) <->
            In x (map MarketDataClient.q_last (q0 :: seen))
            \/ x = MarketDataClient.q_last q).
  { intros x. change (q0 :: seen ++ [q]) with ((q0 :: seen) ++ [q]).
    rewrite map_app, in_app_iff. simpl. intuition. }
  repeat split; try assumption; try reflexivity.
  - apply Hin in H as [H | ->]; [destruct (Hb x H); lra | lra].
  - apply Hin in H as [H | ->]; [destruct (Hb x H); lra | lra].
  - apply Hin. destruct M3 as [-> | ->]; [now left | now right].
  - apply Hin. destruct m3 as [-> | ->]; [now left | now right].
Qed.

Lemma summarises_fold (qs : list (MarketDataClient.Quote * datetime))
    (c : Momentum30pt.Candle) (q0 : MarketDataClient.Quote) (now0 : datetime)
    (seen : list MarketDataClient.Quote) :
  summarises c q0 now0 seen ->
  exists c',
    fold_left (fun c q => Some (candle_step c (fst q) (snd q))) qs (Some c)
    = Some c' /\
    summarises c' q0 now0 (seen ++ map fst qs).
Proof.
  revert c seen. induction qs as [| [q now] qs IH]; intros c seen Hs.
  - exists c. simpl. now rewrite app_nil_r.
  - simpl. destruct (IH _ _ (summarises_step c q0 q now0 now seen Hs))
      as (c' & Hc' & Hs').
    exists c'. split; [exact Hc' |]. now rewrite <- app_assoc in Hs'.
Qed.

(** X8.  The candle [_on_quote] builds from the quotes of an interval:
    its open is the first price, its timestamp the clock reading at the
    first quote, its close and volume those of the last quote; every
    price of the interval lies between its low and its high, and both
    are prices of the interval, so that low <= open, close <= high; the
    rest of the bot is untouched.  [is_bullish] holds exactly when the
    last price is above the first, [is_bearish] when it is below, never
    both. *)
Theorem aggregated_candle (self : t) (q0 : MarketDataClient.Quote)
    (now0 : datetime) (qs : list (MarketDataClient.Quote * datetime)) :
  current_candle self = None ->
  let quotes := q0 :: map fst qs in
  let prices := map MarketDataClient.q_last quotes in
  let first := MarketDataClient.q_last q0 in
  let final := List.last (map fst qs) q0 in
  exists c,
    on_quotes self ((q0, now0) :: qs) = set_current_candle self (Some c) /\
    Momentum30pt.c_open c = first /\
    Momentum30pt.c_timestamp c = now0 /\
    Momentum30pt.c_close c = MarketDataClient.q_last final /\
    Momentum30pt.c_volume c = MarketDataClient.q_volume final /\
    (forall x, In x prices ->
       Momentum30pt.c_low c <= x /\ x <= Momentum30pt.c_high c) /\
    In (Momentum30pt.c_high c) prices /\
    In (Momentum30pt.c_low c) prices /\
    Momentum30pt.c_low c <= Momentum30pt.c_open c <= Momentum30pt.c_high c /\
    Momentum30pt.c_low c <= Momentum30pt.c_close c <= Momentum30pt.c_high c /\
    CandleView.is_bullish c = Qlt_bool first (MarketDataClient.q_last final) /\
    CandleView.is_bearish c = Qlt_bool (MarketDataClient.q_last final) first /\
    ~ (CandleView.is_bullish c = true /\ CandleView.is_bearish c = true).
Proof.
  intros Hnone quotes prices first final.
  assert (H0 : summarises (candle_step None q0 now0) q0 now0 []).
  { unfold summarises, candle_step.
    cbn [Momentum30pt.c_open Momentum30pt.c_high Momentum30pt.c_low
         Momentum30pt.c_close Momentum30pt.c_volume Momentum30pt.c_timestamp
         List.last map].
    split; [reflexivity |]. split; [reflexivity |].
    split; [reflexivity |]. split; [reflexivity |].
    split; [| split; now left].
    intros x [<- | []]. split; apply Qle_refl. }
  destruct (summarises_fold qs _ q0 now0 [] H0) as (c & Hc & Hs).
  simpl in Hs. destruct Hs as (Ho & Hts & Hcl & Hv & Hb & Hh & Hl).
  exists c.
  assert (Hcur : current_candle (on_quotes self ((q0, now0) :: qs)) = Some c).
  { rewrite on_quotes_candle. simpl. rewrite Hnone. exact Hc. }
  split.
  { rewrite on_quotes_rest, Hcur. reflexivity. }
  assert (Hopen : In (Momentum30pt.c_open c) prices).
  { rewrite Ho. subst prices quotes. simpl. now left. }
  assert (Hclose : In (Momentum30pt.c_close c) prices).
  { rewrite Hcl. subst prices quotes final. apply in_map.
    destruct (map fst qs) as [| x l] eqn:E; [now left |].
    right. rewrite <- E. destruct (exists_last (l:=map fst qs)) as (l' & y & El).
    - rewrite E. discriminate.
    - rewrite El, last_last. apply in_or_app. right. now left. }
  destruct (Hb _ Hopen) as [Bo1 Bo2]. destruct (Hb _ Hclose) as [Bc1 Bc2].
  split; [exact Ho |]. split; [exact Hts |]. split; [exact Hcl |].
  split; [exact Hv |]. split; [exact Hb |]. split; [exact Hh |].
  split; [exact Hl |]. split; [now split |]. split; [now split |].
  unfold CandleView.is_bullish, CandleView.is_bearish. rewrite Ho, Hcl.
  split; [reflexivity |]. split; [reflexivity |].
  intros [H1 H2]. apply Qlt_bool_iff in H1, H2. lra.
Qed.

Lemma aggregated_candle_witness :
  let t0 := mk_datetime 738000 0 in
  let q price vol :=
    MarketDataClient.mk_quote (Some "MNQH6"%string) 0 0 price 1 1 vol t0 in
  let self := init true "MNQH6" in
  exists c,
    on_quotes self [(q 20510 10%Z, t0); (q 20505 25%Z, t0); (q 20545 40%Z, t0)]
    = set_current_candle self (Some c) /\
    Momentum30pt.c_open c = 20510.
Proof.
  intros t0 q self.
  destruct (aggregated_candle self (q 20510 10%Z) t0
              [(q 20505 25%Z, t0); (q 20545 40%Z, t0)] eq_refl)
    as (c & H1 & H2 & _).
  exists c. split; [exact H1 | exact H2].
Defined.

(** The three quotes 20510, 20505, 20545 give O 20510, H 20545, L 20505,
    C 20545 and the last volume. *)
Example aggregated_candle_run :
  let t0 := mk_datetime 738000 0 in
  let q price vol :=
    MarketDataClient.mk_quote (Some "MNQH6"%string) 0 0 price 1 1 vol t0 in
  current_candle
    (on_quotes (init true "MNQH6")
       [(q 20510 10%Z, t0); (q 20505 25%Z, t0); (q 20545 40%Z, t0)])
  = Some (Momentum30pt.mk_candle 20510 20545 20505 20545 40 t0).
Proof. reflexivity. Qed.

Section Round.
Variable fmt_float : Q -> string.
Variable int_of_str : string -> option Z.

(** X9.  A round of [_candle_builder] with no candle under construction
    does nothing: no evaluation, no event.  With a candle and a strategy
    in place it clears the accumulator and hands that candle to
    [on_candle_close], which appends it to the history; when no signal
    comes back the round ends normally with no event; when one does, it
    is stored in [last_signal] and the round ends in the
    [AttributeError] of [_execute_signal], with no event. *)
Theorem candle_builder_round_spec (self : t) (e : exec_env) :
  (current_candle self = None ->
     candle_builder_round fmt_float int_of_str e self = (self, [], Ok tt)) /\
  (forall candle strat,
     current_candle self = Some candle ->
     strategy self = Some strat ->
     let strat' := fst (Momentum30pt.on_candle_close strat candle) in
     let cleared := set_strategy (set_current_candle self None) strat' in
     Momentum30pt.candles strat' = Momentum30pt.candles strat ++ [candle] /\
     match snd (Momentum30pt.on_candle_close strat candle) with
     | None =>
         candle_builder_round fmt_float int_of_str e self = (cleared, [], Ok tt)
     | Some sig =>
         candle_builder_round fmt_float int_of_str e self
         = (set_last_signal cleared sig, [], Raise (AttributeError "position"))
     end).
Proof.
  split.
  - intros Hnone. unfold candle_builder_round, bindM, get. rewrite Hnone.
    reflexivity.
  - intros candle strat Hc Hs strat' cleared.
    split; [apply Momentum30ptFacts.on_candle_close_state |].
    unfold candle_builder_round, bindM, get, put, component. rewrite Hc.
    cbn [strategy set_current_candle]. rewrite Hs. cbn [ret].
    subst cleared strat'.
    destruct (Momentum30pt.on_candle_close strat candle) as [st' [sig |]];
      cbn [fst snd]; [| reflexivity].
    rewrite (MNQTradingBotFacts._execute_signal_started fmt_float int_of_str
               (set_last_signal (set_strategy (set_current_candle self None) st')
                  sig) st' sig e eq_refl).
    reflexivity.
Qed.
End Round.

(** An interval of three quotes closing 35 points above the previous
    close: the round appends the candle, records the signal and raises. *)
Example candle_builder_round_run :
  let t0 := mk_datetime 738000 0 in
  let q price :=
    MarketDataClient.mk_quote (Some "MNQH6"%string) 0 0 price 1 1 1 t0 in
  let a := Momentum30pt.mk_candle 20500 20520 20490 20510 1000 t0 in
  let bot0 := set_strategy (init true "MNQH6") (Momentum30pt.feed [a]) in
  let bot1 := on_quotes bot0 [(q 20510, t0); (q 20505, t0); (q 20545, t0)] in
  let e := {| paper_now := t0; entry_out := HttpRaises;
              stop_out := HttpRaises; target_out := HttpRaises |} in
  let '(bot2, events, r) :=
    candle_builder_round (fun _ => EmptyString) (fun _ => None) e bot1 in
  current_candle bot2 = None /\
  (Momentum30pt.candles <$> strategy bot2)
  = Some [a; Momentum30pt.mk_candle 20510 20545 20505 20545 1 t0] /\
  (Momentum30pt.direction <$> last_signal bot2) = Some "Buy"%string /\
  events = [] /\ r = Raise (AttributeError "position").
Proof. vm_compute. repeat split. Qed.

End AggregatorFacts.

(** ** The session *)

Module AuthSessionFacts.
Import Py Net TradovateAuth TradovateAuthQueries.

(** X10.  [authenticate] is all or nothing.  It returns [True] exactly
    when the request answers 200 with a readable body; on [False] the
    session is left as it was; on [True] the three identifiers and the
    creation time are replaced together, the account id being the broker's
    when that is present and not zero and the text of the environment
    variable otherwise, while the credentials, the base URL and the
    renewal threshold are kept. *)
Theorem authenticate_all_or_nothing (s : t) (now : datetime)
    (out : http AuthData) :
  let s' := fst (fst (authenticate s now out)) in
  let ok := snd (fst (authenticate s now out)) in
  (ok = true <-> exists d, out = HttpResponse 200 (Some d)) /\
  (ok = false -> s' = s) /\
  (forall d, out = HttpResponse 200 (Some d) ->
     access_token s' = d_accessToken d /\
     md_access_token s' = d_mdAccessToken d /\
     user_id s' = d_userId d /\
     token_created s' = Some now /\
     account_id s' =
       match d_accountId d with
       | Some z => if (z =? 0)%Z then AccStr <$> account_id_from_env s
                   else Some (AccInt z)
       | None => AccStr <$> account_id_from_env s
       end /\
     username s' = username s /\ password s' = password s /\
     api_secret s' = api_secret s /\
     account_id_from_env s' = account_id_from_env s /\
     base_url s' = base_url s /\
     renew_threshold s' = renew_threshold s).
Proof.
  cbv zeta. unfold authenticate.
  destruct out as [| st [d |]].
  - cbn [fst snd]. split; [split; [discriminate | intros [d Hd]; discriminate] |].
    split; [reflexivity | intros d Hd; discriminate].
  - destruct (st =? 200)%Z eqn:Hst; cbn [negb fst snd].
    + apply Z.eqb_eq in Hst. subst st.
      split; [split; [intros _; eauto | reflexivity] |].
      split; [discriminate |].
      intros d' [= <-].
      cbn [access_token md_access_token user_id token_created account_id
           username password api_secret account_id_from_env base_url
           renew_threshold].
      repeat split.
      unfold account_id_or_env, truthy_opt_Z, truthy_Z.
      destruct (d_accountId d) as [z |]; [| reflexivity].
      destruct (z =? 0)%Z; reflexivity.
    + apply Z.eqb_neq in Hst.
      split; [split; [discriminate | intros [d' [= E _]]; contradiction] |].
      split; [reflexivity | intros d' [= E _]; contradiction].
  - destruct (st =? 200)%Z; cbn [negb fst snd];
      (split; [split; [discriminate | intros [d Hd]; discriminate] |]);
      (split; [reflexivity | intros d Hd; discriminate]).
Qed.

(** X11.  [get_auth_headers] returns headers exactly when the access
    token is a text that is not empty, and then the Authorization header
    is "Bearer " followed by it; headers imply [is_authenticated], but
    not the other way round: with an empty token [is_authenticated] is
    true and [get_auth_headers] raises; and a 200 answer without an
    access token makes [authenticate] return [True] while the session
    stays unauthenticated. *)
Theorem headers_need_a_token :
  (forall s,
     (exists h, get_auth_headers s = Ok h) <->
     (exists c tok, access_token s = Some (String c tok))) /\
  (forall s h,
     get_auth_headers s = Ok h ->
     is_authenticated s = true /\
     exists tok, access_token s = Some tok /\
       h = [("Authorization"%string, ("Bearer " ++ tok)%string);
            ("Content-Type"%string, "application/json"%string)]) /\
  (forall s,
     access_token s = Some EmptyString ->
     is_authenticated s = true /\
     get_auth_headers s = Raise (RuntimeError "Not authenticated")) /\
  (forall s now d,
     d_accessToken d = None ->
     let r := authenticate s now (HttpResponse 200 (Some d)) in
     snd (fst r) = true /\
     is_authenticated (fst (fst r)) = false /\
     get_auth_headers (fst (fst r)) = Raise (RuntimeError "Not authenticated")).
Proof.
  split; [| split; [| split]].
  - intros s. unfold get_auth_headers.
    destruct (access_token s) as [[| c tok] |].
    + split; [intros [h Hh]; discriminate | intros (c & tok & H); discriminate].
    + split; [intros _; eauto | intros _; eauto].
    + split; [intros [h Hh]; discriminate | intros (c & tok & H); discriminate].
  - intros s h. unfold get_auth_headers, is_authenticated.
    destruct (access_token s) as [[| c tok] |]; try discriminate.
    intros [= <-]. split; [reflexivity |]. eauto.
  - intros s H. unfold get_auth_headers, is_authenticated. now rewrite H.
  - intros s now d Hd r. subst r.
    unfold authenticate, get_auth_headers, is_authenticated.
    cbn. rewrite Hd. repeat split.
Qed.

(** X12.  A session that has never authenticated is never renewed, and
    after a successful authentication or renewal at time [t] the rounds
    of the background task issue no request and change nothing while
    less than 75 minutes have passed since [t]. *)
Theorem no_request_before_threshold (s : t) (now' : datetime) (e' : renew_env) :
  reachable s ->
  (token_created s = None -> auto_renew_round s now' e' = (s, [])) /\
  (forall now d,
     let s1 := fst (fst (authenticate s now (HttpResponse 200 (Some d)))) in
     (dt_sub now' now < timedelta_minutes 75)%Z ->
     auto_renew_round s1 now' e' = (s1, [])) /\
  (forall e tok d,
     access_token s = Some tok -> tok <> EmptyString ->
     renew_out e = HttpResponse 200 (Some d) ->
     let s1 := fst (fst (renew_token s e)) in
     (dt_sub now' (renew_now e) < timedelta_minutes 75)%Z ->
     auto_renew_round s1 now' e' = (s1, [])).
Proof.
  intros Hreach. split; [| split].
  - intros Hnone. unfold auto_renew_round. now rewrite Hnone.
  - intros now d s1 Hlt.
    assert (Hthr : renew_threshold s1 = 4500000000%Z).
    { apply TradovateAuthFacts.reachable_threshold. subst s1.
      now apply reach_authenticate. }
    unfold auto_renew_round. rewrite Hthr.
    assert (Hc : token_created s1 = Some now) by reflexivity.
    rewrite Hc.
    unfold timedelta_minutes in Hlt.
    destruct (4500000000 <=? dt_sub now' now)%Z eqn:E; [| reflexivity].
    apply Z.leb_le in E. lia.
  - intros e tok d Htok Hne Hout s1 Hlt.
    assert (Htr : truthy_opt_str (Some tok) = true)
      by (destruct tok; [congruence | reflexivity]).
    assert (Hthr : renew_threshold s1 = 4500000000%Z).
    { apply TradovateAuthFacts.reachable_threshold. subst s1.
      now apply reach_renew_token. }
    assert (Hc : token_created s1 = Some (renew_now e)).
    { subst s1.
      now rewrite (TradovateAuthFacts.renew_token_renewed s e tok d Htok Htr Hout). }
    unfold auto_renew_round. rewrite Hthr, Hc.
    unfold timedelta_minutes in Hlt.
    destruct (4500000000 <=? dt_sub now' (renew_now e))%Z eqn:E; [| reflexivity].
    apply Z.leb_le in E. lia.
Qed.

Lemma no_request_before_threshold_witness :
  let s := init "user" "pw" "sec" None "demo" in
  let e := {| renew_now := mk_datetime 738000 0; renew_out := HttpRaises;
              auth_now := mk_datetime 738000 0; auth_out := HttpRaises |} in
  reachable s /\
  auto_renew_round s (mk_datetime 738000 1) e = (s, []).
Proof.
  intros s e.
  split; [apply reach_init |].
  exact (proj1 (no_request_before_threshold s (mk_datetime 738000 1) e
                  (reach_init "user" "pw" "sec" None "demo")) eq_refl).
Defined.

(** X13.  A successful renewal replaces the access token and the creation
    time and nothing else: the market-data token, the user id and the
    account id stay as they were.  When the 200 answer carries no access
    token the call still returns [True], the session is left without a
    token, and the next [renew_token] goes straight to a full
    authentication. *)
Theorem renewal_replaces_access_token_only (s : t) (e : renew_env)
    (tok : string) (d : RenewData) :
  access_token s = Some tok ->
  tok <> EmptyString ->
  renew_out e = HttpResponse 200 (Some d) ->
  let s1 := fst (fst (renew_token s e)) in
  snd (fst (renew_token s e)) = true /\
  snd (renew_token s e) = [PostRenewAccessToken tok] /\
  access_token s1 = r_accessToken d /\
  token_created s1 = Some (renew_now e) /\
  md_access_token s1 = md_access_token s /\
  user_id s1 = user_id s /\
  account_id s1 = account_id s /\
  (r_accessToken d = None ->
     is_authenticated s1 = false /\
     forall e2, renew_token s1 e2 = authenticate s1 (auth_now e2) (auth_out e2)).
Proof.
  intros Htok Hne Hout s1.
  assert (Htr : truthy_opt_str (Some tok) = true)
    by (destruct tok; [congruence | reflexivity]).
  subst s1.
  rewrite (TradovateAuthFacts.renew_token_renewed s e tok d Htok Htr Hout).
  cbn [fst snd set_renewed access_token token_created md_access_token user_id
       account_id].
  repeat split.
  - unfold is_authenticated. cbn. now rewrite H.
  - intros e2. apply TradovateAuthFacts.renew_token_no_token. cbn. now rewrite H.
Qed.

Lemma renewal_replaces_access_token_only_witness :
  let data := {| d_accessToken := Some "tok1"%string;
                 d_mdAccessToken := Some "md1"%string;
                 d_userId := Some 7%Z; d_accountId := Some 42%Z |} in
  let s := fst (fst (authenticate (init "user" "pw" "sec" None "demo")
                       (mk_datetime 738000 0) (HttpResponse 200 (Some data)))) in
  let e := {| renew_now := mk_datetime 738000 4500000000;
              renew_out := HttpResponse 200 (Some {| r_accessToken := None |});
              auth_now := mk_datetime 738000 4500000001;
              auth_out := HttpRaises |} in
  snd (fst (renew_token s e)) = true /\
  access_token (fst (fst (renew_token s e))) = None /\
  md_access_token (fst (fst (renew_token s e))) = Some "md1"%string.
Proof.
  intros data s e.
  destruct (renewal_replaces_access_token_only s e "tok1"
              {| r_accessToken := None |} eq_refl ltac:(discriminate) eq_refl)
    as (H1 & _ & H3 & _ & H5 & _).
  split; [exact H1 |]. split; [exact H3 | exact H5].
Defined.

End AuthSessionFacts.

(** ** Order tracking *)

Module OrderTrackingFacts.
Import Py PyFacts Net OrderManager OrderModify.
Local Open Scope Q_scope.

Section Placement.
Variable int_of_str : string -> option Z.

(** The tracked record of a placement. *)
Lemma place_order_success (self : t) (auth : TradovateAuth.t)
    (symbol action : string) (qty : Z) (order_type : string)
    (price stop_price : option Q) (tif : string)
    (h : list (string * string)) (body data : gmap string JVal)
    (a : OrderAction) (ty : OrderType) (f : TimeInForce) (z : Z) :
  TradovateAuth.get_auth_headers auth = Ok h ->
  place_order_body int_of_str auth symbol action qty order_type price
    stop_price tif = Ok body ->
  OrderAction_of action = Ok a ->
  OrderType_of order_type = Ok ty ->
  TimeInForce_of tif = Ok f ->
  data !! "orderId" = Some (JInt z) ->
  z <> 0%Z ->
  place_order int_of_str self auth symbol action qty order_type price
    stop_price tif (HttpResponse 200 (Some data))
  = Ok ({| pending_orders :=
             <[z := {| order_id := Some z; symbol := symbol; action := a;
                       qty := qty; order_type := ty; price := price;
                       stop_price := stop_price; time_in_force := f;
                       status := "Working"; filled_qty := 0;
                       avg_price := 0; is_automated := true |}]>
               (pending_orders self);
           executions := executions self |},
        Some data, [PostPlaceOrder body]).
Proof.
  intros Hh Hb Ha Hty Hf Hid Hz. unfold place_order.
  rewrite Hh. cbn [bind]. rewrite Hb. cbn [bind].
  cbn [Z.eqb Pos.eqb]. rewrite Ha, Hty, Hf.
  unfold response_order_id. rewrite Hid.
  unfold truthy_Z. apply Z.eqb_neq in Hz. rewrite Hz. reflexivity.
Qed.

(** X14.  A placement that the broker answers with 200 and an order id
    that is not zero is returned to the caller and tracked under that
    id as a "Working" order with the action, type, quantity, prices and
    time in force of the call; every other tracked order is left as it
    was (an order already tracked under the same id is replaced). *)
Theorem place_order_tracks (self : t) (auth : TradovateAuth.t)
    (symbol action : string) (qty : Z) (order_type : string)
    (price stop_price : option Q) (tif : string)
    (h : list (string * string)) (body data : gmap string JVal)
    (a : OrderAction) (ty : OrderType) (f : TimeInForce) (z : Z) :
  TradovateAuth.get_auth_headers auth = Ok h ->
  place_order_body int_of_str auth symbol action qty order_type price
    stop_price tif = Ok body ->
  OrderAction_of action = Ok a ->
  OrderType_of order_type = Ok ty ->
  TimeInForce_of tif = Ok f ->
  data !! "orderId" = Some (JInt z) ->
  z <> 0%Z ->
  exists self' order,
    place_order int_of_str self auth symbol action qty order_type price
      stop_price tif (HttpResponse 200 (Some data))
    = Ok (self', Some data, [PostPlaceOrder body]) /\
    pending_orders self' !! z = Some order /\
    status order = "Working"%string /\
    order_id order = Some z /\
    OrderManager.symbol order = symbol /\
    OrderManager.action order = a /\
    OrderManager.qty order = qty /\
    OrderManager.order_type order = ty /\
    OrderManager.price order = price /\
    OrderManager.stop_price order = stop_price /\
    time_in_force order = f /\
    (forall k, k <> z -> pending_orders self' !! k = pending_orders self !! k) /\
    executions self' = executions self.
Proof.
  intros Hh Hb Ha Hty Hf Hid Hz.
  eexists _, _. split.
  - exact (place_order_success self auth symbol action qty order_type price
             stop_price tif h body data a ty f z Hh Hb Ha Hty Hf Hid Hz).
  - cbn [pending_orders executions]. rewrite lookup_insert_eq.
    repeat split.
    intros k Hk. now rewrite lookup_insert_ne.
Qed.

(** X15.  When the call reaches the request, [place_order] sends it
    exactly once and tracks nothing in each of these cases, returning
    [None]: the request raises, the body of the answer cannot be read, or
    the status is not 200; and also, even with a 200 answer, when the
    action, the order type or the time in force is not one of the known
    texts: the broker has then accepted an order that the caller is told
    has failed.  A 200 answer without an order id, or with the id zero,
    is returned to the caller but not tracked. *)
Theorem place_order_untracked (self : t) (auth : TradovateAuth.t)
    (symbol action : string) (qty : Z) (order_type : string)
    (price stop_price : option Q) (tif : string)
    (h : list (string * string)) (body : gmap string JVal) :
  TradovateAuth.get_auth_headers auth = Ok h ->
  place_order_body int_of_str auth symbol action qty order_type price
    stop_price tif = Ok body ->
  let call := place_order int_of_str self auth symbol action qty order_type
                price stop_price tif in
  call HttpRaises = Ok (self, None, [PostPlaceOrder body]) /\
  (forall st, call (HttpResponse st None) = Ok (self, None, [PostPlaceOrder body])) /\
  (forall st data, st <> 200%Z ->
     call (HttpResponse st (Some data)) = Ok (self, None, [PostPlaceOrder body])) /\
  (forall out,
     OrderAction_of action = Raise ValueError \/
     OrderType_of order_type = Raise ValueError \/
     TimeInForce_of tif = Raise ValueError ->
     call out = Ok (self, None, [PostPlaceOrder body])) /\
  (forall data a ty f,
     OrderAction_of action = Ok a ->
     OrderType_of order_type = Ok ty ->
     TimeInForce_of tif = Ok f ->
     response_order_id data = None \/ response_order_id data = Some 0%Z ->
     call (HttpResponse 200 (Some data))
     = Ok (self, Some data, [PostPlaceOrder body])).
Proof.
  intros Hh Hb call. subst call. unfold place_order.
  rewrite Hh. cbn [bind]. rewrite Hb. cbn [bind].
  split; [reflexivity |]. split; [reflexivity |].
  split; [| split].
  - intros st data Hst. apply Z.eqb_neq in Hst. now rewrite Hst.
  - intros out Hbad.
    destruct out as [| st [data |]]; try reflexivity.
    destruct (st =? 200)%Z; [| reflexivity].
    destruct Hbad as [-> | [Hbad | Hbad]]; [reflexivity | |].
    + rewrite Hbad. now destruct (OrderAction_of action).
    + rewrite Hbad.
      now destruct (OrderAction_of action), (OrderType_of order_type).
  - intros data a ty f Ha Hty Hf Hid. cbn [Z.eqb Pos.eqb].
    rewrite Ha, Hty, Hf. now destruct Hid as [-> | ->].
Qed.
End Placement.

Lemma place_order_tracks_witness :
  let data := {| TradovateAuth.d_accessToken := Some "tok1"%string;
                 TradovateAuth.d_mdAccessToken := Some "md1"%string;
                 TradovateAuth.d_userId := Some 7%Z;
                 TradovateAuth.d_accountId := Some 42%Z |} in
  let auth := fst (fst (TradovateAuth.authenticate
                          (TradovateAuth.init "user" "pw" "sec" None "demo")
                          (mk_datetime 738000 0) (HttpResponse 200 (Some data)))) in
  let answer : gmap string JVal := <["orderId" := JInt 9001]> ∅ in
  exists self' order,
    (exists reqs,
       place_order (fun _ => None) init auth "MNQH6" "Buy" 1 "Market"
         None None "Day" (HttpResponse 200 (Some answer))
       = Ok (self', Some answer, reqs)) /\
    pending_orders self' !! 9001%Z = Some order /\
    status order = "Working"%string.
Proof.
  intros data auth answer.
  destruct (place_order_tracks (fun _ => None) init auth "MNQH6" "Buy" 1
              "Market" None None "Day" _ _ answer BUY MARKET DAY 9001
              eq_refl eq_refl eq_refl eq_refl eq_refl eq_refl ltac:(discriminate))
    as (self' & order & Hcall & Hlook & Hst & _).
  exists self', order. split; [eexists; exact Hcall |]. split; assumption.
Defined.

Lemma place_order_untracked_witness :
  let data := {| TradovateAuth.d_accessToken := Some "tok1"%string;
                 TradovateAuth.d_mdAccessToken := Some "md1"%string;
                 TradovateAuth.d_userId := Some 7%Z;
                 TradovateAuth.d_accountId := Some 42%Z |} in
  let auth := fst (fst (TradovateAuth.authenticate
                          (TradovateAuth.init "user" "pw" "sec" None "demo")
                          (mk_datetime 738000 0) (HttpResponse 200 (Some data)))) in
  let answer : gmap string JVal := <["orderId" := JInt 9001]> ∅ in
  exists body,
    place_order (fun _ => None) init auth "MNQH6" "buy" 1 "Market"
      None None "Day" (HttpResponse 200 (Some answer))
    = Ok (init, None, [PostPlaceOrder body]).
Proof.
  intros data auth answer. eexists.
  refine (proj1 (proj2 (proj2 (proj2
            (place_order_untracked (fun _ => None) init auth "MNQH6" "buy" 1
               "Market" None None "Day" _ _ eq_refl eq_refl))))
            (HttpResponse 200 (Some answer)) _).
  left. reflexivity.
Defined.

(** *** Cancelling *)

(** X16.  With an authenticated session [cancel_order] sends one
    cancellation.  On a 200 answer it returns [True] and sets the status
    of the order tracked under that id, if there is one, to "Cancelled",
    changing nothing else of it, no other order, and never dropping an
    entry; on any other answer, or when the request raises, it returns
    [False] and changes nothing.  An order that was tracked by
    [place_order] and then cancelled this way is tracked as "Cancelled"
    with the fields it was placed with. *)
Theorem cancel_order_marks (self : t) (auth : TradovateAuth.t)
    (h : list (string * string)) (oid : option Z) :
  TradovateAuth.get_auth_headers auth = Ok h ->
  (forall out,
     (out = HttpRaises \/ exists st d, out = HttpResponse st d /\ st <> 200%Z) ->
     cancel_order self auth oid out = Ok (self, false, [PostCancelOrder oid])) /\
  (forall d,
     exists self',
       cancel_order self auth oid (HttpResponse 200 d)
       = Ok (self', true, [PostCancelOrder oid]) /\
       executions self' = executions self /\
       (forall k,
          pending_orders self' !! k =
          if decide (oid = Some k)
          then (fun o => set_status o "Cancelled") <$> pending_orders self !! k
          else pending_orders self !! k) /\
       dom (pending_orders self') = dom (pending_orders self)) /\
  (forall z o d,
     pending_orders self !! z = Some o ->
     status o = "Working"%string ->
     oid = Some z ->
     exists self' o',
       cancel_order self auth oid (HttpResponse 200 d)
       = Ok (self', true, [PostCancelOrder oid]) /\
       pending_orders self' !! z = Some o' /\
       status o' = "Cancelled"%string /\
       order_id o' = order_id o /\ symbol o' = symbol o /\
       action o' = action o /\ qty o' = qty o /\
       order_type o' = order_type o /\ price o' = price o /\
       stop_price o' = stop_price o /\ time_in_force o' = time_in_force o).
Proof.
  intros Hh. unfold cancel_order. rewrite Hh. cbn [bind].
  split; [| split].
  - intros out [-> | (st & d & -> & Hst)]; [reflexivity |].
    apply Z.eqb_neq in Hst. now rewrite Hst.
  - intros d. cbn [Z.eqb Pos.eqb]. eexists. split; [reflexivity |].
    destruct oid as [z |]; cbn [executions pending_orders].
    + destruct (pending_orders self !! z) as [o |] eqn:Hz;
        cbn [executions pending_orders].
      * split; [reflexivity |]. split.
        -- intros k. destruct (decide (Some z = Some k)) as [[= ->] | Hne].
           ++ now rewrite lookup_insert_eq, Hz.
           ++ rewrite lookup_insert_ne by congruence. reflexivity.
        -- apply dom_insert_lookup_L. now rewrite Hz.
      * split; [reflexivity |]. split; [| reflexivity].
        intros k. destruct (decide (Some z = Some k)) as [[= ->] | Hne];
          [now rewrite Hz | reflexivity].
    + split; [reflexivity |]. split; [| reflexivity].
      intros k. destruct (decide (None = Some k)); [discriminate | reflexivity].
  - intros z o d Hz Hst ->. cbn [Z.eqb Pos.eqb]. rewrite Hz.
    eexists _, _. split; [reflexivity |].
    cbn [pending_orders]. rewrite lookup_insert_eq. repeat split.
Qed.

Lemma cancel_order_marks_witness :
  let data := {| TradovateAuth.d_accessToken := Some "tok1"%string;
                 TradovateAuth.d_mdAccessToken := Some "md1"%string;
                 TradovateAuth.d_userId := Some 7%Z;
                 TradovateAuth.d_accountId := Some 42%Z |} in
  let auth := fst (fst (TradovateAuth.authenticate
                          (TradovateAuth.init "user" "pw" "sec" None "demo")
                          (mk_datetime 738000 0) (HttpResponse 200 (Some data)))) in
  cancel_order init auth (Some 9001%Z) (HttpResponse 404 None)
  = Ok (init, false, [PostCancelOrder (Some 9001%Z)]).
Proof.
  intros data auth.
  refine (proj1 (cancel_order_marks init auth _ (Some 9001%Z) eq_refl) _ _).
  right. exists 404%Z, None. split; [reflexivity | discriminate].
Defined.

(** Place, then cancel: the order ends up tracked as "Cancelled". *)
Example place_then_cancel :
  let data := {| TradovateAuth.d_accessToken := Some "tok1"%string;
                 TradovateAuth.d_mdAccessToken := Some "md1"%string;
                 TradovateAuth.d_userId := Some 7%Z;
                 TradovateAuth.d_accountId := Some 42%Z |} in
  let auth := fst (fst (TradovateAuth.authenticate
                          (TradovateAuth.init "user" "pw" "sec" None "demo")
                          (mk_datetime 738000 0) (HttpResponse 200 (Some data)))) in
  let answer : gmap string JVal := <["orderId" := JInt 9001]> ∅ in
  match place_order (fun _ => None) init auth "MNQH6" "Sell" 1 "Stop"
          None (Some 20505) "Day" (HttpResponse 200 (Some answer)) with
  | Ok (om, _, _) =>
      match cancel_order om auth (Some 9001%Z) (HttpResponse 200 None) with
      | Ok (om', ok, _) =>
          ok = true /\
          (status <$> pending_orders om !! 9001%Z) = Some "Working"%string /\
          (status <$> pending_orders om' !! 9001%Z) = Some "Cancelled"%string /\
          (stop_price <$> pending_orders om' !! 9001%Z) = Some (Some 20505)
      | Raise _ => False
      end
  | Raise _ => False
  end.
Proof. repeat split. Qed.

(** *** Modifying *)

(** X17.  With an authenticated session [modify_order] sends one request
    whose body holds the order id, the new price when one is given and
    is not zero, and the new quantity when one is given and is not zero
    (a zero is dropped without notice); it returns [True] exactly on a
    200 answer; and it never touches the order manager, so a tracked
    order keeps the price and quantity it was placed with. *)
Theorem modify_order_leaves_tracking (self : t) (auth : TradovateAuth.t)
    (h : list (string * string)) (id : Z) (new_price : option Q)
    (new_qty : option Z) (out : http unit) :
  TradovateAuth.get_auth_headers auth = Ok h ->
  let body := modify_order_body id new_price new_qty in
  modify_order self auth id new_price new_qty out
  = Ok (self,
        match out with
        | HttpResponse st _ => (st =? 200)%Z
        | HttpRaises => false
        end,
        [PostModifyOrder body]) /\
  body !! "orderId" = Some (JInt id) /\
  body !! "price" =
    match new_price with
    | Some p => if Qeq_bool p 0 then None else Some (JNum p)
    | None => None
    end /\
  body !! "orderQty" =
    match new_qty with
    | Some n => if (n =? 0)%Z then None else Some (JInt n)
    | None => None
    end /\
  (forall k, k <> "orderId"%string -> k <> "price"%string ->
             k <> "orderQty"%string -> body !! k = None).
Proof.
  intros Hh body. split.
  - unfold modify_order. rewrite Hh. cbn [bind].
    destruct out as [| st d]; [reflexivity |].
    now destruct (st =? 200)%Z.
  - subst body. unfold modify_order_body, truthy_Q, truthy_Z.
    destruct new_price as [p |], new_qty as [n |];
      try destruct (Qeq_bool p 0); try destruct (n =? 0)%Z; cbn [negb];
      repeat split; try (intros k H1 H2 H3); simplify_map_eq; reflexivity.
Qed.

Lemma modify_order_leaves_tracking_witness :
  let data := {| TradovateAuth.d_accessToken := Some "tok1"%string;
                 TradovateAuth.d_mdAccessToken := Some "md1"%string;
                 TradovateAuth.d_userId := Some 7%Z;
                 TradovateAuth.d_accountId := Some 42%Z |} in
  let auth := fst (fst (TradovateAuth.authenticate
                          (TradovateAuth.init "user" "pw" "sec" None "demo")
                          (mk_datetime 738000 0) (HttpResponse 200 (Some data)))) in
  modify_order init auth 9001 (Some 0) (Some 2%Z) (HttpResponse 200 None)
  = Ok (init, true, [PostModifyOrder (modify_order_body 9001 (Some 0) (Some 2%Z))])
  /\ modify_order_body 9001 (Some 0) (Some 2%Z) !! "price" = None.
Proof.
  intros data auth.
  destruct (modify_order_leaves_tracking init auth _ 9001 (Some 0) (Some 2%Z)
              (HttpResponse 200 None) eq_refl) as (H1 & _ & H3 & _).
  split; [exact H1 | exact H3].
Defined.

(** *** Flattening, the other answers *)

Lemma cancel_each_no_placement (auth : TradovateAuth.t)
    (orders : list OrderRecord) (self : t) (outs : nat -> http unit)
    (self' : t) (reqs : list request) :
  cancel_each self auth orders outs = Ok (self', reqs) ->
  Forall (fun r => exists oid, r = PostCancelOrder oid) reqs /\
  dom (pending_orders self') = dom (pending_orders self).
Proof.
  revert self outs self' reqs.
  induction orders as [| o orders IH]; intros self outs self' reqs.
  - intros [= <- <-]. split; [constructor | reflexivity].
  - cbn [cancel_each].
    destruct (cancel_order self auth (orderId o) (outs 0%nat))
      as [[[s1 ok] reqs1] | ex] eqn:Hc; cbn [bind]; [| discriminate].
    destruct (cancel_each s1 auth orders (fun i => outs (S i)))
      as [[s2 reqs2] | ex] eqn:Hr; cbn [bind]; [| discriminate].
    intros [= <- <-].
    destruct (IH _ _ _ _ Hr) as [Hall Hdom].
    unfold cancel_order in Hc.
    destruct (TradovateAuth.get_auth_headers auth); cbn [bind] in Hc;
      [| discriminate].
    assert (Hone : reqs1 = [PostCancelOrder (orderId o)] /\
                   dom (pending_orders s1) = dom (pending_orders self)).
    { destruct (outs 0%nat) as [| st d]; [now injection Hc as <- <- <- |].
      destruct (st =? 200)%Z; [| now injection Hc as <- <- <-].
      injection Hc as <- <- <-. split; [reflexivity |].
      destruct (orderId o) as [z |]; [| reflexivity].
      destruct (pending_orders self !! z) eqn:Hz; [| reflexivity].
      cbn [pending_orders]. apply dom_insert_lookup_L. now rewrite Hz. }
    destruct Hone as [-> Hd1]. split.
    + constructor; [eauto | exact Hall].
    + now rewrite Hdom.
Qed.

(** With headers in place [flatten_all] answers [True] after the list
    request and cancellations only. *)
Lemma flatten_all_requests (self : t) (auth : TradovateAuth.t)
    (h : list (string * string)) (list_out : http (list OrderRecord))
    (outs : nat -> http unit) :
  TradovateAuth.get_auth_headers auth = Ok h ->
  exists self' reqs,
    flatten_all self auth list_out outs
    = Ok (self', true, GetOrderList :: reqs) /\
    Forall (fun r => exists oid, r = PostCancelOrder oid) reqs /\
    dom (pending_orders self') = dom (pending_orders self).
Proof.
  intros Hh.
  assert (Hget : exists orders,
             get_orders auth "Working" list_out = Ok (orders, [GetOrderList])).
  { unfold get_orders. rewrite Hh. cbn [bind].
    destruct list_out as [| st [d |]]; eauto.
    destruct (st =? 200)%Z; eauto. }
  destruct Hget as [orders Hget].
  unfold flatten_all. rewrite Hget. cbn [bind].
  assert (Htok : is_Some (TradovateAuth.access_token auth) /\
                 TradovateAuth.access_token auth <> Some EmptyString).
  { unfold TradovateAuth.get_auth_headers in Hh.
    destruct (TradovateAuth.access_token auth) as [[| c tok] |];
      try discriminate.
    split; [eauto | discriminate]. }
  destruct (OrderManagerFacts.cancel_each_requests auth orders self outs
              (proj1 Htok) (proj2 Htok)) as [s' Hc].
  rewrite Hc. cbn [bind]. eexists _, _. split; [reflexivity |].
  exact (cancel_each_no_placement auth orders self outs _ _ Hc).
Qed.

(** X18.  Without a usable access token [flatten_all] raises before any
    request is sent.  With one it never raises and always returns [True]:
    when the order list cannot be obtained (the request raises, the
    status is not 200 or the body cannot be read) it sends no
    cancellation at all and changes nothing; in every case its requests
    are the list request followed by cancellations only, and the set of
    tracked order ids is unchanged. *)
Theorem flatten_all_always_true (self : t) (auth : TradovateAuth.t) :
  (forall list_out outs,
     TradovateAuth.get_auth_headers auth
       = Raise (RuntimeError "Not authenticated") ->
     flatten_all self auth list_out outs
     = Raise (RuntimeError "Not authenticated")) /\
  (forall h list_out outs,
     TradovateAuth.get_auth_headers auth = Ok h ->
     exists self' reqs,
       flatten_all self auth list_out outs
       = Ok (self', true, GetOrderList :: reqs) /\
       Forall (fun r => exists oid, r = PostCancelOrder oid) reqs /\
       dom (pending_orders self') = dom (pending_orders self)) /\
  (forall h list_out outs,
     TradovateAuth.get_auth_headers auth = Ok h ->
     (list_out = HttpRaises \/
      (exists st, list_out = HttpResponse st None) \/
      (exists st d, list_out = HttpResponse st d /\ st <> 200%Z)) ->
     flatten_all self auth list_out outs = Ok (self, true, [GetOrderList])).
Proof.
  split; [| split].
  - intros list_out outs Hh. unfold flatten_all, get_orders. now rewrite Hh.
  - intros h list_out outs Hh. now apply flatten_all_requests with h.
  - intros h list_out outs Hh Hfail.
    unfold flatten_all, get_orders. rewrite Hh. cbn [bind].
    destruct Hfail as [-> | [(st & ->) | (st & d & -> & Hst)]];
      [reflexivity | reflexivity |].
    apply Z.eqb_neq in Hst. destruct d; now rewrite ?Hst.
Qed.

End OrderTrackingFacts.

(** ** Market data dispatch *)

Module MarketDataClientFacts.
Import Py Net MarketDataClient.

Section Dispatch.
Variable W : Type.

Lemma dispatch_coroutines {A : Type} (hs : list (handler W A)) (x : A) (w : W) :
  Forall (fun h => h_async h = true) hs ->
  exists w', dispatch W hs x w = (w', Ok tt).
Proof.
  revert w. induction hs as [| h hs IH]; intros w Hall.
  - eexists. reflexivity.
  - inversion Hall as [| ? ? Hh Hrest]; subst. cbn [dispatch]. rewrite Hh.
    apply IH. exact Hrest.
Qed.

(** The loops change the two dictionaries only. *)
Lemma handle_quotes_frame (ds : list QuoteData) (self : t W)
    (stamps : nat -> datetime) (w : W) :
  let s' := fst (fst (handle_quotes W self ds stamps w)) in
  connected W s' = connected W self /\
  quote_handlers W s' = quote_handlers W self /\
  position_handlers W s' = position_handlers W self /\
  positions W s' = positions W self.
Proof.
  revert self stamps w. induction ds as [| d ds IH]; intros self stamps w.
  - repeat split.
  - cbn [handle_quotes].
    destruct (dispatch W _ _ w) as [w1 [[] | ex]].
    + destruct (IH (set_quote W self (quote_of d (stamps 0%nat)))
                  (fun i => stamps (S i)) w1) as (H1 & H2 & H3 & H4).
      cbv zeta in *. rewrite H1, H2, H3, H4. repeat split.
    + repeat split.
Qed.

Lemma handle_positions_frame (ds : list PositionData) (self : t W)
    (account : option TradovateAuth.AccountId)
    (stamps : nat -> datetime) (w : W) :
  let s' := fst (fst (handle_positions W self account ds stamps w)) in
  connected W s' = connected W self /\
  quote_handlers W s' = quote_handlers W self /\
  position_handlers W s' = position_handlers W self /\
  quotes W s' = quotes W self.
Proof.
  revert self stamps w. induction ds as [| d ds IH]; intros self stamps w.
  - repeat split.
  - cbn [handle_positions].
    destruct (account_eqb (pd_accountId d) account); [| apply IH].
    destruct (dispatch W _ _ w) as [w1 [[] | ex]].
    + destruct (IH (set_position W self (position_of d (stamps 0%nat)))
                  (fun i => stamps (S i)) w1) as (H1 & H2 & H3 & H4).
      cbv zeta in *. rewrite H1, H2, H3, H4. repeat split.
    + repeat split.
Qed.

Lemma _handle_message_connected (self : t W) (auth : TradovateAuth.t)
    (f : Frame) (qs ps : nat -> datetime) (w : W) :
  connected W (fst (fst (_handle_message W self auth f qs ps w)))
  = connected W self.
Proof.
  unfold _handle_message.
  destruct (f_quotes f) as [ds |].
  - pose proof (handle_quotes_frame ds self qs w) as (H1 & _).
    destruct (handle_quotes W self ds qs w) as [[s1 w1] [[] | ex]];
      cbn [fst snd] in *; [| exact H1].
    destruct (f_positions f) as [pds |]; [| exact H1].
    pose proof (handle_positions_frame pds s1 (TradovateAuth.account_id auth)
                  ps w1) as (H2 & _).
    cbv zeta in H2. now rewrite H2.
  - destruct (f_positions f) as [pds |]; [| reflexivity].
    pose proof (handle_positions_frame pds self (TradovateAuth.account_id auth)
                  ps w) as (H2 & _).
    exact H2.
Qed.

(** X19.  The loop over the "positions" array records an entry only when
    its account id equals the session's: entries of other accounts change
    nothing, so a session whose account id is the text of the environment
    variable records none of the entries that carry an integer id.  With
    coroutine handlers (or none) the loop ends normally, every position
    it holds afterwards was held before or comes from an entry of the
    session's account, stored under that entry's contract id, and the
    last entry of the frame, when it is of the session's account, is the
    one found under its contract id. *)
Theorem positions_follow_the_account (self : t W)
    (account : option TradovateAuth.AccountId) (stamps : nat -> datetime)
    (w : W) :
  (forall ds,
     Forall (fun d => account_eqb (pd_accountId d) account = false) ds ->
     handle_positions W self account ds stamps w = (self, w, Ok tt)) /\
  (forall ds text,
     account = Some (TradovateAuth.AccStr text) ->
     Forall (fun d => exists z, pd_accountId d = Some (TradovateAuth.AccInt z)) ds ->
     handle_positions W self account ds stamps w = (self, w, Ok tt)) /\
  (forall ds,
     Forall (fun h => h_async h = true) (position_handlers W self) ->
     let r := handle_positions W self account ds stamps w in
     snd r = Ok tt /\
     (forall k p,
        positions W (fst (fst r)) !! k = Some p ->
        positions W self !! k = Some p \/
        exists i d, ds !! i = Some d /\
                    account_eqb (pd_accountId d) account = true /\
                    pd_contractId d = k /\
                    p = position_of d (stamps i))) /\
  (forall pre d,
     Forall (fun h => h_async h = true) (position_handlers W self) ->
     account_eqb (pd_accountId d) account = true ->
     positions W (fst (fst (handle_positions W self account (pre ++ [d]) stamps w)))
       !! pd_contractId d
     = Some (position_of d (stamps (length pre)))).
Proof.
  split; [| split; [| split]].
  - intros ds. revert stamps. induction ds as [| d ds IH]; intros stamps Hall.
    + reflexivity.
    + inversion Hall as [| ? ? Hd Hrest]; subst. cbn [handle_positions].
      rewrite Hd. apply IH. exact Hrest.
  - intros ds text -> Hall. revert stamps.
    induction ds as [| d ds IH]; intros stamps.
    + reflexivity.
    + inversion Hall as [| ? ? [z Hd] Hrest]; subst. cbn [handle_positions].
      rewrite Hd. cbn [account_eqb]. apply IH. exact Hrest.
  - intros ds. revert self stamps w.
    induction ds as [| d ds IH]; intros self stamps w Hh r; subst r.
    + split; [reflexivity |]. intros k p Hk. now left.
    + cbn [handle_positions].
      destruct (account_eqb (pd_accountId d) account) eqn:Hacc.
      * destruct (dispatch_coroutines
                    (position_handlers W
                       (set_position W self (position_of d (stamps 0%nat))))
                    (position_of d (stamps 0%nat)) w Hh) as [w1 Hd].
        rewrite Hd.
        destruct (IH (set_position W self (position_of d (stamps 0%nat)))
                    (fun i => stamps (S i)) w1 Hh) as [Hok Hsound].
        split; [exact Hok |].
        intros k p Hk. destruct (Hsound k p Hk) as [Hold | (i & d' & Hi & Ha & Hc & Hp)].
        -- cbn [set_position positions] in Hold.
           destruct (decide (pd_contractId d = k)) as [<- | Hne].
           ++ rewrite lookup_insert_eq in Hold. injection Hold as <-.
              right. exists 0%nat, d. repeat split. exact Hacc.
           ++ rewrite lookup_insert_ne in Hold by exact Hne. now left.
        -- right. exists (S i), d'. repeat split; assumption.
      * destruct (IH self (fun i => stamps (S i)) w Hh) as [Hok Hsound].
        split; [exact Hok |].
        intros k p Hk. destruct (Hsound k p Hk) as [Hold | (i & d' & Hi & Ha & Hc & Hp)].
        -- now left.
        -- right. exists (S i), d'. repeat split; assumption.
  - intros pre. revert self stamps w.
    induction pre as [| x pre IH]; intros self stamps w d Hh Hacc.
    + cbn [app handle_positions length]. rewrite Hacc.
      destruct (dispatch_coroutines
                  (position_handlers W
                     (set_position W self (position_of d (stamps 0%nat))))
                  (position_of d (stamps 0%nat)) w Hh) as [w1 Hd].
      rewrite Hd. cbn [fst positions set_position]. apply lookup_insert_eq.
    + cbn [app handle_positions length].
      destruct (account_eqb (pd_accountId x) account).
      * destruct (dispatch_coroutines
                    (position_handlers W
                       (set_position W self (position_of x (stamps 0%nat))))
                    (position_of x (stamps 0%nat)) w Hh) as [w1 Hd].
        rewrite Hd.
        apply (IH (set_position W self (position_of x (stamps 0%nat)))
                 (fun i => stamps (S i)) w1 d Hh Hacc).
      * apply (IH self (fun i => stamps (S i)) w d Hh Hacc).
Qed.

(** X20.  With coroutine handlers (or none) the loop over the "quotes"
    array ends normally and the last quote of the frame is the one
    [get_last_quote] then returns for its contract; the tracked positions
    are not touched.  Missing fields read as zero: a quote without a
    price has [last = 0]. *)
Theorem quotes_keep_the_latest (self : t W) (stamps : nat -> datetime) (w : W)
    (pre : list QuoteData) (d : QuoteData) (sym : string) :
  Forall (fun h => h_async h = true) (quote_handlers W self) ->
  qd_contractId d = Some sym ->
  let r := handle_quotes W self (pre ++ [d]) stamps w in
  snd r = Ok tt /\
  get_last_quote W (fst (fst r)) sym = Some (quote_of d (stamps (length pre))) /\
  positions W (fst (fst r)) = positions W self /\
  (qd_price d = None ->
   q_last <$> get_last_quote W (fst (fst r)) sym = Some 0%Q).
Proof.
  intros Hh Hsym.
  assert (Hmain : forall pre self stamps w,
            Forall (fun h => h_async h = true) (quote_handlers W self) ->
            let r := handle_quotes W self (pre ++ [d]) stamps w in
            snd r = Ok tt /\
            quotes W (fst (fst r)) !! Some sym
            = Some (quote_of d (stamps (length pre)))).
  { clear pre self stamps w Hh.
    induction pre as [| x pre IH]; intros self stamps w Hh r; subst r.
    - cbn [app handle_quotes length].
      destruct (dispatch_coroutines
                  (quote_handlers W (set_quote W self (quote_of d (stamps 0%nat))))
                  (quote_of d (stamps 0%nat)) w Hh) as [w1 Hd].
      rewrite Hd. cbn [fst snd handle_quotes quotes set_quote].
      split; [reflexivity |].
      change (q_symbol (quote_of d (stamps 0%nat))) with (qd_contractId d).
      rewrite Hsym. apply lookup_insert_eq.
    - cbn [app handle_quotes length].
      destruct (dispatch_coroutines
                  (quote_handlers W (set_quote W self (quote_of x (stamps 0%nat))))
                  (quote_of x (stamps 0%nat)) w Hh) as [w1 Hd].
      rewrite Hd.
      apply (IH (set_quote W self (quote_of x (stamps 0%nat)))
               (fun i => stamps (S i)) w1 Hh). }
  intros r. destruct (Hmain pre self stamps w Hh) as [Hok Hq].
  fold r in Hok, Hq.
  split; [exact Hok |]. unfold get_last_quote.
  split; [exact Hq |].
  split; [apply (handle_quotes_frame (pre ++ [d]) self stamps w) |].
  intros Hp. rewrite Hq. cbn. now rewrite Hp.
Qed.

(** X21.  A registered quote handler that is a plain function, as the
    coordinator's [_on_quote] is, ends the handling of a frame right
    after its first quote: that quote is stored and handed to the
    handler, then the [await] of the handler's return value raises
    [TypeError]; the remaining quotes of the frame, the handlers
    registered after it and the positions of the same frame are not
    processed. *)
Theorem plain_handler_stops_the_frame (self : t W) (auth : TradovateAuth.t)
    (f : Frame) (d : QuoteData) (rest : list QuoteData)
    (qs ps : nat -> datetime) (w : W)
    (h : handler W Quote) (hs : list (handler W Quote)) :
  quote_handlers W self = h :: hs ->
  h_async h = false ->
  f_quotes f = Some (d :: rest) ->
  _handle_message W self auth f qs ps w
  = (set_quote W self (quote_of d (qs 0%nat)),
     h_run h (quote_of d (qs 0%nat)) w,
     Raise TypeError).
Proof.
  intros Hhs Hh Hf. unfold _handle_message. rewrite Hf.
  cbn [handle_quotes set_quote quote_handlers]. rewrite Hhs.
  cbn [dispatch]. rewrite Hh. reflexivity.
Qed.

(** X22.  [_listener] does nothing on a client that is not connected,
    skips a text that does not parse, keeps [connected] set through every
    frame whatever its handling raises, and at the end of the connection
    clears [connected] and stops: what arrives after it is never
    handled. *)
Theorem listener_survives_frames (auth : TradovateAuth.t) :
  (forall self arrivals w,
     connected W self = false ->
     _listener W self auth arrivals w = (self, w)) /\
  (forall self rest w,
     _listener W self auth (RecvMalformed :: rest) w
     = _listener W self auth rest w) /\
  (forall arrivals self w,
     connected W self = true ->
     Forall (fun a => a <> RecvClosed) arrivals ->
     connected W (fst (_listener W self auth arrivals w)) = true) /\
  (forall pre post self w,
     connected W self = true ->
     Forall (fun a => a <> RecvClosed) pre ->
     _listener W self auth (pre ++ RecvClosed :: post) w
     = (set_connected W (fst (_listener W self auth pre w)) false,
        snd (_listener W self auth pre w))).
Proof.
  split; [| split; [| split]].
  - intros self arrivals w Hc. destruct arrivals; cbn [_listener]; now rewrite Hc.
  - intros self rest w. cbn [_listener].
    destruct (connected W self) eqn:Hc; [reflexivity |].
    destruct rest; cbn [_listener]; now rewrite Hc.
  - induction arrivals as [| a arrivals IH]; intros self w Hc Hall.
    + cbn [_listener]. now rewrite Hc.
    + inversion Hall as [| ? ? Ha Hrest]; subst. cbn [_listener]. rewrite Hc.
      destruct a as [f qs ps | |]; [| now apply IH | congruence].
      pose proof (_handle_message_connected self auth f qs ps w) as Hm.
      destruct (_handle_message W self auth f qs ps w) as [[s1 w1] r].
      cbn [fst] in Hm. apply IH; [congruence | exact Hrest].
  - induction pre as [| a pre IH]; intros post self w Hc Hall.
    + cbn [app _listener]. now rewrite Hc.
    + inversion Hall as [| ? ? Ha Hrest]; subst. cbn [app _listener]. rewrite Hc.
      destruct a as [f qs ps | |]; [| now apply IH | congruence].
      pose proof (_handle_message_connected self auth f qs ps w) as Hm.
      destruct (_handle_message W self auth f qs ps w) as [[s1 w1] r].
      cbn [fst] in Hm. apply IH; [congruence | exact Hrest].
Qed.
End Dispatch.

Lemma quotes_keep_the_latest_witness :
  let d := {| qd_contractId := Some "MNQH6"%string; qd_bidPrice := None;
              qd_askPrice := None; qd_price := None; qd_bidSize := None;
              qd_askSize := None; qd_volume := Some 12%Z |} in
  let stamps := fun _ : nat => mk_datetime 738000 0 in
  let r := handle_quotes unit (init unit) [d] stamps tt in
  snd r = Ok tt /\
  get_last_quote unit (fst (fst r)) "MNQH6" = Some (quote_of d (stamps 0%nat)) /\
  q_last <$> get_last_quote unit (fst (fst r)) "MNQH6" = Some 0%Q.
Proof.
  intros d stamps r.
  destruct (quotes_keep_the_latest unit (init unit) stamps tt [] d "MNQH6"
              ltac:(constructor) eq_refl) as (H1 & H2 & _ & H4).
  split; [exact H1 |]. split; [exact H2 | exact (H4 eq_refl)].
Defined.

End MarketDataClientFacts.

(** ** The coordinator's wiring of the quote stream *)

Module WiringFacts.
Import Py Net MNQTradingBot MNQTradingBotLoop.

Lemma plain_handler_stops_the_frame_witness :
  let t0 := mk_datetime 738000 0 in
  let d price := {| MarketDataClient.qd_contractId := Some "MNQH6"%string;
                    MarketDataClient.qd_bidPrice := None;
                    MarketDataClient.qd_askPrice := None;
                    MarketDataClient.qd_price := Some price;
                    MarketDataClient.qd_bidSize := None;
                    MarketDataClient.qd_askSize := None;
                    MarketDataClient.qd_volume := Some 12%Z |} in
  let p := {| MarketDataClient.pd_accountId := Some (TradovateAuth.AccInt 42);
              MarketDataClient.pd_contractId := Some "MNQH6"%string;
              MarketDataClient.pd_netPos := Some 1%Z;
              MarketDataClient.pd_netPrice := Some 20510%Q;
              MarketDataClient.pd_unrealized := None |} in
  let f := {| MarketDataClient.f_quotes := Some [d 20510%Q; d 20545%Q];
              MarketDataClient.f_positions := Some [p] |} in
  let client := MarketDataClient.on_quote t (MarketDataClient.init t)
                  (quote_handler (fun _ => t0)) in
  let auth := TradovateAuth.init "user" "pw" "sec" None "demo" in
  let bot := init true "MNQH6" in
  let '(client', bot', r) :=
    MarketDataClient._handle_message t client auth f (fun _ => t0) (fun _ => t0) bot in
  r = Raise TypeError /\
  (Momentum30pt.c_close <$> current_candle bot') = Some 20510%Q /\
  MarketDataClient.positions t client' = ∅.
Proof.
  intros t0 d p f client auth bot.
  rewrite (MarketDataClientFacts.plain_handler_stops_the_frame t client auth f
             (d 20510%Q) [d 20545%Q] (fun _ => t0) (fun _ => t0) bot
             (quote_handler (fun _ => t0)) [] eq_refl eq_refl eq_refl).
  repeat split.
Defined.

(** X23.  With the coordinator's [_on_quote] as the first quote handler,
    a run of the listener over frames that carry quotes hands the candle
    builder exactly the first quote of each frame, in order of arrival;
    the positions that such frames carry are never recorded, and the
    client stays connected although every frame ends in a [TypeError]. *)
Theorem listener_feeds_the_aggregator
    (clock : MarketDataClient.Quote -> datetime)
    (hs : list (MarketDataClient.handler t MarketDataClient.Quote))
    (auth : TradovateAuth.t) (frames : list QuoteFrame)
    (client : MarketDataClient.t t) (bot : t) :
  MarketDataClient.connected t client = true ->
  MarketDataClient.quote_handlers t client = quote_handler clock :: hs ->
  let r := MarketDataClient._listener t client auth (map arrival_of frames) bot in
  snd r = on_quotes bot (map (fun f => (first_quote f, clock (first_quote f))) frames) /\
  MarketDataClient.positions t (fst r) = MarketDataClient.positions t client /\
  MarketDataClient.connected t (fst r) = true /\
  (forall f, last frames = Some f ->
     MarketDataClient.quotes t (fst r)
       !! MarketDataClient.q_symbol (first_quote f) = Some (first_quote f)).
Proof.
  revert client bot. induction frames as [| f frames IH]; intros client bot Hc Hh r.
  - subst r. cbn [map MarketDataClient._listener]. rewrite Hc.
    repeat split; try assumption. intros f Hf. discriminate.
  - subst r.
    assert (Hm : MarketDataClient._handle_message t client auth
                   {| MarketDataClient.f_quotes := Some (qf_first f :: qf_rest f);
                      MarketDataClient.f_positions := qf_positions f |}
                   (qf_qstamps f) (qf_pstamps f) bot
                 = (MarketDataClient.set_quote t client (first_quote f),
                    _on_quote bot (first_quote f) (clock (first_quote f)),
                    Raise TypeError)).
    { unfold MarketDataClient._handle_message.
      cbn [MarketDataClient.f_quotes MarketDataClient.handle_quotes
           MarketDataClient.set_quote MarketDataClient.quote_handlers].
      rewrite Hh. reflexivity. }
    cbn [map MarketDataClient._listener]. rewrite Hc.
    change (arrival_of f)
      with (MarketDataClient.RecvFrame
              {| MarketDataClient.f_quotes := Some (qf_first f :: qf_rest f);
                 MarketDataClient.f_positions := qf_positions f |}
              (qf_qstamps f) (qf_pstamps f)).
    cbv iota. rewrite Hm.
    destruct (IH (MarketDataClient.set_quote t client (first_quote f))
                (_on_quote bot (first_quote f) (clock (first_quote f))))
      as (H1 & H2 & H3 & H4); [exact Hc | exact Hh |].
    cbv zeta in H1, H2, H3, H4.
    split; [exact H1 |]. split; [exact H2 |]. split; [exact H3 |].
    intros f' Hlast. destruct frames as [| g frames].
    + cbn in Hlast. injection Hlast as <-.
      cbn [map MarketDataClient._listener MarketDataClient.set_quote
           MarketDataClient.connected].
      rewrite Hc. cbn [fst MarketDataClient.quotes].
      apply lookup_insert_eq.
    + apply H4. exact Hlast.
Qed.

Lemma listener_feeds_the_aggregator_witness :
  let t0 := mk_datetime 738000 0 in
  let d price := {| MarketDataClient.qd_contractId := Some "MNQH6"%string;
                    MarketDataClient.qd_bidPrice := None;
                    MarketDataClient.qd_askPrice := None;
                    MarketDataClient.qd_price := Some price;
                    MarketDataClient.qd_bidSize := None;
                    MarketDataClient.qd_askSize := None;
                    MarketDataClient.qd_volume := Some 12%Z |} in
  let fr price := {| qf_first := d price; qf_rest := []; qf_positions := None;
                     qf_qstamps := fun _ => t0; qf_pstamps := fun _ => t0 |} in
  let client := MarketDataClient.set_connected t
                  (MarketDataClient.on_quote t (MarketDataClient.init t)
                     (quote_handler (fun _ => t0))) true in
  let auth := TradovateAuth.init "user" "pw" "sec" None "demo" in
  let bot := init true "MNQH6" in
  current_candle
    (snd (MarketDataClient._listener t client auth
            (map arrival_of [fr 20510%Q; fr 20505%Q; fr 20545%Q]) bot))
  = Some (Momentum30pt.mk_candle 20510 20545 20505 20545 12 t0).
Proof.
  intros t0 d fr client auth bot.
  rewrite (proj1 (listener_feeds_the_aggregator (fun _ => t0) [] auth
                    [fr 20510%Q; fr 20505%Q; fr 20545%Q] client bot
                    eq_refl eq_refl)).
  reflexivity.
Defined.

End WiringFacts.

(** ** Execution and shutdown *)

Module ExecutionFacts.
Import Py Net MNQTradingBot MNQTradingBotLoop.
Local Open Scope Q_scope.

(** The two counters after a counted trade. *)
Lemma count_trade_run (s : t) (r : RiskManager.t) :
  risk s = Some r ->
  count_trade s
  = (set_trades_today (set_risk s (RiskManager.record_trade r))
       (trades_today s + 1)%Z, [], Ok tt).
Proof.
  intros Hr. unfold count_trade, bindM, get, put, component. rewrite Hr.
  reflexivity.
Qed.

Section Runtime.
Variable fmt_float : Q -> string.
Variable int_of_str : string -> option Z.

Lemma place_run (s : t) (om om' : OrderManager.t) (a : TradovateAuth.t)
    (action order_type : string) (price stop_price : option Q)
    (out : http (gmap string JVal)) (res : option (gmap string JVal))
    (reqs : list OrderManager.request) :
  orders s = Some om ->
  auth s = Some a ->
  OrderManager.place_order int_of_str om a (symbol s) action 1 order_type
    price stop_price "Day" out = Ok (om', res, reqs) ->
  place int_of_str action order_type price stop_price out s
  = (set_orders s om', map EvRequest reqs, Ok res).
Proof.
  intros Ho Ha Hp. unfold place, bindM, get, put, component, lift.
  rewrite Ho, Ha. cbn [ret]. rewrite Hp. reflexivity.
Qed.

(** With headers and an account id in place every placement is
    attempted. *)
Lemma place_order_attempted (om : OrderManager.t) (a : TradovateAuth.t)
    (h : list (string * string)) (acct : Z)
    (symbol action : string) (qty : Z) (order_type : string)
    (price stop_price : option Q) (tif : string)
    (out : http (gmap string JVal)) :
  TradovateAuth.get_auth_headers a = Ok h ->
  OrderManager.int_account_id int_of_str (TradovateAuth.account_id a) = Ok acct ->
  exists om' res body,
    OrderManager.place_order_body int_of_str a symbol action qty order_type
      price stop_price tif = Ok body /\
    OrderManager.place_order int_of_str om a symbol action qty order_type
      price stop_price tif out = Ok (om', res, [OrderManager.PostPlaceOrder body]).
Proof.
  intros Hh Hacct. unfold OrderManager.place_order.
  rewrite Hh. cbn [bind].
  unfold OrderManager.place_order_body. rewrite Hacct. cbn [bind].
  destruct out as [| st [data |]]; try (eexists _, _, _; split; reflexivity).
  destruct (st =? 200)%Z; [| eexists _, _, _; split; reflexivity].
  destruct (OrderManager.OrderAction_of action),
    (OrderManager.OrderType_of order_type),
    (OrderManager.TimeInForce_of tif);
    eexists _, _, _; split; reflexivity.
Qed.

(** X24.  When [check_entry] rejects the entry, the part of
    [_execute_signal] that follows the guard stops there: the only events
    are the risk check and the rejection with its reason; no order
    request, no paper record, no counted trade; of the bot only the risk
    manager may have changed (its kill switch). *)
Theorem risk_rejection_places_nothing (self : t) (r : RiskManager.t)
    (signal : Momentum30pt.Signal) (target : Q) (e : exec_env) :
  risk self = Some r ->
  let direction := Momentum30pt.direction signal in
  let entry := Momentum30pt.entry_price signal in
  let stop := Momentum30pt.stop_price signal in
  let verdict := RiskManager.check_entry fmt_float r direction 1 entry stop in
  fst (snd verdict) = false ->
  checked_execution fmt_float int_of_str signal target e self
  = (set_risk self (fst verdict),
     [EvRiskCheck direction 1 entry stop; EvRiskBlock (snd (snd verdict))],
     Ok tt).
Proof.
  intros Hr direction entry stop verdict Hno.
  unfold checked_execution, bindM, get, put, component, emit.
  rewrite Hr. cbn [ret]. fold direction entry stop. fold verdict.
  destruct verdict as [r' [allowed reason]]. cbn [fst snd] in *. subst allowed.
  reflexivity.
Qed.

(** X25.  [_paper_trade] writes one record, with the instrument, the
    direction, entry, stop and risk of the signal, the target and the
    mode "PAPER", then counts the trade in the risk manager and in the
    bot; it sends no request.  Without a risk manager the record is
    written and the call then raises. *)
Theorem paper_trade_logs_and_counts (self : t)
    (signal : Momentum30pt.Signal) (target : Q) (now : datetime) :
  let record := {| pt_time := now; pt_symbol := symbol self;
                   pt_direction := Momentum30pt.direction signal;
                   pt_entry := Momentum30pt.entry_price signal;
                   pt_stop := Momentum30pt.stop_price signal;
                   pt_target := target;
                   pt_risk := Momentum30pt.risk_points signal;
                   pt_mode := "PAPER" |} in
  (forall r, risk self = Some r ->
     _paper_trade signal target now self
     = (set_trades_today (set_risk self (RiskManager.record_trade r))
          (trades_today self + 1)%Z,
        [EvPaperLog record], Ok tt)) /\
  (risk self = None ->
     _paper_trade signal target now self
     = (self, [EvPaperLog record], Raise (AttributeError "record_trade"))).
Proof.
  intros record. split.
  - intros r Hr. unfold _paper_trade, bindM, get, emit.
    rewrite (count_trade_run self r Hr). reflexivity.
  - intros Hr. unfold _paper_trade, count_trade, bindM, get, emit, component.
    rewrite Hr. reflexivity.
Qed.

(** X26.  [_live_trade] places the entry as a Market order in the
    direction of the signal.  When that placement returns nothing (or an
    empty answer) no other order is sent and the trade is not counted.
    When it returns an answer, the Stop order at the signal's stop and
    the Limit order at the target are sent on the opposite side, in that
    order, and the trade is counted in the risk manager and in the bot
    whatever the answers to the two protective orders are. *)
Theorem live_trade_bracket (self : t) (om : OrderManager.t)
    (a : TradovateAuth.t) (r : RiskManager.t)
    (signal : Momentum30pt.Signal) (target : Q) (e : exec_env) :
  orders self = Some om ->
  auth self = Some a ->
  risk self = Some r ->
  let direction := Momentum30pt.direction signal in
  let opposite := if String.eqb direction "Buy" then "Sell"%string
                  else "Buy"%string in
  forall om1 res1 reqs1,
    OrderManager.place_order int_of_str om a (symbol self) direction 1
      "Market" None None "Day" (entry_out e) = Ok (om1, res1, reqs1) ->
    (res1 = None \/ res1 = Some ∅ ->
       _live_trade int_of_str signal target e self
       = (set_orders self om1, map EvRequest reqs1, Ok tt)) /\
    (forall data om2 res2 reqs2 om3 res3 reqs3,
       res1 = Some data -> data <> ∅ ->
       OrderManager.place_order int_of_str om1 a (symbol self) opposite 1
         "Stop" None (Some (Momentum30pt.stop_price signal)) "Day" (stop_out e)
         = Ok (om2, res2, reqs2) ->
       OrderManager.place_order int_of_str om2 a (symbol self) opposite 1
         "Limit" (Some target) None "Day" (target_out e)
         = Ok (om3, res3, reqs3) ->
       _live_trade int_of_str signal target e self
       = (set_trades_today
            (set_risk (set_orders self om3) (RiskManager.record_trade r))
            (trades_today self + 1)%Z,
          map EvRequest (reqs1 ++ reqs2 ++ reqs3), Ok tt)).
Proof.
  intros Ho Ha Hr direction opposite om1 res1 reqs1 H1.
  pose proof (place_run self om om1 a direction "Market" None None
                (entry_out e) res1 reqs1 Ho Ha H1) as P1.
  split.
  - intros Hres. unfold _live_trade, bindM. fold direction. rewrite P1.
    destruct Hres as [-> | ->]; cbn [ret].
    + now rewrite app_nil_r.
    + rewrite decide_True by reflexivity. cbn [ret]. now rewrite app_nil_r.
  - intros data om2 res2 reqs2 om3 res3 reqs3 -> Hne H2 H3.
    pose proof (place_run (set_orders self om1) om1 om2 a opposite "Stop" None
                  (Some (Momentum30pt.stop_price signal)) (stop_out e)
                  res2 reqs2 eq_refl Ha H2) as P2.
    pose proof (place_run (set_orders (set_orders self om1) om2) om2 om3 a
                  opposite "Limit" (Some target) None (target_out e)
                  res3 reqs3 eq_refl Ha H3) as P3.
    unfold _live_trade, bindM. fold direction. rewrite P1.
    rewrite decide_False by exact Hne. fold opposite.
    rewrite P2, P3.
    rewrite (count_trade_run (set_orders (set_orders (set_orders self om1) om2) om3)
               r Hr).
    rewrite app_nil_r, !map_app. reflexivity.
Qed.
End Runtime.

(** X27.  [stop] always clears [running].  Before [start] it does
    nothing else.  With an order manager and a session that can issue
    headers it flattens, sending the list request and cancellations
    only, never a placement, and then marks the market-data client as
    disconnected.  With a session that cannot issue headers it raises
    before the client is disconnected, which stays as it was. *)
Theorem stop_flattens_then_disconnects (self : t)
    (list_out : http (list OrderManager.OrderRecord))
    (outs : nat -> http unit) :
  running (fst (fst (stop self list_out outs))) = false /\
  (orders self = None -> market_data self = None ->
     stop self list_out outs = (set_running self false, [], Ok tt)) /\
  (forall om a h md,
     orders self = Some om -> auth self = Some a ->
     market_data self = Some md ->
     TradovateAuth.get_auth_headers a = Ok h ->
     let '(s', reqs, r) := stop self list_out outs in
     r = Ok tt /\
     (exists cancels,
        reqs = OrderManager.GetOrderList :: cancels /\
        Forall (fun q => exists oid, q = OrderManager.PostCancelOrder oid) cancels) /\
     (MarketData.connected <$> market_data s') = Some false /\
     (MarketData.positions <$> market_data s') = Some (MarketData.positions md)) /\
  (forall om a md,
     orders self = Some om -> auth self = Some a ->
     market_data self = Some md ->
     TradovateAuth.get_auth_headers a = Raise (RuntimeError "Not authenticated") ->
     stop self list_out outs
     = (set_running self false, [], Raise (RuntimeError "Not authenticated")) /\
     market_data (fst (fst (stop self list_out outs))) = Some md).
Proof.
  split; [| split; [| split]].
  - unfold stop. cbn [orders auth set_running].
    destruct (orders self) as [om |]; [destruct (auth self) as [a |] |].
    + destruct (OrderManager.flatten_all om a list_out outs)
        as [[[om' ok] reqs] | ex]; [| reflexivity].
      cbn [market_data set_orders set_running].
      destruct (market_data self); reflexivity.
    + reflexivity.
    + cbn [market_data set_running]. destruct (market_data self); reflexivity.
  - intros Ho Hm. unfold stop. cbn [orders auth set_running].
    rewrite Ho. cbn [market_data set_running]. now rewrite Hm.
  - intros om a h md Ho Ha Hm Hh. unfold stop.
    cbn [orders auth set_running]. rewrite Ho, Ha.
    destruct (OrderTrackingFacts.flatten_all_requests om a h list_out outs Hh)
      as (om' & cancels & Hf & Hall & _).
    rewrite Hf. cbn [market_data set_orders set_running]. rewrite Hm.
    cbn [market_data set_market_data fmap option_fmap option_map
         MarketData.connected MarketData.positions].
    split; [reflexivity |]. split; [eauto |]. split; reflexivity.
  - intros om a md Ho Ha Hm Hh. unfold stop.
    cbn [orders auth set_running]. rewrite Ho, Ha.
    unfold OrderManager.flatten_all, OrderManager.get_orders.
    rewrite Hh. cbn [bind fst market_data set_running]. split; [reflexivity | exact Hm].
Qed.

Lemma risk_rejection_places_nothing_witness :
  let t0 := mk_datetime 738000 0 in
  let data := {| TradovateAuth.d_accessToken := Some "tok1"%string;
                 TradovateAuth.d_mdAccessToken := Some "md1"%string;
                 TradovateAuth.d_userId := Some 7%Z;
                 TradovateAuth.d_accountId := Some 42%Z |} in
  let a := fst (fst (TradovateAuth.authenticate
                       (TradovateAuth.init "user" "pw" "sec" None "demo")
                       t0 (HttpResponse 200 (Some data)))) in
  let md := {| MarketData.connected := true; MarketData.positions := ∅ |} in
  let bot := started (init true "MNQH6") a md t0 in
  let c := Momentum30pt.mk_candle 20510 20545 20505 20545 1200 t0 in
  let signal := {| Momentum30pt.direction := "Buy";
                   Momentum30pt.entry_price := 20545;
                   Momentum30pt.stop_price := 20505;
                   Momentum30pt.breakout_candle := c;
                   Momentum30pt.prior_candle := c;
                   Momentum30pt.move_points := 35;
                   Momentum30pt.risk_points := 40;
                   Momentum30pt.timestamp := t0 |} in
  let e := {| paper_now := t0; entry_out := HttpRaises;
              stop_out := HttpRaises; target_out := HttpRaises |} in
  snd (fst (checked_execution (fun _ => "?"%string) (fun _ => None) signal
              20585 e bot))
  = [EvRiskCheck "Buy" 1 20545 20505; EvRiskBlock "Poor R:R (? pts = $?)"].
Proof.
  intros t0 data a md bot c signal e.
  rewrite (risk_rejection_places_nothing (fun _ => "?"%string) (fun _ => None)
             bot _ signal 20585 e eq_refl eq_refl).
  reflexivity.
Defined.

Lemma live_trade_bracket_witness :
  let t0 := mk_datetime 738000 0 in
  let data := {| TradovateAuth.d_accessToken := Some "tok1"%string;
                 TradovateAuth.d_mdAccessToken := Some "md1"%string;
                 TradovateAuth.d_userId := Some 7%Z;
                 TradovateAuth.d_accountId := Some 42%Z |} in
  let a := fst (fst (TradovateAuth.authenticate
                       (TradovateAuth.init "user" "pw" "sec" None "demo")
                       t0 (HttpResponse 200 (Some data)))) in
  let md := {| MarketData.connected := true; MarketData.positions := ∅ |} in
  let bot := started (init false "MNQH6") a md t0 in
  let c := Momentum30pt.mk_candle 20510 20745 20505 20745 1200 t0 in
  let signal := {| Momentum30pt.direction := "Buy";
                   Momentum30pt.entry_price := 20745;
                   Momentum30pt.stop_price := 20505;
                   Momentum30pt.breakout_candle := c;
                   Momentum30pt.prior_candle := c;
                   Momentum30pt.move_points := 235;
                   Momentum30pt.risk_points := 240;
                   Momentum30pt.timestamp := t0 |} in
  let e := {| paper_now := t0; entry_out := HttpResponse 503 None;
              stop_out := HttpRaises; target_out := HttpRaises |} in
  exists reqs,
    _live_trade (fun _ => None) signal 20985 e bot
    = (set_orders bot OrderManager.init, map EvRequest reqs, Ok tt) /\
    length reqs = 1%nat.
Proof.
  intros t0 data a md bot c signal e. eexists. split.
  - refine (proj1 (live_trade_bracket (fun _ => None) bot OrderManager.init a _
                     signal 20985 e eq_refl eq_refl eq_refl
                     OrderManager.init None _ eq_refl) (or_introl eq_refl)).
  - reflexivity.
Defined.

(** A live bracket whose entry is accepted and whose two protective
    orders are refused: three requests, and the trade is counted. *)
Example live_trade_unprotected_run :
  let t0 := mk_datetime 738000 0 in
  let data := {| TradovateAuth.d_accessToken := Some "tok1"%string;
                 TradovateAuth.d_mdAccessToken := Some "md1"%string;
                 TradovateAuth.d_userId := Some 7%Z;
                 TradovateAuth.d_accountId := Some 42%Z |} in
  let a := fst (fst (TradovateAuth.authenticate
                       (TradovateAuth.init "user" "pw" "sec" None "demo")
                       t0 (HttpResponse 200 (Some data)))) in
  let md := {| MarketData.connected := true; MarketData.positions := ∅ |} in
  let bot := started (init false "MNQH6") a md t0 in
  let c := Momentum30pt.mk_candle 20510 20745 20505 20745 1200 t0 in
  let signal := {| Momentum30pt.direction := "Buy";
                   Momentum30pt.entry_price := 20745;
                   Momentum30pt.stop_price := 20505;
                   Momentum30pt.breakout_candle := c;
                   Momentum30pt.prior_candle := c;
                   Momentum30pt.move_points := 235;
                   Momentum30pt.risk_points := 240;
                   Momentum30pt.timestamp := t0 |} in
  let answer : gmap string JVal := <["orderId" := JInt 9001]> ∅ in
  let e := {| paper_now := t0; entry_out := HttpResponse 200 (Some answer);
              stop_out := HttpResponse 400 None;
              target_out := HttpResponse 400 None |} in
  let '(bot', events, r) := _live_trade (fun _ => None) signal 20985 e bot in
  r = Ok tt /\ length events = 3%nat /\ trades_today bot' = 1%Z /\
  (RiskManager.trades_today <$> risk bot') = Some 1%Z /\
  match orders bot' with
  | Some om =>
      (OrderManager.status <$> OrderManager.pending_orders om !! 9001%Z)
      = Some "Working"%string
  | None => False
  end.
Proof. cbv zeta. vm_compute. repeat split. Qed.


End ExecutionFacts.
